(** * The non-transitive dice game (DiceGame.js)

    A shallow embedding of the classes of [DiceGame.js] -- [SecureRandom],
    [Dice], [Probability], [ProbabilityTable] and [Game] -- and of the
    script that runs them, the verification of the statements of the
    specification against them, and further properties of the program.

    How the JavaScript is read:

    - integers that the program keeps exact (face values, indices, 32-bit
      draws, counters) are [Z]; the one place where the program leaves the
      integers, [winCount / 36] followed by [toFixed(4)], is computed on
      IEEE-754 binary64 numbers ([PrimFloat]);
    - the host platform (the random source behind [crypto.randomBytes], the
      keyed hash behind [crypto.createHmac]) is a record [Host]; every call to
      it, every [console.log] and every answered prompt is appended to a
      chronological trace;
    - [throw new Error(m)] is the result [Throw m]; an [await] on a prompt
      that is never answered is the result [Pending];
    - a [Dice] object carries its identity ([oid]): [indexOf], [===] and
      [!==] on objects compare identities, not contents. *)

From Stdlib Require Import QArith ZArith NArith List String Ascii Bool Lia.
From Stdlib Require Import Floats Uint63 DecimalString.
From Stdlib Require DecimalPos.
From Stdlib.Strings Require Import Byte.
Import ListNotations.

Local Open Scope Z_scope.
Local Open Scope list_scope.

(** ** Results of calls *)

(** A synchronous call either returns or throws [new Error(message)]. *)
Inductive Res (A : Type) : Type :=
| Ok (a : A)
| Throw (message : string).
Arguments Ok {A} a.
Arguments Throw {A} message.

(** ** JavaScript strings and numbers, as far as the program uses them *)

(** [Number.prototype.toString] on an integer value. *)
Definition Number_toString (z : Z) : string :=
  NilZero.string_of_int (Z.to_int z).

Definition is_digit (c : ascii) : bool :=
  let n := N_of_ascii c in ((48 <=? n) && (n <=? 57))%N.

Definition digit_value (c : ascii) : Z := Z.of_N (N_of_ascii c) - 48.

Fixpoint digits_value (acc : Z) (s : string) : option Z :=
  match s with
  | EmptyString => Some acc
  | String c s' =>
      if is_digit c then digits_value (10 * acc + digit_value c) s' else None
  end.

(** [Number(s)] for the strings the program converts: a run of decimal
    digits is its value (the empty string is 0); [None] stands for [NaN].
    (The program converts a string only after a test that admits numerals
    alone.)  The value is exact, as JavaScript's is for numerals of at
    most 15 digits; a longer numeral JavaScript rounds to the nearest
    binary64 number, which this reading does not follow: a statement about
    what the constructors return for given arguments carries the bound
    [exact_numerals]. *)
Definition Number (s : string) : option Z := digits_value 0 s.

(** [array.includes(s)] on an array of strings. *)
Definition includes (array : list string) (s : string) : bool :=
  existsb (String.eqb s) array.

(** ** The host platform and the trace of a run *)

Record Host : Type := {
  (** the operating system's random source: the k-th byte it hands out *)
  randomSource : nat -> byte;
  (** [crypto.createHmac('sha3-256', key).update(message).digest('hex')] *)
  hmacSha3_256 : string -> string -> string
}.

(** The prompts of [getUserInput]. *)
Inductive Prompt : Type :=
| PromptDifficulty      (* 'Choose difficulty (1 or 2): ' *)
| PromptGuess           (* 'Guess the computer\'s choice (0 or 1): ' *)
| PromptThrow           (* 'Add your number modulo 6. 0 - 0 ... 5 - 5, X - exit, ? - help, Your selection: ' *)
| PromptDiceChoice.     (* 'Your choice: ' *)

(** The lines written with [console.log] and [console.error], with the
    values interpolated into them. *)
Inductive Line : Type :=
| SelectDifficultyMenu                          (* '\nSelect difficulty level:' and its two options *)
| InvalidDifficulty                             (* 'Invalid difficulty choice. Defaulting to Easy.' *)
| ComputerCommitted (hmac : string)             (* 'Computer has generated a choice with HMAC: ${hmac}' *)
| InvalidGuess                                  (* 'Invalid choice. Please enter 0 or 1.' *)
| GuessedCorrectly (key : string) (message : Z) (* 'You guessed correctly! You make the first move. The key was: ${key} and message: ${computerChoice}' *)
| GuessedWrong (key : string) (message : Z)     (* 'You guessed wrong. Computer makes the first move. The key was: ${key} and message: ${computerChoice}' *)
| ComputerSelectedDice (values : list Z)        (* 'Computer selected dice: [${computerDice.values.join(',')}]' *)
| CouldNotSelect                                (* 'Error: Computer could not select a valid dice. Please restart the game.' *)
| TimeForMyThrow                                (* 'It\'s time for my throw.' *)
| ISelected (hmac : string)                     (* 'I selected a random value in the range 0..5 (HMAC=${hmac}).' *)
| InvalidThrow                                  (* 'Invalid input. Please select a number between 0 and 5.' *)
| MyNumberIs (index : Z) (key : string)         (* 'My number is ${computerRollIndex} (KEY=${computerKey}).' *)
| TheResultIs (index : Z) (userThrow : string) (result : option Z)
                                                (* 'The result is ${computerRollIndex} + ${userThrow} = ${result} (mod 6).' *)
| ComputerRolled                                (* 'Computer rolled:' *)
| Face (rollValue : Z)                          (* the boxed face printed by graphicalRoll *)
| NowYourTurn                                   (* 'Now it\'s your turn.' *)
| YouRolled                                     (* 'You rolled:' *)
| YouWin                                        (* 'You win!' *)
| ComputerWins                                  (* 'Computer wins!' *)
| SelectPrompt (excludingComputers : bool)      (* 'Select your dice:' / 'Select your dice (excluding computer\'s choice):' *)
| DiceListing (number : Z) (values : list Z)    (* '${index + 1}: [${dice.values.join(',')}]' *)
| InvalidSelection.                             (* 'Invalid selection. Please choose a valid dice number.' *)

Inductive Event : Type :=
| RandomBytes (bytes : list byte)               (* crypto.randomBytes(n) returned these bytes *)
| CreateHmac (key message digest : string)      (* a keyed hash was computed *)
| ConsoleLog (line : Line)
| ConsoleError (line : Line)
| Question (prompt : Prompt) (answer : string). (* a prompt was shown and answered *)

Record World : Type := {
  drawn : nat;          (* bytes taken from the random source so far *)
  trace : list Event    (* what has happened, oldest first *)
}.

(** A synchronous computation on the host. *)
Definition M (A : Type) : Type := World -> Res A * World.

Definition ret {A} (a : A) : M A := fun w => (Ok a, w).
Definition throw {A} (message : string) : M A := fun w => (Throw message, w).
Definition bind {A B} (m : M A) (k : A -> M B) : M B :=
  fun w => match m w with
           | (Ok a, w') => k a w'
           | (Throw e, w') => (Throw e, w')
           end.

Notation "x <- m ;; k" := (bind m (fun x => k))
  (at level 61, m at next level, right associativity).
Notation "' pat <- m ;; k" := (bind m (fun x => match x with pat => k end))
  (at level 61, pat pattern, m at next level, right associativity).
Notation "m ;;; k" := (bind m (fun _ => k))
  (at level 61, right associativity).

Definition emit (e : Event) : M unit :=
  fun w => (Ok tt, {| drawn := drawn w; trace := trace w ++ [e] |}).

Definition console_log (l : Line) : M unit := emit (ConsoleLog l).
Definition console_error (l : Line) : M unit := emit (ConsoleError l).

(** ** Buffers *)

Definition hex_digit (n : N) : ascii :=
  if (n <? 10)%N then ascii_of_N (48 + n) else ascii_of_N (87 + n).

Definition byte_hex (b : byte) : string :=
  String (hex_digit (Byte.to_N b / 16)) (String (hex_digit (Byte.to_N b mod 16)) EmptyString).

(** [buffer.toString('hex')] *)
Definition toString_hex (buffer : list byte) : string :=
  String.concat EmptyString (map byte_hex buffer).

(** [buffer.readUInt32BE(offset)]: four bytes, most significant first; a
    read past the end of the buffer throws. *)
Definition readUInt32BE (buffer : list byte) (offset : nat) : Res Z :=
  match skipn offset buffer with
  | b0 :: b1 :: b2 :: b3 :: _ =>
      Ok (Z.of_N (Byte.to_N b0) * 2 ^ 24 + Z.of_N (Byte.to_N b1) * 2 ^ 16
          + Z.of_N (Byte.to_N b2) * 2 ^ 8 + Z.of_N (Byte.to_N b3))
  | _ => Throw "The value of offset is out of range."
  end.

(** ** class SecureRandom *)

Module SecureRandom.
Section OnHost.
Variable host : Host.

(** [crypto.randomBytes(n)] *)
Definition randomBytes (n : nat) : M (list byte) :=
  fun w =>
    let bytes := map (fun k => randomSource host (drawn w + k)%nat) (seq 0 n) in
    (Ok bytes, {| drawn := (drawn w + n)%nat; trace := trace w ++ [RandomBytes bytes] |}).

Definition generateKey (length : nat) : M string :=
  bytes <- randomBytes length ;;
  ret (toString_hex bytes).

Definition generateRandomInteger (range : Z) : M Z :=
  if range <=? 0 then throw "Range must be a positive integer."
  else
    randomBuffer <- randomBytes 4 ;;
    match readUInt32BE randomBuffer 0 with
    | Ok randomValue => ret (Z.rem randomValue range)
    | Throw e => throw e
    end.

Definition calculateHMAC (key : string) (message : Z) : M string :=
  let digest := hmacSha3_256 host key (Number_toString message) in
  emit (CreateHmac key (Number_toString message) digest) ;;;
  ret digest.
End OnHost.

(** *** The 2^32 draws of the generator

    A draw of the generator is a four-byte buffer; [draw_host r] is a host
    whose random source spells the 32-bit value [r], most significant byte
    first, and [outcome range r] is what [generateRandomInteger(range)]
    returns on that draw. *)

Definition byte_of (n : Z) : byte :=
  match Byte.of_N (Z.to_N (n mod 256)) with
  | Some b => b
  | None => x00
  end.

Definition uint32_bytes (r : Z) : list byte :=
  [byte_of (r / 2 ^ 24); byte_of (r / 2 ^ 16); byte_of (r / 2 ^ 8); byte_of r].

Definition draw_host (r : Z) : Host :=
  {| randomSource := fun k => nth k (uint32_bytes r) x00;
     hmacSha3_256 := fun _ _ => EmptyString |}.

Definition fresh : World := {| drawn := 0; trace := [] |}.

Definition outcome (range r : Z) : Res Z :=
  fst (generateRandomInteger (draw_host r) range fresh).

Definition returns (v : Z) (o : Res Z) : bool :=
  match o with
  | Ok v' => v' =? v
  | Throw _ => false
  end.

(** How many of the draws [0 .. n-1] make [generateRandomInteger(range)]
    return [v]. *)
Definition draws_below (n : N) (range v : Z) : N :=
  N.peano_rect (fun _ => N) 0%N
    (fun r acc => if returns v (outcome range (Z.of_N r)) then N.succ acc else acc) n.

(** How many of the 2^32 draws make it return [v]. *)
Definition draws_mapping_to (range v : Z) : N := draws_below (2 ^ 32) range v.

End SecureRandom.

(** ** JavaScript values in the probability table

    A cell of the table is the number with which the table was filled or
    the string [toFixed] returned; reading outside an array gives
    [undefined]. *)

Inductive value : Type :=
| undefined
| number (x : float)
| str (s : string).

(** An integer counter as a binary64 number (exact below 2^53). *)
Definition float_of_Z (z : Z) : float :=
  if z <? 0 then PrimFloat.opp (PrimFloat.of_uint63 (Uint63.of_Z (- z)))
  else PrimFloat.of_uint63 (Uint63.of_Z z).

Fixpoint zeros (n : nat) : string :=
  match n with
  | O => EmptyString
  | S n' => String "0" (zeros n')
  end.

(** The digits [m] of the scaled integer with the decimal point placed
    [f] digits from the right, zero-padded on the left to [f + 1] digits. *)
Definition place_point (f : nat) (m : string) : string :=
  let k := String.length m in
  let m' := if (k <=? f)%nat then (zeros (f + 1 - k) ++ m)%string else m in
  let k' := String.length m' in
  if (f =? 0)%nat then m'
  else (substring 0 (k' - f) m' ++ "." ++ substring (k' - f) f m')%string.

(** [x.toFixed(f)] for a finite [x] below 10^21: the integer [n] for which
    [n / 10^f] is closest to the exact value of [x] (the larger one on a
    tie), printed with [f] decimals.  The exact value of a binary64 number
    is [m * 2^e]. *)
Definition toFixed (x : float) (f : nat) : string :=
  match Prim2SF x with
  | S754_nan => "NaN"
  | S754_infinity s => if s then "-Infinity" else "Infinity"
  | S754_zero _ => place_point f "0"
  | S754_finite s m e =>
      let scaled := Z.pos m * 10 ^ Z.of_nat f in
      let n := if e <? 0 then (2 * scaled + 2 ^ (- e)) / 2 ^ (- e + 1)
               else scaled * 2 ^ e in
      let digits := place_point f (NilZero.string_of_uint (N.to_uint (Z.to_N n))) in
      if s then ("-" ++ digits)%string else digits
  end.

Fixpoint split_point (s : string) : string * option string :=
  match s with
  | EmptyString => (EmptyString, None)
  | String c s' =>
      if Ascii.eqb c "." then (EmptyString, Some s')
      else let '(a, b) := split_point s' in (String c a, b)
  end.

(** The value of a non-empty run of decimal digits. *)
Definition digits (s : string) : option Z :=
  match s with
  | EmptyString => None
  | _ => digits_value 0 s
  end.

(** [ToNumber] on a string, for the decimal numerals [digits] and
    [digits.digits] of at most fifteen digits (where the quotient of the
    two exact integers is the correctly rounded value); the empty string
    is 0 and any other string is read as [NaN]. *)
Definition StringToNumber (s : string) : float :=
  match s with
  | EmptyString => 0%float
  | _ =>
      match split_point s with
      | (int_part, None) =>
          match digits int_part with
          | Some n => float_of_Z n
          | None => nan
          end
      | (int_part, Some frac_part) =>
          match digits int_part, digits frac_part with
          | Some n, Some d =>
              let scale := 10 ^ Z.of_nat (String.length frac_part) in
              PrimFloat.div (float_of_Z (n * scale + d)) (float_of_Z scale)
          | _, _ => nan
          end
      end
  end.

Definition ToNumber (v : value) : float :=
  match v with
  | undefined => nan
  | number x => x
  | str s => StringToNumber s
  end.

Definition ToBoolean (v : value) : bool :=
  match v with
  | undefined => false
  | number x => negb (PrimFloat.eqb x 0 || PrimFloat.is_nan x)
  | str s => negb (String.eqb s EmptyString)
  end.

(** [a || b] *)
Definition or_else (a b : value) : value := if ToBoolean a then a else b.

(** [a > b]: two strings are compared by code units, anything else as
    numbers. *)
Definition greater (a b : value) : bool :=
  match a, b with
  | str sa, str sb => String.ltb sb sa
  | _, _ => PrimFloat.ltb (ToNumber b) (ToNumber a)
  end.

(** ** Loops *)

(** [for (let k = start; k < start + count; k++) body] over a state, with
    a body that may throw. *)
Fixpoint for_range {S : Type} (start : Z) (count : nat)
    (body : Z -> S -> Res S) (s : S) : Res S :=
  match count with
  | O => Ok s
  | Datatypes.S count' =>
      match body start s with
      | Ok s' => for_range (start + 1) count' body s'
      | Throw e => Throw e
      end
  end.

(** [array.forEach((element, index) => body)] over a state, from [index]. *)
Fixpoint forEach_from {A S : Type} (index : Z) (array : list A)
    (body : A -> Z -> S -> S) (s : S) : S :=
  match array with
  | [] => s
  | element :: array' => forEach_from (index + 1) array' body (body element index s)
  end.

Definition forEach {A S : Type} (array : list A) (body : A -> Z -> S -> S) (s : S) : S :=
  forEach_from 0 array body s.

(** [array[index] = v] for an index inside the array. *)
Fixpoint assign {A : Type} (array : list A) (index : nat) (v : A) : list A :=
  match array, index with
  | [], _ => []
  | _ :: array', O => v :: array'
  | a :: array', Datatypes.S index' => a :: assign array' index' v
  end.

(** ** class Dice *)

Module Dice.

Record t : Type := {
  oid : nat;            (* which object this is *)
  values : list Z
}.

(** [values.every(Number.isInteger)]: a number of the program is an
    integer [Some z] or not an integer at all ([None]: NaN, a fraction);
    the integers, when every value is one. *)
Fixpoint integers (values : list (option Z)) : option (list Z) :=
  match values with
  | [] => Some []
  | Some z :: values' =>
      match integers values' with
      | Some zs => Some (z :: zs)
      | None => None
      end
  | None :: _ => None
  end.

(** [new Dice(values)]; the object created is the [oid]-th of the program. *)
Definition constructor (oid : nat) (values : list (option Z)) : Res t :=
  match integers values with
  | None => Throw "Each dice must have exactly six integer values."
  | Some ints =>
      if negb (List.length ints =? 6)%nat then
        Throw "Each dice must have exactly six integer values."
      else if existsb (fun value => value <? 0) ints then
        Throw "Dice values must be non-negative integers."
      else Ok {| oid := oid; values := ints |}
  end.

Definition roll (this : t) (index : Z) : Res Z :=
  if (index <? 0) || (index >=? Z.of_nat (List.length (values this))) then
    Throw "Roll index must be between 0 and 5."
  else Ok (nth (Z.to_nat index) (values this) 0).

Definition graphicalRoll (this : t) (index : Z) : M Z :=
  match roll this index with
  | Ok rollValue => console_log (Face rollValue) ;;; ret rollValue
  | Throw e => throw e
  end.

(** [a === b] on two Dice objects *)
Definition same (a b : t) : bool := (oid a =? oid b)%nat.

End Dice.

(** ** class Probability *)

Module Probability.

Definition Table : Type := list (list value).

(** [probabilities[i][j]], [undefined] outside the row. *)
Definition cell (probabilities : Table) (i j : Z) : value :=
  if (i <? 0) || (j <? 0) then undefined
  else nth (Z.to_nat j) (nth (Z.to_nat i) probabilities []) undefined.

(** [probabilities[i][j] = v] *)
Definition set_cell (probabilities : Table) (i j : Z) (v : value) : Table :=
  assign probabilities (Z.to_nat i)
    (assign (nth (Z.to_nat i) probabilities []) (Z.to_nat j) v).

(** [diceArray[i]]; calling a method on [undefined] throws. *)
Definition element (diceArray : list Dice.t) (i : Z) : Res Dice.t :=
  match nth_error diceArray (Z.to_nat i) with
  | Some dice => Ok dice
  | None => Throw "Cannot read properties of undefined"
  end.

(** The two inner loops: the number of pairs of faces on which
    [diceArray[i]] shows more than [diceArray[j]]. *)
Definition countWins (diceArray : list Dice.t) (i j : Z) : Res Z :=
  for_range 0 6 (fun x winCount =>
    for_range 0 6 (fun y winCount =>
      match element diceArray i with
      | Throw e => Throw e
      | Ok di =>
          match Dice.roll di x with
          | Throw e => Throw e
          | Ok a =>
              match element diceArray j with
              | Throw e => Throw e
              | Ok dj =>
                  match Dice.roll dj y with
                  | Throw e => Throw e
                  | Ok b => Ok (if a >? b then winCount + 1 else winCount)
                  end
              end
          end
      end) winCount) 0.

Definition calculateProbabilities (diceArray : list Dice.t) : Res Table :=
  let n := List.length diceArray in
  let probabilities : Table := repeat (repeat (number 0) n) n in
  for_range 0 n (fun i probabilities =>
    for_range 0 n (fun j probabilities =>
      if i =? j then Ok probabilities
      else
        match countWins diceArray i j with
        | Throw e => Throw e
        | Ok winCount =>
            Ok (set_cell probabilities i j
                  (str (toFixed (PrimFloat.div (float_of_Z winCount) (float_of_Z 36)) 4)))
        end) probabilities) probabilities.

End Probability.

(** ** Asynchronous methods

    The answers the user will give are a list, consumed one per prompt
    ([getUserInput] resolves to the trimmed line).  A method that awaits a
    prompt when the list is exhausted stays [Pending]. *)

Inductive Run (A : Type) : Type :=
| Returned (a : A)
| Threw (message : string)
| Pending
| Exited (code : Z).            (* process.exit(code) *)
Arguments Returned {A} a.
Arguments Threw {A} message.
Arguments Pending {A}.
Arguments Exited {A} code.

Definition log (l : Line) (w : World) : World := snd (console_log l w).
Definition answered (p : Prompt) (answer : string) (w : World) : World :=
  snd (emit (Question p answer) w).

(** ** class Game *)

Module Game.

Inductive Difficulty : Type := easy | medium.

Record t : Type := {
  diceArray : list Dice.t;
  difficulty : option Difficulty;   (* undefined until startGame assigns it *)
  computerChoice : option Z         (* this.computerChoice: a property no statement assigns *)
}.

(** [arg.split(',')] *)
Fixpoint split_comma (s : string) : list string :=
  match s with
  | EmptyString => [EmptyString]
  | String c s' =>
      if Ascii.eqb c "," then EmptyString :: split_comma s'
      else match split_comma s' with
           | part :: parts => String c part :: parts
           | [] => [String c EmptyString]
           end
  end.

Fixpoint all_digits (s : string) : bool :=
  match s with
  | EmptyString => true
  | String c s' => is_digit c && all_digits s'
  end.

Definition numeral (s : string) : bool :=
  negb (String.eqb s EmptyString) && all_digits s.

(** [/^(\d+,){5}\d+$/.test(arg)]: six non-empty runs of digits separated
    by commas. *)
Definition test_six_numerals (arg : string) : bool :=
  let parts := split_comma arg in
  (List.length parts =? 6)%nat && forallb numeral parts.

(** [/^[1-9]\d*$/.test(choice)] *)
Definition test_positive_numeral (choice : string) : bool :=
  match choice with
  | EmptyString => false
  | String c s' =>
      let n := N_of_ascii c in ((49 <=? n) && (n <=? 57))%N && all_digits s'
  end.

Definition validateArgs (args : list string) : Res unit :=
  if (List.length args <? 3)%nat then
    Throw "You must specify at least 3 dice configurations."
  else if negb (forallb test_six_numerals args) then
    Throw "Each dice must be a comma-separated list of six integers."
  else Ok tt.

(** [diceArgs.map(arg => new Dice(arg.split(',').map(Number)))]; the
    objects are created in order, starting from object [oid]. *)
Fixpoint map_new_Dice (oid : nat) (diceArgs : list string) : Res (list Dice.t) :=
  match diceArgs with
  | [] => Ok []
  | arg :: diceArgs' =>
      match Dice.constructor oid (map Number (split_comma arg)) with
      | Throw e => Throw e
      | Ok dice =>
          match map_new_Dice (S oid) diceArgs' with
          | Throw e => Throw e
          | Ok dices => Ok (dice :: dices)
          end
      end
  end.

Definition constructor (diceArgs : list string) : Res t :=
  match validateArgs diceArgs with
  | Throw e => Throw e
  | Ok _ =>
      match map_new_Dice 0 diceArgs with
      | Throw e => Throw e
      | Ok dices =>
          Ok {| diceArray := dices; difficulty := None; computerChoice := None |}
      end
  end.

(** [this.difficulty = d] *)
Definition set_difficulty (this : t) (d : Difficulty) : t :=
  {| diceArray := diceArray this; difficulty := Some d;
     computerChoice := computerChoice this |}.

(** [a === b] for an object or null on the right *)
Definition identical (dice : Dice.t) (other : option Dice.t) : bool :=
  match other with
  | Some dice' => Dice.same dice dice'
  | None => false
  end.

(** [array.indexOf(x)], from position [index] *)
Fixpoint indexOf_from (index : Z) (array : list Dice.t) (x : option Dice.t) : Z :=
  match array with
  | [] => -1
  | dice :: array' => if identical dice x then index else indexOf_from (index + 1) array' x
  end.

Definition indexOf (array : list Dice.t) (x : option Dice.t) : Z :=
  indexOf_from 0 array x.

Definition medium_difficulty (this : t) : bool :=
  match difficulty this with
  | Some medium => true
  | _ => false
  end.

Section OnHost.
Variable host : Host.

(** [availableDice[generateRandomInteger(availableDice.length)]] over
    the dice other than [excludeDice] *)
Definition randomAvailable (this : t) (excludeDice : option Dice.t) : M (option Dice.t) :=
  let availableDice := filter (fun dice => negb (identical dice excludeDice)) (diceArray this) in
  k <- SecureRandom.generateRandomInteger host (Z.of_nat (List.length availableDice)) ;;
  ret (nth_error availableDice (Z.to_nat k)).

Definition selectComputerDice (this : t) (excludeDice : option Dice.t) : M (option Dice.t) :=
  if medium_difficulty this then
    match Probability.calculateProbabilities (diceArray this) with
    | Throw e => throw e
    | Ok probabilities =>
        let excludeIndex := indexOf (diceArray this) excludeDice in
        let '(bestDice, bestProbability) :=
          forEach (diceArray this)
            (fun dice index '(bestDice, bestProbability) =>
               if negb (index =? excludeIndex) then
                 let winProbability :=
                   or_else (Probability.cell probabilities index excludeIndex) (number 0) in
                 if greater winProbability bestProbability
                 then (Some dice, winProbability)
                 else (bestDice, bestProbability)
               else (bestDice, bestProbability))
            (None, number (-1)) in
        match bestDice with
        | None => randomAvailable this excludeDice
        | Some _ => ret bestDice
        end
    end
  else randomAvailable this excludeDice.

(** [dice.graphicalRoll(index)] on a variable that may hold no object *)
Definition graphicalRoll_of (dice : option Dice.t) (index : option Z) : M Z :=
  match dice, index with
  | Some d, Some i => Dice.graphicalRoll d i
  | Some d, None => throw "Cannot read properties of undefined (reading 'toString')"
  | None, _ => throw "Cannot read properties of undefined (reading 'graphicalRoll')"
  end.

(** [(Number(userThrow) + computerRollIndex) % 6]; NaN when the string
    is not a numeral *)
Definition combine (userThrow : string) (computerRollIndex : Z) : option Z :=
  match Number userThrow with
  | Some u => Some (Z.rem (u + computerRollIndex) 6)
  | None => None
  end.

(** The three statements with which the computer commits to a value:
    a key, a value in 0..5 and the keyed hash of the value. *)
Definition commitRoll : M (string * Z) :=
  computerKey <- SecureRandom.generateKey host 32 ;;
  computerRollIndex <- SecureRandom.generateRandomInteger host 6 ;;
  computerHMAC <- SecureRandom.calculateHMAC host computerKey computerRollIndex ;;
  console_log (ISelected computerHMAC) ;;;
  ret (computerKey, computerRollIndex).

(** What follows an accepted answer: the reveal, the combined index and
    the roll of [dice]. *)
Definition revealAndRoll (dice : option Dice.t) (rolled : Line)
    (computerKey : string) (computerRollIndex : Z) (userThrow : string) : M Z :=
  console_log (MyNumberIs computerRollIndex computerKey) ;;;
  let result := combine userThrow computerRollIndex in
  console_log (TheResultIs computerRollIndex userThrow result) ;;;
  console_log rolled ;;;
  graphicalRoll_of dice result.

Definition accepted_throws : list string := ["0"; "1"; "2"; "3"; "4"; "5"]%string.

Fixpoint playTurns (userDice computerDice : option Dice.t)
    (inputs : list string) (w : World) {struct inputs} : Run unit * list string * World :=
  match (console_log TimeForMyThrow ;;; commitRoll) w with
  | (Throw e, w) => (Threw e, inputs, w)
  | (Ok (computerKey1, computerRollIndex1), w) =>
      match inputs with
      | [] => (Pending, [], w)
      | userThrow1 :: inputs =>
          let w := answered PromptThrow userThrow1 w in
          if negb (includes accepted_throws userThrow1) then
            playTurns userDice computerDice inputs (log InvalidThrow w)
          else
            match (computerRoll <- revealAndRoll computerDice ComputerRolled
                                     computerKey1 computerRollIndex1 userThrow1 ;;
                   console_log NowYourTurn ;;;
                   '(computerKey2, computerRollIndex2) <- commitRoll ;;
                   ret (computerRoll, computerKey2, computerRollIndex2)) w with
            | (Throw e, w) => (Threw e, inputs, w)
            | (Ok (computerRoll, computerKey2, computerRollIndex2), w) =>
                match inputs with
                | [] => (Pending, [], w)
                | userThrow2 :: inputs =>
                    let w := answered PromptThrow userThrow2 w in
                    if negb (includes accepted_throws userThrow2) then
                      playTurns userDice computerDice inputs (log InvalidThrow w)
                    else
                      match revealAndRoll userDice YouRolled
                              computerKey2 computerRollIndex2 userThrow2 w with
                      | (Throw e, w) => (Threw e, inputs, w)
                      | (Ok userDiceRoll, w) =>
                          if userDiceRoll >? computerRoll
                          then (Returned tt, inputs, log YouWin w)
                          else (Returned tt, inputs, log ComputerWins w)
                      end
                end
            end
      end
  end.

(** [Number(choice) < 1 || Number(choice) > this.diceArray.length];
    a comparison with NaN is false. *)
Definition out_of_range (this : t) (choice : string) : bool :=
  match Number choice with
  | Some n => (n <? 1) || (n >? Z.of_nat (List.length (diceArray this)))
  | None => false
  end.

(** [this.diceArray[Number(choice) - 1]] *)
Definition chosen (this : t) (choice : string) : option Dice.t :=
  match Number choice with
  | Some n => if n - 1 <? 0 then None else nth_error (diceArray this) (Z.to_nat (n - 1))
  | None => None
  end.

Definition listing (this : t) (w : World) : World :=
  forEach (diceArray this)
    (fun dice index w => log (DiceListing (index + 1) (Dice.values dice)) w) w.

Fixpoint selectDice (this : t) (promt : Line) (inputs : list string) (w : World)
    {struct inputs} : Run (option Dice.t) * list string * World :=
  let w := listing this (log promt w) in
  match inputs with
  | [] => (Pending, [], w)
  | choice :: inputs =>
      let w := answered PromptDiceChoice choice w in
      if negb (test_positive_numeral choice) || out_of_range this choice then
        selectDice this promt inputs (log InvalidSelection w)
      else (Returned (chosen this choice), inputs, w)
  end.

(** [computerDice.values] where the variable may hold no object *)
Definition values_of (dice : option Dice.t) : Res (list Z) :=
  match dice with
  | Some d => Ok (Dice.values d)
  | None => Throw "Cannot read properties of undefined (reading 'values')"
  end.

Definition userMoveFirst (this : t) (inputs : list string) (w : World)
    : Run unit * list string * World :=
  match selectDice this (SelectPrompt false) inputs w with
  | (Returned userDice, inputs, w) =>
      match selectComputerDice this userDice w with
      | (Throw e, w) => (Threw e, inputs, w)
      | (Ok computerDice, w) =>
          match values_of computerDice with
          | Throw e => (Threw e, inputs, w)
          | Ok values =>
              playTurns userDice computerDice inputs (log (ComputerSelectedDice values) w)
          end
      end
  | (Threw e, inputs, w) => (Threw e, inputs, w)
  | (Pending, inputs, w) => (Pending, inputs, w)
  | (Exited c, inputs, w) => (Exited c, inputs, w)
  end.

Definition computerMoveFirst (this : t) (inputs : list string) (w : World)
    : Run unit * list string * World :=
  match selectComputerDice this None w with
  | (Throw e, w) => (Threw e, inputs, w)
  | (Ok None, w) => (Exited 1, inputs, snd (console_error CouldNotSelect w))
  | (Ok (Some dice), w) =>
      let computerDice := Some dice in
      let w := log (ComputerSelectedDice (Dice.values dice)) w in
      match selectDice this (SelectPrompt true) inputs w with
      | (Returned userDice, inputs, w) => playTurns userDice computerDice inputs w
      | (Threw e, inputs, w) => (Threw e, inputs, w)
      | (Pending, inputs, w) => (Pending, inputs, w)
      | (Exited c, inputs, w) => (Exited c, inputs, w)
      end
  end.

(** [Number(userGuess) === this.computerChoice]: a number is strictly
    equal only to the same number, never to [undefined] or to NaN. *)
Definition guess_is_choice (this : t) (userGuess : string) : bool :=
  match Number userGuess, computerChoice this with
  | Some a, Some b => a =? b
  | _, _ => false
  end.

Fixpoint startGame (this : t) (inputs : list string) (w : World)
    {struct inputs} : Run unit * t * list string * World :=
  let w := log SelectDifficultyMenu w in
  match inputs with
  | [] => (Pending, this, [], w)
  | difficulty :: inputs =>
      let w := answered PromptDifficulty difficulty w in
      let w := if negb (includes ["1"; "2"]%string difficulty)
               then log InvalidDifficulty w else w in
      let this := set_difficulty this
                    (if String.eqb difficulty "2" then medium else easy) in
      match (key <- SecureRandom.generateKey host 32 ;;
             computerChoice <- SecureRandom.generateRandomInteger host 2 ;;
             hmac <- SecureRandom.calculateHMAC host key computerChoice ;;
             console_log (ComputerCommitted hmac) ;;;
             ret (key, computerChoice)) w with
      | (Throw e, w) => (Threw e, this, inputs, w)
      | (Ok (key, computerChoice), w) =>
          match inputs with
          | [] => (Pending, this, [], w)
          | userGuess :: inputs =>
              let w := answered PromptGuess userGuess w in
              if negb (includes ["0"; "1"]%string userGuess) then
                startGame this inputs (log InvalidGuess w)
              else if guess_is_choice this userGuess then
                let '(r, inputs, w) :=
                  userMoveFirst this inputs (log (GuessedCorrectly key computerChoice) w) in
                (r, this, inputs, w)
              else
                let '(r, inputs, w) :=
                  computerMoveFirst this inputs (log (GuessedWrong key computerChoice) w) in
                (r, this, inputs, w)
          end
      end
  end.

End OnHost.
End Game.

(** ** Shapes of traces, for the statements about a round *)

(** What a commitment leaves in the trace: the key bytes, the four bytes
    of the value, the keyed hash and the line that publishes it. *)
Definition commit_events (host : Host) (key : string) (index : Z)
    (keyBytes indexBytes : list byte) : list Event :=
  [RandomBytes keyBytes; RandomBytes indexBytes;
   CreateHmac key (Number_toString index) (hmacSha3_256 host key (Number_toString index));
   ConsoleLog (ISelected (hmacSha3_256 host key (Number_toString index)))].

(** What follows an accepted answer: the reveal, the sum and the face. *)
Definition reveal_events (key : string) (index : Z) (userThrow : string)
    (result : Z) (rolled : Line) (face : Z) : list Event :=
  [ConsoleLog (MyNumberIs index key);
   ConsoleLog (TheResultIs index userThrow (Some result));
   ConsoleLog rolled;
   ConsoleLog (Face face)].

(** [dice.values[index]] for an index inside the array *)
Definition face (dice : Dice.t) (index : Z) : Z :=
  nth (Z.to_nat index) (Dice.values dice) 0.

(** The world [w] after [n] more bytes were drawn and [events] happened. *)
Definition advance (w : World) (n : nat) (events : list Event) : World :=
  {| drawn := (drawn w + n)%nat; trace := trace w ++ events |}.

(** The lines a trace shows on the console. *)
Fixpoint shown (events : list Event) : list Line :=
  match events with
  | [] => []
  | ConsoleLog l :: events' => l :: shown events'
  | _ :: events' => shown events'
  end.

(** The faces rolled and the verdicts announced, in order. *)
Definition face_or_verdict (l : Line) : bool :=
  match l with
  | Face _ | YouWin | ComputerWins => true
  | _ => false
  end.

Definition faces_and_verdict (events : list Event) : list Line :=
  filter face_or_verdict (shown events).

(** A keyed hash of the pair [(key, message)] is computed among [events]. *)
Definition hashes (key message : string) (events : list Event) : bool :=
  existsb (fun e => match e with
                    | CreateHmac k m _ => String.eqb k key && String.eqb m message
                    | _ => false
                    end) events.

(** Every reveal ['My number is ${index} (KEY=${key})'] is followed by a
    recomputation of the keyed hash of the revealed pair. *)
Fixpoint reveals_verified (events : list Event) : bool :=
  match events with
  | [] => true
  | ConsoleLog (MyNumberIs index key) :: later =>
      hashes key (Number_toString index) later && reveals_verified later
  | _ :: later => reveals_verified later
  end.

(** ** Dice objects and ranges *)

(** A Dice object is one that [new Dice(values)] returned. *)
Definition constructed (dice : Dice.t) : Prop :=
  exists oid values, Dice.constructor oid values = Ok dice.

Fixpoint zrange (start : Z) (count : nat) : list Z :=
  match count with
  | O => []
  | S count' => start :: zrange (start + 1) count'
  end.

(** ** The probability table in the words of the specification

    These four definitions follow the sentences of the specification, not
    the code; the code is compared with them. *)

(** Specification: the 36 ordered pairs of face indices (x, y) in
    [0,6) x [0,6). *)
Definition face_pairs : list (Z * Z) := list_prod (zrange 0 6) (zrange 0 6).

(** Specification: how many of the 36 pairs satisfy
    [a.face(x) > b.face(y)]. *)
Definition win_count (a b : Dice.t) : Z :=
  Z.of_nat (List.length (filter (fun xy => face a (fst xy) >? face b (snd xy)) face_pairs)).

(** Specification: how many of the 36 pairs have equal faces (the ties). *)
Definition tie_count (a b : Dice.t) : Z :=
  Z.of_nat (List.length (filter (fun xy => face a (fst xy) =? face b (snd xy)) face_pairs)).

(** Specification: [count / 36] in ten-thousandths, rounded to the
    nearest. *)
Definition ten_thousandths (count : Z) : Z := (count * 10000 + 18) / 36.

(** Specification: [count / 36] reported to four decimal places. *)
Definition four_decimals (count : Z) : string :=
  place_point 4 (NilZero.string_of_uint (N.to_uint (Z.to_N (ten_thousandths count)))).

(** ** Invariants of the loops, for the proofs *)

Definition indicator (b : bool) : Z := if b then 1 else 0.

(** A table of [n] rows of [n] cells. *)
Definition shape (n : nat) (m : Probability.Table) : Prop :=
  List.length m = n /\ forall a, (a < n)%nat -> List.length (nth a m []) = n.

Definition at_ (m : Probability.Table) (a b : nat) : value :=
  nth b (nth a m []) undefined.

(** The entry written for [wins a b] wins in 36. *)
Definition entry (wins : nat -> nat -> Z) (a b : nat) : value :=
  str (toFixed (PrimFloat.div (float_of_Z (wins a b)) (float_of_Z 36)) 4).

(** The table when rows below [i] are complete and row [i] is complete
    below column [j]. *)
Definition filled (diceArray : list Dice.t) (wins : nat -> nat -> Z)
    (i j : Z) (m : Probability.Table) : Prop :=
  shape (List.length diceArray) m
  /\ forall a b, (a < List.length diceArray)%nat -> (b < List.length diceArray)%nat ->
       at_ m a b =
         if ((Z.of_nat a <? i) || ((Z.of_nat a =? i) && (Z.of_nat b <? j)))
            && negb (a =? b)%nat
         then entry wins a b else number 0.

(** A default for [nth] on an array of dice. *)
Definition no_dice : Dice.t := {| Dice.oid := 0; Dice.values := [] |}.

(** The objects of [l] are numbered from [base] in the order of [l]. *)
Definition numbered (base : nat) (l : list Dice.t) : Prop :=
  forall k d, nth_error l k = Some d -> Dice.oid d = (base + k)%nat.

(** The state of the [forEach] of [selectComputerDice] after the first
    [k] dice: nothing yet, or the first dice among them, other than the
    excluded one, whose count of wins against the excluded dice is the
    greatest. *)
Definition best_so_far (diceArray : list Dice.t) (e : nat) (excluded : Dice.t)
    (k : nat) (state : option Dice.t * value) : Prop :=
  (state = (None, number (-1)) /\ forall a, (a < k)%nat -> a = e)
  \/ exists b best,
       (b < k)%nat /\ b <> e /\ nth_error diceArray b = Some best
       /\ state = (Some best, str (four_decimals (win_count best excluded)))
       /\ forall a d, (a < k)%nat -> a <> e -> nth_error diceArray a = Some d ->
            win_count d excluded <= win_count best excluded
            /\ ((a < b)%nat -> win_count d excluded < win_count best excluded).

(** ** Hosts and games of the examples *)

(** A host with a fixed byte sequence as its random source; the keyed hash
    is a stand-in that joins the key and the message. *)
Definition example_host : Host :=
  {| randomSource := fun k => SecureRandom.byte_of (Z.of_nat k * 37 + 11);
     hmacSha3_256 := fun key message => (key ++ ":" ++ message)%string |}.

Definition fresh : World := SecureRandom.fresh.

(** Scenario A of the specification. *)
Definition scenarioA : list string :=
  ["2,2,4,4,9,9"; "6,8,1,1,8,6"; "7,5,3,7,5,3"]%string.

Definition diceA : Dice.t := {| Dice.oid := 0; Dice.values := [2; 2; 4; 4; 9; 9] |}.
Definition diceB : Dice.t := {| Dice.oid := 1; Dice.values := [6; 8; 1; 1; 8; 6] |}.
Definition diceC : Dice.t := {| Dice.oid := 2; Dice.values := [7; 5; 3; 7; 5; 3] |}.

Definition gameA (d : option Game.Difficulty) : Game.t :=
  {| Game.diceArray := [diceA; diceB; diceC];
     Game.difficulty := d; Game.computerChoice := None |}.

(** Three ordinary dice. *)
Definition ordinary : list string :=
  ["1,2,3,4,5,6"; "1,2,3,4,5,6"; "1,2,3,4,5,6"]%string.

Definition ordinary0 : Dice.t := {| Dice.oid := 0; Dice.values := [1; 2; 3; 4; 5; 6] |}.
Definition ordinary1 : Dice.t := {| Dice.oid := 1; Dice.values := [1; 2; 3; 4; 5; 6] |}.
Definition ordinary2 : Dice.t := {| Dice.oid := 2; Dice.values := [1; 2; 3; 4; 5; 6] |}.

(** ** The rest of the program: the table display, the main menu, the script

    The main menu and the script write lines of their own; a session's
    history holds them together with the events of the rounds, in order.
    The methods of a round only append to the trace they are given, so a
    round is run on an empty trace and its events are appended to the
    history. *)

(** [array.map((element, index) => f)], from [index] *)
Fixpoint mapi_from {A B : Type} (index : Z) (f : A -> Z -> B) (array : list A) : list B :=
  match array with
  | [] => []
  | element :: array' => f element index :: mapi_from (index + 1) f array'
  end.

Definition mapi {A B : Type} (f : A -> Z -> B) (array : list A) : list B :=
  mapi_from 0 f array.

(** What [ProbabilityTable.display] hands to the table library:
    [new Table({ head, colWidths })] and the rows pushed into it. *)
Record CliTable : Type := {
  table_head : list string;
  table_colWidths : list Z;
  table_rows : list (list value)
}.

Inductive MenuLine : Type :=
| Welcome                        (* 'Welcome to the Non-Transitive Dice Game!' *)
| MainMenu                       (* '\nMain Menu:', '1. Play game', '2. View Probabilities', '3. Exit' *)
| InvalidOption                  (* 'Invalid option. Try again.' *)
| Goodbye                        (* 'Goodbye!' *)
| ProbabilityOfWinning           (* '\nProbability of winning:' *)
| TableText (table : CliTable)   (* table.toString() *)
| TooFewDice                     (* 'Error: You must specify at least 3 dice configurations.' *)
| UsageExample                   (* 'Example: node DiceGame.js ...' *)
| ErrorMessage (message : string). (* `Error: ${error.message}` *)

Inductive SessionEvent : Type :=
| MenuLog (line : MenuLine)              (* console.log *)
| MenuError (line : MenuLine)            (* console.error *)
| OptionChosen (answer : string)         (* 'Choose an option: ' was answered *)
| InGame (event : Event).                (* an event of a round *)

Record Session : Type := {
  taken : nat;                   (* bytes taken from the random source so far *)
  history : list SessionEvent    (* what has happened, oldest first *)
}.

Definition say (l : MenuLine) (s : Session) : Session :=
  {| taken := taken s; history := history s ++ [MenuLog l] |}.

Definition say_error (l : MenuLine) (s : Session) : Session :=
  {| taken := taken s; history := history s ++ [MenuError l] |}.

Definition chose (answer : string) (s : Session) : Session :=
  {| taken := taken s; history := history s ++ [OptionChosen answer] |}.

(** A method of a round, run within a session. *)
Definition in_game {R : Type} (method : World -> R * World) (s : Session) : R * Session :=
  let '(r, w) := method {| drawn := taken s; trace := [] |} in
  (r, {| taken := drawn w; history := history s ++ map InGame (trace w) |}).

Definition opening : Session := {| taken := 0; history := [] |}.

(** ** class ProbabilityTable *)

Module ProbabilityTable.

(** [`Dice ${index + 1}`] *)
Definition label (index : Z) : string := ("Dice " ++ Number_toString (index + 1))%string.

Definition table_of (diceArray : list Dice.t) (probabilities : Probability.Table) : CliTable :=
  {| table_head := EmptyString :: mapi (fun _ index => label index) diceArray;
     table_colWidths := 15 :: repeat 12 (List.length diceArray);
     table_rows :=
       mapi (fun row i =>
               str (label i) :: mapi (fun prob j => if i =? j then str "-" else prob) row)
         probabilities |}.

Definition display (diceArray : list Dice.t) (probabilities : Probability.Table)
    (s : Session) : Session :=
  say (TableText (table_of diceArray probabilities)) (say ProbabilityOfWinning s).

End ProbabilityTable.

(** ** Game.play and the script *)

Module GamePlay.
Section OnHost.
Variable host : Host.

(** The [while (true)] loop of [play].  Every turn of the loop consumes an
    answer, so [fuel] turns are enough for [fuel] answers; [None] is a loop
    cut short by its fuel. *)
Fixpoint play_loop (fuel : nat) (this : Game.t) (probabilities : Probability.Table)
    (inputs : list string) (s : Session)
    : option (Run unit * Game.t * list string * Session) :=
  match fuel with
  | O => None
  | S fuel' =>
      let s := say MainMenu s in
      match inputs with
      | [] => Some (Pending, this, [], s)
      | choice :: inputs =>
          let s := chose choice s in
          if String.eqb choice "1" then
            match in_game (fun w => let '(r, this', inputs', w') :=
                                      Game.startGame host this inputs w in
                                    ((r, this', inputs'), w')) s with
            | ((Returned _, this', inputs'), s) =>
                play_loop fuel' this' probabilities inputs' s
            | ((Threw e, this', inputs'), s) => Some (Threw e, this', inputs', s)
            | ((Pending, this', inputs'), s) => Some (Pending, this', inputs', s)
            | ((Exited c, this', inputs'), s) => Some (Exited c, this', inputs', s)
            end
          else if String.eqb choice "2" then
            play_loop fuel' this probabilities inputs
              (ProbabilityTable.display (Game.diceArray this) probabilities s)
          else if String.eqb choice "3" then
            Some (Returned tt, this, inputs, say Goodbye s)
          else
            play_loop fuel' this probabilities inputs (say InvalidOption s)
      end
  end.

Definition play (this : Game.t) (inputs : list string) (s : Session)
    : option (Run unit * Game.t * list string * Session) :=
  let s := say Welcome s in
  match Probability.calculateProbabilities (Game.diceArray this) with
  | Throw e => Some (Threw e, this, inputs, s)
  | Ok probabilities => play_loop (S (List.length inputs)) this probabilities inputs s
  end.

(** The script: [args] is [process.argv.slice(2)].  [game.play()] is not
    awaited, so the [catch] sees the constructor's errors only; what the
    promise of [play] ends with is what the program ends with. *)
Definition main (args : list string) (inputs : list string) (s : Session)
    : option (Run unit * Session) :=
  if (List.length args <? 3)%nat then
    Some (Exited 1, say_error UsageExample (say_error TooFewDice s))
  else
    match Game.constructor args with
    | Throw message => Some (Returned tt, say_error (ErrorMessage message) s)
    | Ok game =>
        match play game inputs s with
        | Some (r, _, _, s) => Some (r, s)
        | None => None
        end
    end.

End OnHost.
End GamePlay.

(** ** Predicates and projections for the statements about the rest *)

(** A lowercase hexadecimal digit. *)
Definition is_lower_hex (c : ascii) : bool :=
  let n := N_of_ascii c in
  (((48 <=? n) && (n <=? 57)) || ((97 <=? n) && (n <=? 102)))%N.

Fixpoint all_lower_hex (s : string) : bool :=
  match s with
  | EmptyString => true
  | String c s' => is_lower_hex c && all_lower_hex s'
  end.

(** The value of a hexadecimal digit, and the byte two of them spell. *)
Definition hex_value (c : ascii) : N :=
  let n := N_of_ascii c in if (n <? 58)%N then (n - 48)%N else (n - 87)%N.

Fixpoint unhex (s : string) : list N :=
  match s with
  | String hi (String lo s') => (16 * hex_value hi + hex_value lo)%N :: unhex s'
  | _ => []
  end.

(** An answer that [selectDice] accepts: it passes the test of the
    regular expression and names a dice of the set. *)
Definition accepted_choice (this : Game.t) (choice : string) : bool :=
  Game.test_positive_numeral choice && negb (Game.out_of_range this choice).

(** The events of the rounds in a history, and the lines of the menu. *)
Fixpoint game_events (history : list SessionEvent) : list Event :=
  match history with
  | [] => []
  | InGame e :: history' => e :: game_events history'
  | _ :: history' => game_events history'
  end.

Fixpoint menu_lines (history : list SessionEvent) : list MenuLine :=
  match history with
  | [] => []
  | MenuLog l :: history' => l :: menu_lines history'
  | _ :: history' => menu_lines history'
  end.

(** A dice given with numerals of at most 15 digits: their values are
    below 2^53, where [Number] reads a numeral without rounding. *)
Definition exact_numerals (arg : string) : bool :=
  forallb (fun part => (String.length part <=? 15)%nat) (Game.split_comma arg).

(** What [selectDice] prints before it asks: the prompt and the dice,
    numbered from 1. *)
Definition asking (this : Game.t) (promt : Line) : list Event :=
  ConsoleLog promt
  :: mapi (fun dice index => ConsoleLog (DiceListing (index + 1) (Dice.values dice)))
       (Game.diceArray this).

(** What an answer that [selectDice] rejects leaves in the trace. *)
Definition rejected_choice (this : Game.t) (promt : Line) (choice : string) : list Event :=
  asking this promt ++ [Question PromptDiceChoice choice; ConsoleLog InvalidSelection].

(** The position in the dice set of the [k]-th of the dice that are left
    when the dice at position [e] is taken out. *)
Definition skipping (e k : nat) : nat := if (k <? e)%nat then k else S k.

(** The games the constructor builds, whatever difficulty has been set
    since: three or more constructed dice, the [k]-th being the [k]-th
    object created, and no [computerChoice]. *)
Definition well_formed (this : Game.t) : Prop :=
  (3 <= List.length (Game.diceArray this))%nat
  /\ numbered 0 (Game.diceArray this)
  /\ Forall constructed (Game.diceArray this)
  /\ Game.computerChoice this = None.

(** One turn of the main menu that neither starts a game nor leaves:
    the table for '2', 'Invalid option' for anything else. *)
Definition menu_turn (table : CliTable) (answer : string) : list SessionEvent :=
  MenuLog MainMenu :: OptionChosen answer
  :: (if String.eqb answer "2"
      then [MenuLog ProbabilityOfWinning; MenuLog (TableText table)]
      else [MenuLog InvalidOption]).

(** * Verification *)

(** ** The monad *)

Lemma bind_ok {A B} (m : M A) (k : A -> M B) (w w' : World) (a : A) :
  m w = (Ok a, w') -> bind m k w = k a w'.
Proof. unfold bind. intros ->. reflexivity. Qed.

(** ** SecureRandom: the generator is the draw modulo the range *)

Section GeneratorFacts.

Lemma byte_of_value (n : Z) : Z.of_N (Byte.to_N (SecureRandom.byte_of n)) = n mod 256.
Proof.
  unfold SecureRandom.byte_of.
  assert (Hn : 0 <= n mod 256 < 256) by (apply Z.mod_pos_bound; lia).
  pose proof (Byte.to_of_N_option_map (Z.to_N (n mod 256))) as H.
  destruct (Byte.of_N (Z.to_N (n mod 256))) as [b|] eqn:Hb; cbn in H.
  - destruct (Z.to_N (n mod 256) <=? 255)%N eqn:Hle; [|discriminate].
    injection H as ->. lia.
  - destruct (Z.to_N (n mod 256) <=? 255)%N eqn:Hle; [discriminate|].
    apply N.leb_gt in Hle. lia.
Qed.

Lemma byte_value_bound (b : byte) : 0 <= Z.of_N (Byte.to_N b) < 256.
Proof.
  pose proof (Byte.to_N_bounded b). lia.
Qed.

Lemma readUInt32BE_bound (b0 b1 b2 b3 : byte) (rest : list byte) :
  exists v, readUInt32BE (b0 :: b1 :: b2 :: b3 :: rest) 0 = Ok v /\ 0 <= v < 2 ^ 32.
Proof.
  eexists. split; [reflexivity|].
  pose proof (byte_value_bound b0). pose proof (byte_value_bound b1).
  pose proof (byte_value_bound b2). pose proof (byte_value_bound b3).
  change (2 ^ 24) with 16777216. change (2 ^ 16) with 65536.
  change (2 ^ 8) with 256. change (2 ^ 32) with 4294967296. lia.
Qed.

Lemma readUInt32BE_uint32_bytes (r : Z) :
  0 <= r < 2 ^ 32 -> readUInt32BE (SecureRandom.uint32_bytes r) 0 = Ok r.
Proof.
  intros Hr. unfold SecureRandom.uint32_bytes, readUInt32BE. cbn [skipn].
  rewrite !byte_of_value. f_equal.
  change (2 ^ 24) with 16777216. change (2 ^ 16) with 65536.
  change (2 ^ 8) with 256. change (2 ^ 32) with 4294967296 in Hr.
  Z.div_mod_to_equations. lia.
Qed.

(** On any host the generator takes four bytes once and returns their
    32-bit value modulo the range. *)
Lemma generateRandomInteger_run (host : Host) (range : Z) (w : World) :
  0 < range ->
  exists randomValue bytes,
    0 <= randomValue < 2 ^ 32 /\
    SecureRandom.generateRandomInteger host range w =
      (Ok (randomValue mod range),
       {| drawn := (drawn w + 4)%nat; trace := trace w ++ [RandomBytes bytes] |}).
Proof.
  intros Hrange. unfold SecureRandom.generateRandomInteger.
  destruct (range <=? 0) eqn:Hle; [apply Z.leb_le in Hle; lia|].
  unfold bind, SecureRandom.randomBytes. cbn [seq map].
  match goal with
  | |- context [readUInt32BE (?a :: ?b :: ?c :: ?d :: ?l) 0] =>
      destruct (readUInt32BE_bound a b c d l) as (v & Hv & Hb)
  end.
  exists v. eexists. split; [exact Hb|].
  rewrite Hv. unfold ret. rewrite Z.rem_mod_nonneg by lia. reflexivity.
Qed.

Lemma outcome_mod (range r : Z) :
  0 < range -> 0 <= r < 2 ^ 32 -> SecureRandom.outcome range r = Ok (r mod range).
Proof.
  intros Hrange Hr. unfold SecureRandom.outcome, SecureRandom.generateRandomInteger.
  destruct (range <=? 0) eqn:Hle; [apply Z.leb_le in Hle; lia|].
  unfold bind, SecureRandom.randomBytes, SecureRandom.fresh, SecureRandom.draw_host.
  cbn [seq map randomSource drawn Nat.add nth]. 
  change [nth 0 (SecureRandom.uint32_bytes r) "000"%byte;
          nth 1 (SecureRandom.uint32_bytes r) "000"%byte;
          nth 2 (SecureRandom.uint32_bytes r) "000"%byte;
          nth 3 (SecureRandom.uint32_bytes r) "000"%byte]
    with (SecureRandom.uint32_bytes r).
  rewrite readUInt32BE_uint32_bytes by exact Hr.
  unfold ret. cbn [fst]. rewrite Z.rem_mod_nonneg by lia. reflexivity.
Qed.

Lemma draws_below_succ (n : N) (range v : Z) :
  SecureRandom.draws_below (N.succ n) range v =
    if SecureRandom.returns v (SecureRandom.outcome range (Z.of_N n))
    then N.succ (SecureRandom.draws_below n range v)
    else SecureRandom.draws_below n range v.
Proof.
  unfold SecureRandom.draws_below. rewrite N.peano_rect_succ. reflexivity.
Qed.

Lemma residue_count_step (m range v : Z) :
  0 < range -> 0 <= v < range -> 0 <= m ->
  (m + 1 + range - 1 - v) / range =
    (m + range - 1 - v) / range + (if m mod range =? v then 1 else 0).
Proof.
  intros Hrange Hv Hm.
  pose proof (Z.div_mod m range ltac:(lia)) as Hdm.
  pose proof (Z.mod_pos_bound m range Hrange) as Hr.
  set (q := m / range) in *. set (r := m mod range) in *.
  destruct (r =? v) eqn:Heq.
  - apply Z.eqb_eq in Heq.
    rewrite <- (Z.div_unique (m + range - 1 - v) range q (range - 1)) by lia.
    symmetry. apply (Z.div_unique _ range (q + 1) 0); lia.
  - apply Z.eqb_neq in Heq. rewrite Z.add_0_r.
    destruct (Z.lt_ge_cases r v) as [Hlt|Hge].
    + rewrite <- (Z.div_unique (m + range - 1 - v) range q (range - 1 - v + r)) by lia.
      symmetry. apply (Z.div_unique _ range q (range - v + r)); lia.
    + rewrite <- (Z.div_unique (m + range - 1 - v) range (q + 1) (r - v - 1)) by lia.
      symmetry. apply (Z.div_unique _ range (q + 1) (r - v)); lia.
Qed.

(** The count of the draws below [n] that return [v]. *)
Lemma draws_below_count (range v : Z) (n : N) :
  0 < range -> 0 <= v < range -> (n <= 2 ^ 32)%N ->
  Z.of_N (SecureRandom.draws_below n range v) = (Z.of_N n + range - 1 - v) / range.
Proof.
  intros Hrange Hv. induction n as [|n IH] using N.peano_ind; intros Hn.
  - cbn. symmetry. apply Z.div_small. lia.
  - rewrite draws_below_succ.
    assert (Hn' : 0 <= Z.of_N n < 2 ^ 32).
    { change (2 ^ 32)%N with 4294967296%N in Hn.
      change (2 ^ 32) with 4294967296. lia. }
    rewrite outcome_mod by assumption.
    cbn [SecureRandom.returns].
    specialize (IH ltac:(lia)).
    pose proof (residue_count_step (Z.of_N n) range v Hrange Hv ltac:(lia)) as Hstep.
    replace (Z.of_N (N.succ n) + range - 1 - v)
      with (Z.of_N n + 1 + range - 1 - v) by lia.
    rewrite Hstep.
    destruct (Z.of_N n mod range =? v); lia.
Qed.

Lemma draws_mapping_to_count (range v : Z) :
  0 < range -> 0 <= v < range ->
  Z.of_N (SecureRandom.draws_mapping_to range v) = (2 ^ 32 + range - 1 - v) / range.
Proof.
  intros Hrange Hv. unfold SecureRandom.draws_mapping_to.
  rewrite draws_below_count by (assumption || reflexivity).
  reflexivity.
Qed.

End GeneratorFacts.

Section GeneratorUniformity.

Lemma counts_equal_iff_divides (range : Z) :
  0 < range ->
  (forall v v', 0 <= v < range -> 0 <= v' < range ->
     SecureRandom.draws_mapping_to range v = SecureRandom.draws_mapping_to range v')
  <-> 2 ^ 32 mod range = 0.
Proof.
  intros Hrange.
  pose proof (Z.div_mod (2 ^ 32) range ltac:(lia)) as Hdm.
  pose proof (Z.mod_pos_bound (2 ^ 32) range Hrange) as Hr.
  set (q := 2 ^ 32 / range) in *. set (r := 2 ^ 32 mod range) in *.
  split.
  - intros Hall.
    specialize (Hall 0 (range - 1) ltac:(lia) ltac:(lia)).
    apply (f_equal Z.of_N) in Hall.
    rewrite !draws_mapping_to_count in Hall by lia.
    destruct (Z.eq_dec r 0) as [Hz|Hnz]; [exact Hz|exfalso].
    rewrite <- (Z.div_unique (2 ^ 32 + range - 1 - 0) range (q + 1) (r - 1)) in Hall by lia.
    rewrite <- (Z.div_unique (2 ^ 32 + range - 1 - (range - 1)) range q r) in Hall by lia.
    lia.
  - intros Hz v v' Hv Hv'. apply N2Z.inj.
    rewrite !draws_mapping_to_count by lia.
    rewrite <- (Z.div_unique (2 ^ 32 + range - 1 - v) range q (range - 1 - v)) by lia.
    rewrite <- (Z.div_unique (2 ^ 32 + range - 1 - v') range q (range - 1 - v')) by lia.
    reflexivity.
Qed.



End GeneratorUniformity.

(** ** A round of throws *)

Section RoundFacts.
Variable host : Host.

Lemma advance_advance (w : World) (n m : nat) (e1 e2 : list Event) :
  advance (advance w n e1) m e2 = advance w (n + m) (e1 ++ e2).
Proof.
  unfold advance. cbn [drawn trace]. rewrite <- app_assoc.
  f_equal. lia.
Qed.

Lemma log_advance (l : Line) (w : World) : log l w = advance w 0 [ConsoleLog l].
Proof.
  unfold log, console_log, emit, advance. cbn [snd]. f_equal. lia.
Qed.

Lemma answered_advance (p : Prompt) (a : string) (w : World) :
  answered p a w = advance w 0 [Question p a].
Proof.
  unfold answered, emit, advance. cbn [snd]. f_equal. lia.
Qed.

Lemma commitRoll_run (w : World) :
  exists key idx kb ib,
    0 <= idx < 6 /\
    Game.commitRoll host w = (Ok (key, idx), advance w 36 (commit_events host key idx kb ib)).
Proof.
  pose (kb := map (fun k => randomSource host (drawn w + k)%nat) (seq 0 32)).
  pose (w1 := {| drawn := (drawn w + 32)%nat; trace := trace w ++ [RandomBytes kb] |}).
  destruct (generateRandomInteger_run host 6 w1 ltac:(lia)) as (rv & ib & Hrv & Hrun).
  exists (toString_hex kb), (rv mod 6), kb, ib. split.
  { apply Z.mod_pos_bound. lia. }
  unfold Game.commitRoll.
  rewrite (bind_ok _ _ w w1 (toString_hex kb)) by reflexivity.
  rewrite (bind_ok _ _ _ _ _ Hrun).
  cbv [bind SecureRandom.calculateHMAC emit console_log ret w1 advance commit_events].
  cbn [drawn trace]. rewrite <- !app_assoc. cbn [app].
  replace (drawn w + 32 + 4)%nat with (drawn w + 36)%nat by lia. reflexivity.
Qed.

Lemma accepted_throw_number (userThrow : string) :
  includes Game.accepted_throws userThrow = true ->
  exists n, Number userThrow = Some n /\ 0 <= n < 6.
Proof.
  unfold includes, Game.accepted_throws. cbn [existsb].
  rewrite !orb_true_iff.
  intros [H|[H|[H|[H|[H|[H|H]]]]]]; try discriminate;
    apply String.eqb_eq in H; subst userThrow; eexists;
    (split; [vm_compute; reflexivity|lia]).
Qed.

Lemma roll_in_range (dice : Dice.t) (index : Z) :
  List.length (Dice.values dice) = 6%nat -> 0 <= index < 6 ->
  Dice.roll dice index = Ok (face dice index).
Proof.
  intros Hlen Hi. unfold Dice.roll. rewrite Hlen.
  destruct (index <? 0) eqn:H1; [apply Z.ltb_lt in H1; lia|].
  destruct (index >=? Z.of_nat 6) eqn:H2; [apply Z.geb_le in H2; lia|].
  reflexivity.
Qed.

Lemma revealAndRoll_run (dice : Dice.t) (rolled : Line) (key : string)
    (idx : Z) (userThrow : string) (n : Z) (w : World) :
  List.length (Dice.values dice) = 6%nat ->
  Number userThrow = Some n -> 0 <= n < 6 -> 0 <= idx < 6 ->
  Game.revealAndRoll (Some dice) rolled key idx userThrow w =
    (Ok (face dice ((n + idx) mod 6)),
     advance w 0 (reveal_events key idx userThrow ((n + idx) mod 6) rolled
                    (face dice ((n + idx) mod 6)))).
Proof.
  intros Hlen Hn Hnb Hidx.
  unfold Game.revealAndRoll, Game.combine. rewrite Hn.
  rewrite Z.rem_mod_nonneg by lia.
  pose proof (Z.mod_pos_bound (n + idx) 6 ltac:(lia)) as Hr.
  unfold Game.graphicalRoll_of, Dice.graphicalRoll.
  rewrite roll_in_range by assumption.
  cbv [bind console_log emit ret advance reveal_events]. cbn [drawn trace].
  rewrite <- !app_assoc. cbn [app]. f_equal. f_equal. lia.
Qed.

Lemma openTurn_run (w : World) :
  exists key idx kb ib,
    0 <= idx < 6 /\
    (console_log TimeForMyThrow ;;; Game.commitRoll host) w =
      (Ok (key, idx),
       advance w 36 (ConsoleLog TimeForMyThrow :: commit_events host key idx kb ib)).
Proof.
  destruct (commitRoll_run (log TimeForMyThrow w)) as (key & idx & kb & ib & Hidx & Hrun).
  exists key, idx, kb, ib. split; [exact Hidx|].
  rewrite (bind_ok _ _ w (log TimeForMyThrow w) tt) by reflexivity.
  rewrite Hrun, log_advance, advance_advance. reflexivity.
Qed.

Lemma secondCommit_run (cd : Dice.t) (key1 : string) (idx1 : Z) (u1 : string)
    (n1 : Z) (w : World) :
  List.length (Dice.values cd) = 6%nat ->
  Number u1 = Some n1 -> 0 <= n1 < 6 -> 0 <= idx1 < 6 ->
  exists key2 idx2 kb2 ib2,
    0 <= idx2 < 6 /\
    (computerRoll <- Game.revealAndRoll (Some cd) ComputerRolled key1 idx1 u1 ;;
     console_log NowYourTurn ;;;
     '(computerKey2, computerRollIndex2) <- Game.commitRoll host ;;
     ret (computerRoll, computerKey2, computerRollIndex2)) w =
      (Ok (face cd ((n1 + idx1) mod 6), key2, idx2),
       advance w 36
         (reveal_events key1 idx1 u1 ((n1 + idx1) mod 6) ComputerRolled
            (face cd ((n1 + idx1) mod 6))
          ++ ConsoleLog NowYourTurn :: commit_events host key2 idx2 kb2 ib2)).
Proof.
  intros Hlen Hn Hnb Hidx.
  pose proof (revealAndRoll_run cd ComputerRolled key1 idx1 u1 n1 w Hlen Hn Hnb Hidx) as Hr.
  match type of Hr with _ = (_, ?w1) =>
    destruct (commitRoll_run (log NowYourTurn w1)) as (key2 & idx2 & kb2 & ib2 & Hidx2 & Hc)
  end.
  exists key2, idx2, kb2, ib2. split; [exact Hidx2|].
  rewrite (bind_ok _ _ _ _ _ Hr).
  match goal with |- bind _ _ ?w1 = _ =>
    rewrite (bind_ok _ _ w1 (log NowYourTurn w1) tt) by reflexivity
  end.
  rewrite (bind_ok _ _ _ _ _ Hc).
  unfold ret. rewrite log_advance, !advance_advance. reflexivity.
Qed.

(** A round in which both answers are accepted. *)
Lemma playTurns_round (ud cd : Dice.t) (u1 u2 : string) (rest : list string) (w : World) :
  List.length (Dice.values ud) = 6%nat -> List.length (Dice.values cd) = 6%nat ->
  includes Game.accepted_throws u1 = true ->
  includes Game.accepted_throws u2 = true ->
  exists n1 n2 key1 idx1 kb1 ib1 key2 idx2 kb2 ib2,
    Number u1 = Some n1 /\ 0 <= n1 < 6 /\ Number u2 = Some n2 /\ 0 <= n2 < 6 /\
    0 <= idx1 < 6 /\ 0 <= idx2 < 6 /\
    let result1 := (n1 + idx1) mod 6 in
    let result2 := (n2 + idx2) mod 6 in
    let computerRoll := face cd result1 in
    let userDiceRoll := face ud result2 in
    Game.playTurns host (Some ud) (Some cd) (u1 :: u2 :: rest) w =
      (Returned tt, rest,
       advance w 72
         (ConsoleLog TimeForMyThrow :: commit_events host key1 idx1 kb1 ib1
          ++ Question PromptThrow u1
             :: reveal_events key1 idx1 u1 result1 ComputerRolled computerRoll
          ++ ConsoleLog NowYourTurn :: commit_events host key2 idx2 kb2 ib2
          ++ Question PromptThrow u2
             :: reveal_events key2 idx2 u2 result2 YouRolled userDiceRoll
          ++ [ConsoleLog (if userDiceRoll >? computerRoll then YouWin else ComputerWins)])).
Proof.
  intros Hud Hcd Hu1 Hu2.
  destruct (accepted_throw_number u1 Hu1) as (n1 & Hn1 & Hb1).
  destruct (accepted_throw_number u2 Hu2) as (n2 & Hn2 & Hb2).
  destruct (openTurn_run w) as (key1 & idx1 & kb1 & ib1 & Hidx1 & Hrun1).
  match type of Hrun1 with _ = (_, ?w1) =>
    destruct (secondCommit_run cd key1 idx1 u1 n1 (answered PromptThrow u1 w1)
                Hcd Hn1 Hb1 Hidx1) as (key2 & idx2 & kb2 & ib2 & Hidx2 & Hrun2)
  end.
  exists n1, n2, key1, idx1, kb1, ib1, key2, idx2, kb2, ib2.
  do 6 (split; [assumption|]). cbv zeta.
  remember (u2 :: rest) as inputs eqn:Hinputs.
  cbn [Game.playTurns]. rewrite Hrun1, Hu1. cbn [negb]. rewrite Hrun2.
  subst inputs. rewrite Hu2. cbn [negb].
  rewrite (revealAndRoll_run ud YouRolled key2 idx2 u2 n2 _ Hud Hn2 Hb2 Hidx2).
  rewrite !answered_advance, !advance_advance.
  destruct (face ud ((n2 + idx2) mod 6) >? face cd ((n1 + idx1) mod 6));
    rewrite log_advance, advance_advance; cbn [Nat.add app];
    rewrite <- ?app_assoc; cbn [app]; reflexivity.
Qed.

Lemma playTurns_invalid_first (ud cd : option Dice.t) (u1 : string)
    (inputs : list string) (w : World) :
  includes Game.accepted_throws u1 = false ->
  exists key idx kb ib,
    Game.playTurns host ud cd (u1 :: inputs) w =
      Game.playTurns host ud cd inputs
        (advance w 36
           (ConsoleLog TimeForMyThrow :: commit_events host key idx kb ib
            ++ [Question PromptThrow u1; ConsoleLog InvalidThrow])).
Proof.
  intros Hu1.
  destruct (openTurn_run w) as (key1 & idx1 & kb1 & ib1 & Hidx1 & Hrun1).
  exists key1, idx1, kb1, ib1.
  cbn [Game.playTurns]. rewrite Hrun1, Hu1. cbn [negb].
  rewrite answered_advance, log_advance, !advance_advance. reflexivity.
Qed.

Lemma playTurns_invalid_second (ud cd : Dice.t) (u1 u2 : string)
    (inputs : list string) (w : World) :
  List.length (Dice.values cd) = 6%nat ->
  includes Game.accepted_throws u1 = true ->
  includes Game.accepted_throws u2 = false ->
  exists events,
    Game.playTurns host (Some ud) (Some cd) (u1 :: u2 :: inputs) w =
      Game.playTurns host (Some ud) (Some cd) inputs (advance w 72 events).
Proof.
  intros Hcd Hu1 Hu2.
  destruct (accepted_throw_number u1 Hu1) as (n1 & Hn1 & Hb1).
  destruct (openTurn_run w) as (key1 & idx1 & kb1 & ib1 & Hidx1 & Hrun1).
  match type of Hrun1 with _ = (_, ?w1) =>
    destruct (secondCommit_run cd key1 idx1 u1 n1 (answered PromptThrow u1 w1)
                Hcd Hn1 Hb1 Hidx1) as (key2 & idx2 & kb2 & ib2 & Hidx2 & Hrun2)
  end.
  eexists.
  remember (u2 :: inputs) as inputs' eqn:Hinputs.
  cbn [Game.playTurns]. rewrite Hrun1, Hu1. cbn [negb]. rewrite Hrun2.
  subst inputs'. rewrite Hu2. cbn [negb].
  rewrite !answered_advance, log_advance, !advance_advance. reflexivity.
Qed.

Lemma playTurns_no_answer (ud cd : option Dice.t) (w : World) :
  exists w', Game.playTurns host ud cd [] w = (Pending, [], w').
Proof.
  destruct (openTurn_run w) as (key1 & idx1 & kb1 & ib1 & Hidx1 & Hrun1).
  eexists. cbn [Game.playTurns]. rewrite Hrun1. reflexivity.
Qed.

Lemma playTurns_one_answer (ud cd : Dice.t) (u1 : string) (w : World) :
  List.length (Dice.values cd) = 6%nat ->
  includes Game.accepted_throws u1 = true ->
  exists w', Game.playTurns host (Some ud) (Some cd) [u1] w = (Pending, [], w').
Proof.
  intros Hcd Hu1.
  destruct (accepted_throw_number u1 Hu1) as (n1 & Hn1 & Hb1).
  destruct (openTurn_run w) as (key1 & idx1 & kb1 & ib1 & Hidx1 & Hrun1).
  match type of Hrun1 with _ = (_, ?w1) =>
    destruct (secondCommit_run cd key1 idx1 u1 n1 (answered PromptThrow u1 w1)
                Hcd Hn1 Hb1 Hidx1) as (key2 & idx2 & kb2 & ib2 & Hidx2 & Hrun2)
  end.
  eexists. cbn [Game.playTurns]. rewrite Hrun1, Hu1. cbn [negb]. rewrite Hrun2.
  reflexivity.
Qed.

(** Whatever the user answers, a round between two six-sided dice ends
    with a verdict or waits for an answer: it never throws. *)
Lemma playTurns_returns_or_waits (ud cd : Dice.t) (inputs : list string) (w : World) :
  List.length (Dice.values ud) = 6%nat -> List.length (Dice.values cd) = 6%nat ->
  exists rest w',
    Game.playTurns host (Some ud) (Some cd) inputs w = (Returned tt, rest, w')
    \/ Game.playTurns host (Some ud) (Some cd) inputs w = (Pending, rest, w').
Proof.
  intros Hud Hcd.
  remember (List.length inputs) as n eqn:Hn.
  revert inputs w Hn.
  induction n as [n IH] using lt_wf_ind. intros inputs w Hn.
  destruct inputs as [|u1 inputs].
  - destruct (playTurns_no_answer (Some ud) (Some cd) w) as (w' & H).
    exists [], w'. right. exact H.
  - destruct (includes Game.accepted_throws u1) eqn:Hu1.
    + destruct inputs as [|u2 inputs].
      * destruct (playTurns_one_answer ud cd u1 w Hcd Hu1) as (w' & H).
        exists [], w'. right. exact H.
      * destruct (includes Game.accepted_throws u2) eqn:Hu2.
        -- destruct (playTurns_round ud cd u1 u2 inputs w Hud Hcd Hu1 Hu2)
             as (n1 & n2 & k1 & i1 & kb1 & ib1 & k2 & i2 & kb2 & ib2 & H).
           destruct H as (_ & _ & _ & _ & _ & _ & H). cbv zeta in H.
           eexists. eexists. left. exact H.
        -- destruct (playTurns_invalid_second ud cd u1 u2 inputs w Hcd Hu1 Hu2)
             as (events & H).
           rewrite H. apply (IH (List.length inputs)); [cbn in Hn; lia|reflexivity].
    + destruct (playTurns_invalid_first (Some ud) (Some cd) u1 inputs w Hu1)
        as (k & i & kb & ib & H).
      rewrite H. apply (IH (List.length inputs)); [cbn in Hn; lia|reflexivity].
Qed.
End RoundFacts.

(** ** Dice objects *)

Section DiceFacts.

Lemma integers_length (values : list (option Z)) (ints : list Z) :
  Dice.integers values = Some ints -> List.length ints = List.length values.
Proof.
  revert ints. induction values as [|v values IH]; intros ints H.
  - injection H as <-. reflexivity.
  - cbn in H. destruct v as [z|]; [|discriminate].
    destruct (Dice.integers values) as [zs|]; [|discriminate].
    injection H as <-. cbn. f_equal. apply IH. reflexivity.
Qed.

(** What the constructor guarantees: six faces, none negative, and the
    identity it was given. *)
Lemma constructor_ok (oid : nat) (values : list (option Z)) (dice : Dice.t) :
  Dice.constructor oid values = Ok dice ->
  Dice.oid dice = oid
  /\ Dice.integers values = Some (Dice.values dice)
  /\ List.length (Dice.values dice) = 6%nat
  /\ Forall (fun value => 0 <= value) (Dice.values dice).
Proof.
  unfold Dice.constructor.
  destruct (Dice.integers values) as [ints|] eqn:Hints; [|discriminate].
  destruct (List.length ints =? 6)%nat eqn:Hlen; [|discriminate]. cbn [negb].
  destruct (existsb (fun value => value <? 0) ints) eqn:Hneg; [discriminate|].
  intros H. injection H as <-. cbn [Dice.oid Dice.values].
  split; [reflexivity|]. split; [reflexivity|]. split.
  - apply Nat.eqb_eq. exact Hlen.
  - apply Forall_forall. intros v Hv.
    destruct (Z.ltb_spec v 0) as [Hlt|Hge]; [|exact Hge].
    exfalso. assert (existsb (fun value => value <? 0) ints = true).
    { apply existsb_exists. exists v. split; [exact Hv|]. apply Z.ltb_lt. exact Hlt. }
    congruence.
Qed.

Lemma face_in_values (dice : Dice.t) (index : Z) :
  List.length (Dice.values dice) = 6%nat -> 0 <= index < 6 ->
  In (face dice index) (Dice.values dice).
Proof.
  intros Hlen Hi. unfold face. apply nth_In. lia.
Qed.

End DiceFacts.

(** ** The claims about a round *)

Section RoundClaims.
Variable host : Host.

(** The commitment of a throw, step by step: the key is the hexadecimal
    text of the next 32 bytes, and the value is what
    [generateRandomInteger(6)] returns right after them. *)
Lemma commitRoll_draw (w : World) :
  exists key idx kb ib,
    SecureRandom.generateKey host 32 w = (Ok key, advance w 32 [RandomBytes kb])
    /\ SecureRandom.generateRandomInteger host 6 (advance w 32 [RandomBytes kb])
       = (Ok idx, advance w 36 [RandomBytes kb; RandomBytes ib])
    /\ 0 <= idx < 6
    /\ Game.commitRoll host w
       = (Ok (key, idx), advance w 36 (commit_events host key idx kb ib)).
Proof.
  pose (kb := map (fun k => randomSource host (drawn w + k)%nat) (seq 0 32)).
  destruct (generateRandomInteger_run host 6 (advance w 32 [RandomBytes kb]) ltac:(lia))
    as (rv & ib & Hrv & Hrun).
  assert (Hgen : SecureRandom.generateRandomInteger host 6 (advance w 32 [RandomBytes kb])
                 = (Ok (rv mod 6), advance w 36 [RandomBytes kb; RandomBytes ib])).
  { rewrite Hrun. unfold advance. cbn [drawn trace]. rewrite <- app_assoc. cbn [app].
    replace (drawn w + 32 + 4)%nat with (drawn w + 36)%nat by lia. reflexivity. }
  exists (toString_hex kb), (rv mod 6), kb, ib.
  split; [reflexivity|]. split; [exact Hgen|].
  split; [apply Z.mod_pos_bound; lia|].
  unfold Game.commitRoll.
  rewrite (bind_ok _ _ w (advance w 32 [RandomBytes kb]) (toString_hex kb)) by reflexivity.
  rewrite (bind_ok _ _ _ _ _ Hgen).
  cbv [bind SecureRandom.calculateHMAC emit console_log ret advance commit_events].
  cbn [drawn trace]. rewrite <- !app_assoc. cbn [app]. reflexivity.
Qed.

(** A round with two accepted answers, with the two calls of the
    generator, the two indices and the two rolls it makes. *)
Lemma playTurns_round_draws (ud cd : Dice.t) (u1 u2 : string) (rest : list string)
    (w : World) :
  List.length (Dice.values ud) = 6%nat -> List.length (Dice.values cd) = 6%nat ->
  includes Game.accepted_throws u1 = true ->
  includes Game.accepted_throws u2 = true ->
  exists n1 n2 key1 c1 kb1 ib1 key2 c2 kb2 ib2,
    Number u1 = Some n1 /\ 0 <= n1 < 6 /\ Number u2 = Some n2 /\ 0 <= n2 < 6 /\
    let result1 := (n1 + c1) mod 6 in
    let result2 := (n2 + c2) mod 6 in
    let computerRoll := face cd result1 in
    let userDiceRoll := face ud result2 in
    let throw1 :=
      ConsoleLog TimeForMyThrow :: commit_events host key1 c1 kb1 ib1
      ++ Question PromptThrow u1
         :: reveal_events key1 c1 u1 result1 ComputerRolled computerRoll in
    let throw2 :=
      ConsoleLog NowYourTurn :: commit_events host key2 c2 kb2 ib2
      ++ Question PromptThrow u2
         :: reveal_events key2 c2 u2 result2 YouRolled userDiceRoll in
    SecureRandom.generateRandomInteger host 6
      (advance w 32 [ConsoleLog TimeForMyThrow; RandomBytes kb1])
    = (Ok c1, advance w 36 [ConsoleLog TimeForMyThrow; RandomBytes kb1; RandomBytes ib1])
    /\ 0 <= c1 < 6
    /\ SecureRandom.generateRandomInteger host 6
         (advance w 68 (throw1 ++ [ConsoleLog NowYourTurn; RandomBytes kb2]))
       = (Ok c2,
          advance w 72 (throw1 ++ [ConsoleLog NowYourTurn; RandomBytes kb2; RandomBytes ib2]))
    /\ 0 <= c2 < 6
    /\ Game.playTurns host (Some ud) (Some cd) (u1 :: u2 :: rest) w
       = (Returned tt, rest,
          advance w 72
            (throw1 ++ throw2
             ++ [ConsoleLog (if userDiceRoll >? computerRoll then YouWin else ComputerWins)])).
Proof.
  intros Hud Hcd Hu1 Hu2.
  destruct (accepted_throw_number u1 Hu1) as (n1 & Hn1 & Hb1).
  destruct (accepted_throw_number u2 Hu2) as (n2 & Hn2 & Hb2).
  (* the computer's throw *)
  destruct (commitRoll_draw (log TimeForMyThrow w))
    as (key1 & c1 & kb1 & ib1 & _ & Hgen1 & Hc1 & Hcommit1).
  rewrite log_advance in Hgen1, Hcommit1.
  repeat rewrite advance_advance in Hgen1. repeat rewrite advance_advance in Hcommit1.
  cbn [Nat.add app] in Hgen1, Hcommit1.
  assert (Hopen : bind (console_log TimeForMyThrow) (fun _ => Game.commitRoll host) w
                  = (Ok (key1, c1),
                     advance w 36
                       (ConsoleLog TimeForMyThrow :: commit_events host key1 c1 kb1 ib1))).
  { rewrite (bind_ok _ _ w (log TimeForMyThrow w) tt) by reflexivity.
    rewrite log_advance. exact Hcommit1. }
  set (result1 := (n1 + c1) mod 6).
  set (throw1 := ConsoleLog TimeForMyThrow :: commit_events host key1 c1 kb1 ib1
                 ++ Question PromptThrow u1
                    :: reveal_events key1 c1 u1 result1 ComputerRolled (face cd result1)).
  assert (Hroll1 : Game.revealAndRoll (Some cd) ComputerRolled key1 c1 u1
                     (answered PromptThrow u1
                        (advance w 36
                           (ConsoleLog TimeForMyThrow :: commit_events host key1 c1 kb1 ib1)))
                   = (Ok (face cd result1), advance w 36 throw1)).
  { rewrite (revealAndRoll_run cd ComputerRolled key1 c1 u1 n1 _ Hcd Hn1 Hb1 Hc1).
    rewrite answered_advance, !advance_advance. unfold throw1, result1.
    cbn [Nat.add app]. rewrite <- ?app_assoc. reflexivity. }
  (* the user's throw *)
  destruct (commitRoll_draw (log NowYourTurn (advance w 36 throw1)))
    as (key2 & c2 & kb2 & ib2 & _ & Hgen2 & Hc2 & Hcommit2).
  rewrite log_advance in Hgen2, Hcommit2.
  repeat rewrite advance_advance in Hgen2. repeat rewrite advance_advance in Hcommit2.
  cbn [Nat.add] in Hgen2, Hcommit2.
  repeat rewrite <- app_assoc in Hgen2. repeat rewrite <- app_assoc in Hcommit2.
  cbn [app] in Hgen2, Hcommit2.
  set (result2 := (n2 + c2) mod 6).
  assert (Hsecond :
            bind (Game.revealAndRoll (Some cd) ComputerRolled key1 c1 u1)
              (fun computerRoll =>
                 bind (console_log NowYourTurn)
                   (fun _ =>
                      bind (Game.commitRoll host)
                        (fun '(computerKey2, computerRollIndex2) =>
                           ret (computerRoll, computerKey2, computerRollIndex2))))
              (answered PromptThrow u1
                 (advance w 36
                    (ConsoleLog TimeForMyThrow :: commit_events host key1 c1 kb1 ib1)))
            = (Ok (face cd result1, key2, c2),
               advance w 72
                 (throw1 ++ ConsoleLog NowYourTurn :: commit_events host key2 c2 kb2 ib2))).
  { rewrite (bind_ok _ _ _ _ _ Hroll1).
    rewrite (bind_ok _ _ (advance w 36 throw1) (log NowYourTurn (advance w 36 throw1)) tt)
      by reflexivity.
    rewrite log_advance, advance_advance. cbn [Nat.add].
    rewrite (bind_ok _ _ _ _ _ Hcommit2). unfold ret.
    rewrite <- ?app_assoc. reflexivity. }
  exists n1, n2, key1, c1, kb1, ib1, key2, c2, kb2, ib2.
  do 4 (split; [assumption|]). cbv zeta.
  fold result1. fold result2. fold throw1.
  split; [exact Hgen1|]. split; [exact Hc1|].
  split; [exact Hgen2|]. split; [exact Hc2|].
  remember (u2 :: rest) as inputs eqn:Hinputs.
  cbn [Game.playTurns]. rewrite Hopen, Hu1. cbn [negb]. rewrite Hsecond.
  subst inputs. rewrite Hu2. cbn [negb].
  rewrite (revealAndRoll_run ud YouRolled key2 c2 u2 n2 _ Hud Hn2 Hb2 Hc2).
  fold result2.
  rewrite !answered_advance, !advance_advance.
  destruct (face ud result2 >? face cd result1);
    rewrite log_advance, advance_advance; cbn [Nat.add];
    rewrite <- ?app_assoc; cbn [app]; rewrite <- ?app_assoc; reflexivity.
Qed.

(** C10.  In [playTurns], for accepted answers [u1] and [u2] (each one
    of '0' .. '5') and the values [c1] and [c2] that the two calls of
    [generateRandomInteger(6)] return, both in [0, 6): the round prints
    and uses the indices [(u1 + c1) % 6] and [(u2 + c2) % 6], which lie in
    [0, 6); [Dice.roll] returns at them, without taking its error branch,
    a face of the computer's dice and a face of the user's dice; these are
    the faces the round prints and compares, and it returns.  And a round
    between two such dice never throws, whatever is answered. *)
Theorem throw_index_in_range (oid oid' : nat) (values values' : list (option Z))
    (userDice computerDice : Dice.t) (userThrow1 userThrow2 : string)
    (rest : list string) (w : World) :
  Dice.constructor oid values = Ok userDice ->
  Dice.constructor oid' values' = Ok computerDice ->
  includes Game.accepted_throws userThrow1 = true ->
  includes Game.accepted_throws userThrow2 = true ->
  (exists u1 u2 key1 c1 keyBytes1 indexBytes1 key2 c2 keyBytes2 indexBytes2,
     Number userThrow1 = Some u1 /\ 0 <= u1 < 6
     /\ Number userThrow2 = Some u2 /\ 0 <= u2 < 6 /\
     let result1 := (u1 + c1) mod 6 in
     let result2 := (u2 + c2) mod 6 in
     let computerRoll := face computerDice result1 in
     let userDiceRoll := face userDice result2 in
     let throw1 :=
       ConsoleLog TimeForMyThrow :: commit_events host key1 c1 keyBytes1 indexBytes1
       ++ Question PromptThrow userThrow1
          :: reveal_events key1 c1 userThrow1 result1 ComputerRolled computerRoll in
     let throw2 :=
       ConsoleLog NowYourTurn :: commit_events host key2 c2 keyBytes2 indexBytes2
       ++ Question PromptThrow userThrow2
          :: reveal_events key2 c2 userThrow2 result2 YouRolled userDiceRoll in
     (* the two draws of the computer *)
     SecureRandom.generateRandomInteger host 6
       (advance w 32 [ConsoleLog TimeForMyThrow; RandomBytes keyBytes1])
     = (Ok c1,
        advance w 36 [ConsoleLog TimeForMyThrow; RandomBytes keyBytes1;
                      RandomBytes indexBytes1])
     /\ 0 <= c1 < 6
     /\ SecureRandom.generateRandomInteger host 6
          (advance w 68 (throw1 ++ [ConsoleLog NowYourTurn; RandomBytes keyBytes2]))
        = (Ok c2,
           advance w 72
             (throw1 ++ [ConsoleLog NowYourTurn; RandomBytes keyBytes2;
                         RandomBytes indexBytes2]))
     /\ 0 <= c2 < 6
     (* the two indices *)
     /\ Game.combine userThrow1 c1 = Some result1 /\ 0 <= result1 < 6
     /\ Game.combine userThrow2 c2 = Some result2 /\ 0 <= result2 < 6
     (* the two rolls *)
     /\ Dice.roll computerDice result1 = Ok computerRoll
     /\ In computerRoll (Dice.values computerDice)
     /\ Dice.roll userDice result2 = Ok userDiceRoll
     /\ In userDiceRoll (Dice.values userDice)
     (* the round: what it prints, in order, and that it returns *)
     /\ Game.playTurns host (Some userDice) (Some computerDice)
          (userThrow1 :: userThrow2 :: rest) w
        = (Returned tt, rest,
           advance w 72
             (throw1 ++ throw2
              ++ [ConsoleLog (if userDiceRoll >? computerRoll
                              then YouWin else ComputerWins)])))
  /\ (forall inputs w0, exists rest' w',
        Game.playTurns host (Some userDice) (Some computerDice) inputs w0
          = (Returned tt, rest', w')
        \/ Game.playTurns host (Some userDice) (Some computerDice) inputs w0
          = (Pending, rest', w')).
Proof.
  intros Hud Hcd Hu1 Hu2.
  destruct (constructor_ok _ _ _ Hud) as (_ & _ & Hlen & _).
  destruct (constructor_ok _ _ _ Hcd) as (_ & _ & Hlen' & _).
  split; [|intros inputs w0; apply playTurns_returns_or_waits; assumption].
  destruct (playTurns_round_draws userDice computerDice userThrow1 userThrow2 rest w
              Hlen Hlen' Hu1 Hu2)
    as (u1 & u2 & key1 & c1 & kb1 & ib1 & key2 & c2 & kb2 & ib2 & H).
  destruct H as (Hn1 & Hb1 & Hn2 & Hb2 & H). cbv zeta in H.
  destruct H as (Hgen1 & Hc1 & Hgen2 & Hc2 & Hround).
  pose proof (Z.mod_pos_bound (u1 + c1) 6 ltac:(lia)) as Hr1.
  pose proof (Z.mod_pos_bound (u2 + c2) 6 ltac:(lia)) as Hr2.
  exists u1, u2, key1, c1, kb1, ib1, key2, c2, kb2, ib2.
  do 4 (split; [assumption|]). cbv zeta.
  split; [exact Hgen1|]. split; [exact Hc1|].
  split; [exact Hgen2|]. split; [exact Hc2|].
  split; [unfold Game.combine; rewrite Hn1, Z.rem_mod_nonneg by lia; reflexivity|].
  split; [exact Hr1|].
  split; [unfold Game.combine; rewrite Hn2, Z.rem_mod_nonneg by lia; reflexivity|].
  split; [exact Hr2|].
  split; [apply roll_in_range; assumption|].
  split; [apply face_in_values; assumption|].
  split; [apply roll_in_range; assumption|].
  split; [apply face_in_values; assumption|].
  exact Hround.
Qed.

Lemma verdict_cases (userDiceRoll computerRoll : Z) :
  ((if userDiceRoll >? computerRoll then YouWin else ComputerWins) = YouWin
     <-> computerRoll < userDiceRoll)
  /\ ((if userDiceRoll >? computerRoll then YouWin else ComputerWins) = ComputerWins
     <-> userDiceRoll <= computerRoll).
Proof.
  destruct (Z.gtb_spec userDiceRoll computerRoll) as [H|H];
    (split; split; intros H'; (reflexivity || discriminate || lia)).
Qed.

(** C3, as the code has it.  When both answers of a round are accepted,
    the round rolls a face of each dice and announces 'You win!' exactly
    when the user's face is strictly greater and 'Computer wins!' in
    every other case, equal faces included; there is no third verdict. *)
Theorem verdict_of_round (oid oid' : nat) (values values' : list (option Z))
    (userDice computerDice : Dice.t) (userThrow1 userThrow2 : string)
    (rest : list string) (w : World) :
  Dice.constructor oid values = Ok userDice ->
  Dice.constructor oid' values' = Ok computerDice ->
  includes Game.accepted_throws userThrow1 = true ->
  includes Game.accepted_throws userThrow2 = true ->
  exists computerRoll userDiceRoll verdict events w',
    Game.playTurns host (Some userDice) (Some computerDice)
      (userThrow1 :: userThrow2 :: rest) w = (Returned tt, rest, w')
    /\ trace w' = trace w ++ events
    /\ In computerRoll (Dice.values computerDice)
    /\ In userDiceRoll (Dice.values userDice)
    /\ faces_and_verdict events = [Face computerRoll; Face userDiceRoll; verdict]
    /\ (verdict = YouWin <-> computerRoll < userDiceRoll)
    /\ (verdict = ComputerWins <-> userDiceRoll <= computerRoll).
Proof.
  intros Hud Hcd Hu1 Hu2.
  destruct (constructor_ok _ _ _ Hud) as (_ & _ & Hlen & _).
  destruct (constructor_ok _ _ _ Hcd) as (_ & _ & Hlen' & _).
  destruct (playTurns_round host userDice computerDice userThrow1 userThrow2 rest w
              Hlen Hlen' Hu1 Hu2)
    as (n1 & n2 & k1 & i1 & kb1 & ib1 & k2 & i2 & kb2 & ib2 & H).
  destruct H as (Hn1 & Hb1 & Hn2 & Hb2 & Hi1 & Hi2 & H). cbv zeta in H.
  pose proof (Z.mod_pos_bound (n1 + i1) 6 ltac:(lia)) as Hr1.
  pose proof (Z.mod_pos_bound (n2 + i2) 6 ltac:(lia)) as Hr2.
  exists (face computerDice ((n1 + i1) mod 6)), (face userDice ((n2 + i2) mod 6)).
  exists (if face userDice ((n2 + i2) mod 6) >? face computerDice ((n1 + i1) mod 6)
          then YouWin else ComputerWins).
  eexists. eexists.
  split; [exact H|]. split; [reflexivity|].
  split; [apply face_in_values; assumption|].
  split; [apply face_in_values; assumption|].
  split; [|apply verdict_cases].
  unfold faces_and_verdict, commit_events, reveal_events.
  cbn [app shown filter face_or_verdict].
  destruct (_ >? _); reflexivity.
Qed.

(** C5, as the code has it.  In a round with two accepted answers the
    computer publishes [calculateHMAC(key, value)] before each answer
    and afterwards reveals that same key and value; these two are the
    only keyed hashes the round computes, no reveal is followed by a
    recomputation, and the round runs to its verdict: it has no abort. *)
Theorem reveal_is_not_verified (oid oid' : nat) (values values' : list (option Z))
    (userDice computerDice : Dice.t) (userThrow1 userThrow2 : string)
    (rest : list string) (w : World) :
  Dice.constructor oid values = Ok userDice ->
  Dice.constructor oid' values' = Ok computerDice ->
  includes Game.accepted_throws userThrow1 = true ->
  includes Game.accepted_throws userThrow2 = true ->
  exists key1 index1 keyBytes1 indexBytes1 result1 face1
         key2 index2 keyBytes2 indexBytes2 result2 face2 verdict events,
    Game.playTurns host (Some userDice) (Some computerDice)
      (userThrow1 :: userThrow2 :: rest) w = (Returned tt, rest, advance w 72 events)
    /\ events =
         ConsoleLog TimeForMyThrow :: commit_events host key1 index1 keyBytes1 indexBytes1
         ++ Question PromptThrow userThrow1
            :: reveal_events key1 index1 userThrow1 result1 ComputerRolled face1
         ++ ConsoleLog NowYourTurn :: commit_events host key2 index2 keyBytes2 indexBytes2
         ++ Question PromptThrow userThrow2
            :: reveal_events key2 index2 userThrow2 result2 YouRolled face2
         ++ [ConsoleLog verdict]
    /\ (verdict = YouWin \/ verdict = ComputerWins)
    /\ reveals_verified events = false.
Proof.
  intros Hud Hcd Hu1 Hu2.
  destruct (constructor_ok _ _ _ Hud) as (_ & _ & Hlen & _).
  destruct (constructor_ok _ _ _ Hcd) as (_ & _ & Hlen' & _).
  destruct (playTurns_round host userDice computerDice userThrow1 userThrow2 rest w
              Hlen Hlen' Hu1 Hu2)
    as (n1 & n2 & k1 & i1 & kb1 & ib1 & k2 & i2 & kb2 & ib2 & H).
  destruct H as (Hn1 & Hb1 & Hn2 & Hb2 & Hi1 & Hi2 & H). cbv zeta in H.
  exists k1, i1, kb1, ib1, ((n1 + i1) mod 6), (face computerDice ((n1 + i1) mod 6)).
  exists k2, i2, kb2, ib2, ((n2 + i2) mod 6), (face userDice ((n2 + i2) mod 6)).
  eexists. eexists.
  split; [exact H|]. split; [reflexivity|]. split.
  - destruct (_ >? _); [left|right]; reflexivity.
  - unfold commit_events, reveal_events.
    cbn [app reveals_verified hashes existsb orb].
    rewrite andb_false_r. reflexivity.
Qed.

(** C9, at the failing input.  The answer 'X', which the prompt of a
    throw offers as 'X - exit', is not one of the accepted answers: the
    round prints 'Invalid input' and starts over with a new commitment
    and the same prompt.  The dice prompt treats it the same way. *)
Theorem exit_answer_reprompts (this : Game.t) (userDice computerDice : option Dice.t)
    (promt : Line) (inputs : list string) (w : World) :
  (exists key index keyBytes indexBytes,
     Game.playTurns host userDice computerDice ("X"%string :: inputs) w =
       Game.playTurns host userDice computerDice inputs
         (advance w 36
            (ConsoleLog TimeForMyThrow :: commit_events host key index keyBytes indexBytes
             ++ [Question PromptThrow "X"; ConsoleLog InvalidThrow])))
  /\ Game.selectDice this promt ("X"%string :: inputs) w =
       Game.selectDice this promt inputs
         (log InvalidSelection
            (answered PromptDiceChoice "X" (Game.listing this (log promt w)))).
Proof.
  split.
  - apply playTurns_invalid_first. reflexivity.
  - reflexivity.
Qed.

End RoundClaims.

(** The three ordinary dice are a dice set the program accepts. *)
Example ordinary_constructed :
  Game.constructor ordinary
  = Ok {| Game.diceArray := [ordinary0; ordinary1; ordinary2];
          Game.difficulty := None; Game.computerChoice := None |}.
Proof. reflexivity. Qed.

(** The statement of C3 fails on two ordinary dice: both roll a 3 and the
    round announces 'Computer wins!'. *)
Lemma equal_faces_computer_wins :
  faces_and_verdict
    (trace (snd (Game.playTurns example_host (Some ordinary0) (Some ordinary1)
                   ["0"; "4"]%string fresh)))
  = [Face 3; Face 3; ComputerWins].
Proof. vm_compute. reflexivity. Qed.

(** The statement of C5 fails on a round of scenario A: the round runs to
    its verdict and no reveal in its trace is followed by a recomputation
    of the keyed hash. *)
Lemma round_without_verification :
  let run := Game.playTurns example_host (Some diceA) (Some diceB) ["0"; "0"]%string fresh in
  fst (fst run) = Returned tt /\ reveals_verified (trace (snd run)) = false.
Proof. vm_compute. split; reflexivity. Qed.

(** ** Loops *)

Section LoopFacts.
Context {S : Type}.

(** A loop whose body never throws is a fold over its range. *)
Lemma for_range_fold (f : Z -> S -> S) (body : Z -> S -> Res S)
    (count : nat) (start : Z) (s : S) :
  (forall k s, start <= k < start + Z.of_nat count -> body k s = Ok (f k s)) ->
  for_range start count body s = Ok (fold_left (fun s k => f k s) (zrange start count) s).
Proof.
  revert start s. induction count as [|count IH]; intros start s Hbody.
  - reflexivity.
  - cbn [for_range zrange fold_left]. rewrite Hbody by lia.
    apply IH. intros k s' Hk. apply Hbody. lia.
Qed.

(** A loop maintains an invariant that its body maintains. *)
Lemma for_range_invariant (P : Z -> S -> Prop) (body : Z -> S -> Res S)
    (count : nat) (start : Z) (s : S) :
  P start s ->
  (forall k s, start <= k < start + Z.of_nat count -> P k s ->
     exists s', body k s = Ok s' /\ P (k + 1) s') ->
  exists s', for_range start count body s = Ok s' /\ P (start + Z.of_nat count) s'.
Proof.
  revert start s. induction count as [|count IH]; intros start s Hs Hbody.
  - exists s. split; [reflexivity|]. rewrite Z.add_0_r. exact Hs.
  - destruct (Hbody start s ltac:(lia) Hs) as (s1 & Hb & Hs1).
    cbn [for_range]. rewrite Hb.
    destruct (IH (start + 1) s1 Hs1) as (s' & Hrun & Hs').
    { intros k s2 Hk. apply Hbody. lia. }
    exists s'. split; [exact Hrun|].
    replace (start + Z.of_nat (Datatypes.S count)) with (start + 1 + Z.of_nat count) by lia.
    exact Hs'.
Qed.

End LoopFacts.

(** ** The probability table *)

Section CountFacts.

Lemma count_fold {A} (p : A -> bool) (l : list A) (acc : Z) :
  fold_left (fun winCount y => if p y then winCount + 1 else winCount) l acc
  = acc + Z.of_nat (List.length (filter p l)).
Proof.
  revert acc. induction l as [|y l IH]; intros acc.
  - cbn. lia.
  - cbn [fold_left filter]. rewrite IH. destruct (p y); cbn [List.length]; lia.
Qed.

Lemma count_pairs {A B} (p : A * B -> bool) (xs : list A) (ys : list B) (acc : Z) :
  fold_left (fun winCount x =>
               fold_left (fun winCount y => if p (x, y) then winCount + 1 else winCount)
                 ys winCount) xs acc
  = acc + Z.of_nat (List.length (filter p (list_prod xs ys))).
Proof.
  revert acc. induction xs as [|x xs IH]; intros acc.
  - cbn. lia.
  - cbn [fold_left list_prod]. rewrite IH, (count_fold (fun y => p (x, y))).
    rewrite filter_app, length_app.
    assert (Hmap : List.length (filter p (map (fun y => (x, y)) ys))
                   = List.length (filter (fun y => p (x, y)) ys)).
    { clear. induction ys as [|y ys IHys]; [reflexivity|].
      cbn [map filter]. destruct (p (x, y)); cbn [List.length]; rewrite IHys; reflexivity. }
    rewrite Hmap. lia.
Qed.

Lemma element_nth (diceArray : list Dice.t) (i : nat) (dice : Dice.t) :
  nth_error diceArray i = Some dice ->
  Probability.element diceArray (Z.of_nat i) = Ok dice.
Proof.
  intros H. unfold Probability.element. rewrite Nat2Z.id, H. reflexivity.
Qed.

Lemma constructed_length (dice : Dice.t) :
  constructed dice -> List.length (Dice.values dice) = 6%nat.
Proof.
  intros (oid & values & H). apply (constructor_ok _ _ _ H).
Qed.

(** The two inner loops count the pairs of faces of the specification. *)
Lemma countWins_win_count (diceArray : list Dice.t) (i j : nat) (di dj : Dice.t) :
  nth_error diceArray i = Some di -> nth_error diceArray j = Some dj ->
  constructed di -> constructed dj ->
  Probability.countWins diceArray (Z.of_nat i) (Z.of_nat j) = Ok (win_count di dj).
Proof.
  intros Hi Hj Hdi Hdj.
  apply constructed_length in Hdi. apply constructed_length in Hdj.
  unfold Probability.countWins.
  rewrite (for_range_fold
             (fun x winCount =>
                fold_left (fun winCount y =>
                             if face di x >? face dj y then winCount + 1 else winCount)
                  (zrange 0 6) winCount)).
  - rewrite (count_pairs (fun xy => face di (fst xy) >? face dj (snd xy))).
    reflexivity.
  - intros x winCount Hx.
    apply for_range_fold. intros y winCount' Hy.
    rewrite (element_nth _ _ _ Hi), (element_nth _ _ _ Hj).
    rewrite !roll_in_range by (assumption || lia). reflexivity.
Qed.

Lemma win_count_bound (a b : Dice.t) : 0 <= win_count a b <= 36.
Proof.
  unfold win_count. split; [lia|].
  pose proof (filter_length_le (fun xy => face a (fst xy) >? face b (snd xy)) face_pairs) as H.
  change (List.length face_pairs) with 36%nat in H. lia.
Qed.

Lemma count_indicators {A} (p : A -> bool) (l : list A) :
  Z.of_nat (List.length (filter p l)) = fold_right (fun e acc => indicator (p e) + acc) 0 l.
Proof.
  induction l as [|e l IH]; [reflexivity|].
  cbn [filter fold_right]. rewrite <- IH.
  destruct (p e); cbn [indicator List.length]; lia.
Qed.

Lemma one_of_three (u v : Z) :
  indicator (u >? v) + indicator (v >? u) + indicator (u =? v) = 1.
Proof.
  destruct (Z.gtb_spec u v), (Z.gtb_spec v u), (Z.eqb_spec u v);
    cbn [indicator]; lia.
Qed.

Lemma three_way_count {A} (p q r : A -> bool) (l : list A) :
  (forall e, indicator (p e) + indicator (q e) + indicator (r e) = 1) ->
  Z.of_nat (List.length (filter p l)) + Z.of_nat (List.length (filter q l))
  + Z.of_nat (List.length (filter r l)) = Z.of_nat (List.length l).
Proof.
  intros H. rewrite !count_indicators.
  induction l as [|e l IH]; [reflexivity|].
  cbn [fold_right List.length]. specialize (H e). lia.
Qed.

(** Counting the pairs (x, y) with [b.face(x) > a.face(y)] is counting
    the pairs (x, y) with [b.face(y) > a.face(x)]. *)
Lemma win_count_swap (a b : Dice.t) :
  win_count b a
  = Z.of_nat (List.length (filter (fun xy => face b (snd xy) >? face a (fst xy)) face_pairs)).
Proof.
  unfold win_count. rewrite !count_indicators.
  let pairs := eval vm_compute in face_pairs in change face_pairs with pairs.
  cbn [fold_right fst snd]. lia.
Qed.

(** Ties count toward neither side. *)
Lemma wins_and_ties (a b : Dice.t) :
  win_count a b + win_count b a + tie_count a b = 36.
Proof.
  rewrite (win_count_swap a b). unfold win_count, tie_count.
  rewrite three_way_count; [reflexivity|].
  intros [x y]. cbn [fst snd]. apply one_of_three.
Qed.

End CountFacts.

Section TableFacts.

Lemma assign_length {A} (l : list A) (k : nat) (v : A) :
  List.length (assign l k v) = List.length l.
Proof.
  revert k. induction l as [|a l IH]; intros k; [reflexivity|].
  destruct k; cbn; [reflexivity|]. rewrite IH. reflexivity.
Qed.

Lemma assign_nth {A} (l : list A) (k k' : nat) (v d : A) :
  (k < List.length l)%nat ->
  nth k' (assign l k v) d = if (k' =? k)%nat then v else nth k' l d.
Proof.
  revert k k'. induction l as [|a l IH]; intros k k' Hk; [cbn in Hk; lia|].
  destruct k, k'; cbn; try reflexivity.
  apply IH. cbn in Hk. lia.
Qed.

Lemma cell_at (m : Probability.Table) (a b : nat) :
  Probability.cell m (Z.of_nat a) (Z.of_nat b) = at_ m a b.
Proof.
  unfold Probability.cell, at_.
  destruct (Z.of_nat a <? 0) eqn:Ha; [apply Z.ltb_lt in Ha; lia|].
  destruct (Z.of_nat b <? 0) eqn:Hb; [apply Z.ltb_lt in Hb; lia|].
  cbn [orb]. rewrite !Nat2Z.id. reflexivity.
Qed.

Lemma set_cell_at (n : nat) (m : Probability.Table) (a b : nat) (v : value) :
  shape n m -> (a < n)%nat -> (b < n)%nat ->
  shape n (Probability.set_cell m (Z.of_nat a) (Z.of_nat b) v)
  /\ forall a' b',
       at_ (Probability.set_cell m (Z.of_nat a) (Z.of_nat b) v) a' b'
       = if ((a' =? a) && (b' =? b))%nat then v else at_ m a' b'.
Proof.
  intros [Hlen Hrows] Ha Hb. unfold Probability.set_cell. rewrite !Nat2Z.id.
  split.
  - split; [rewrite assign_length; exact Hlen|].
    intros a' Ha'. rewrite assign_nth by lia.
    destruct (a' =? a)%nat eqn:E.
    + rewrite assign_length. apply Hrows. exact Ha.
    + apply Hrows. exact Ha'.
  - intros a' b'. unfold at_. rewrite assign_nth by lia.
    destruct (a' =? a)%nat eqn:E; cbn [andb]; [|reflexivity].
    apply Nat.eqb_eq in E. subst a'.
    rewrite assign_nth by (rewrite Hrows; lia). reflexivity.
Qed.

Lemma repeat_shape (n : nat) :
  shape n (repeat (repeat (number 0) n) n)
  /\ forall a b, (a < n)%nat -> (b < n)%nat ->
       at_ (repeat (repeat (number 0) n) n) a b = number 0.
Proof.
  assert (Hrow : forall a, (a < n)%nat ->
            nth a (repeat (repeat (number 0) n) n) [] = repeat (number 0) n).
  { intros a Ha. apply nth_repeat_lt. exact Ha. }
  split.
  - split; [apply repeat_length|]. intros a Ha. rewrite Hrow by exact Ha.
    apply repeat_length.
  - intros a b Ha Hb. unfold at_. rewrite Hrow by exact Ha.
    apply nth_repeat_lt. exact Hb.
Qed.

Variable diceArray : list Dice.t.
Variable wins : nat -> nat -> Z.
Hypothesis countWins_wins :
  forall a b, (a < List.length diceArray)%nat -> (b < List.length diceArray)%nat ->
    Probability.countWins diceArray (Z.of_nat a) (Z.of_nat b) = Ok (wins a b).

Lemma calculateProbabilities_filled :
  exists probabilities,
    Probability.calculateProbabilities diceArray = Ok probabilities
    /\ filled diceArray wins (Z.of_nat (List.length diceArray)) 0 probabilities.
Proof.
  unfold Probability.calculateProbabilities.
  set (n := List.length diceArray).
  apply (for_range_invariant (fun i m => filled diceArray wins i 0 m)).
  - destruct (repeat_shape n) as [Hshape Hzero].
    split; [exact Hshape|]. intros a b Ha Hb. rewrite Hzero by assumption.
    destruct (Z.of_nat a <? 0) eqn:E1; [apply Z.ltb_lt in E1; lia|].
    destruct (Z.of_nat a =? 0); cbn [orb andb];
      (destruct (Z.of_nat b <? 0) eqn:E2; [apply Z.ltb_lt in E2; lia|reflexivity]).
  - intros i m Hi Hm.
    assert (Hrow : exists m', for_range 0 n
               (fun j probabilities =>
                  if i =? j then Ok probabilities
                  else match Probability.countWins diceArray i j with
                       | Throw e => Throw e
                       | Ok winCount =>
                           Ok (Probability.set_cell probabilities i j
                                 (str (toFixed (PrimFloat.div (float_of_Z winCount)
                                                  (float_of_Z 36)) 4)))
                       end) m = Ok m' /\ filled diceArray wins i (0 + Z.of_nat n) m').
    { apply (for_range_invariant (fun j m => filled diceArray wins i j m)); [exact Hm|].
      intros j m1 Hj [Hshape Hcells].
      destruct (Z.eqb_spec i j) as [Heq|Hneq].
      - exists m1. split; [reflexivity|]. split; [exact Hshape|].
        intros a b Ha Hb. rewrite Hcells by assumption.
        destruct (Nat.eqb_spec a b) as [Hab|Hab]; cbn [negb];
          [rewrite !andb_false_r; reflexivity|rewrite !andb_true_r].
        f_equal.
        destruct (Z.ltb_spec (Z.of_nat a) i), (Z.eqb_spec (Z.of_nat a) i),
          (Z.ltb_spec (Z.of_nat b) j), (Z.ltb_spec (Z.of_nat b) (j + 1));
          cbn [orb andb]; try reflexivity; lia.
      - assert (Hi' : i = Z.of_nat (Z.to_nat i)) by lia.
        assert (Hj' : j = Z.of_nat (Z.to_nat j)) by lia.
        rewrite Hi', Hj'.
        rewrite countWins_wins by (fold n; lia).
        destruct (set_cell_at n m1 (Z.to_nat i) (Z.to_nat j)
                    (entry wins (Z.to_nat i) (Z.to_nat j)) Hshape ltac:(lia) ltac:(lia))
          as [Hshape' Hat].
        eexists. split; [reflexivity|]. split; [exact Hshape'|].
        intros a b Ha Hb. fold (entry wins (Z.to_nat i) (Z.to_nat j)).
        rewrite Hat, Hcells by assumption. rewrite <- Hi', <- Hj'.
        destruct (Nat.eqb_spec a (Z.to_nat i)) as [Hai|Hai];
          destruct (Nat.eqb_spec b (Z.to_nat j)) as [Hbj|Hbj]; cbn [andb].
        + subst a b.
          destruct (Nat.eqb_spec (Z.to_nat i) (Z.to_nat j)) as [E|E]; [lia|].
          cbn [negb]. rewrite andb_true_r.
          destruct (Z.ltb_spec (Z.of_nat (Z.to_nat i)) i),
            (Z.eqb_spec (Z.of_nat (Z.to_nat i)) i),
            (Z.ltb_spec (Z.of_nat (Z.to_nat j)) (j + 1));
            cbn [orb andb]; try reflexivity; lia.
        + f_equal. f_equal.
          destruct (Z.ltb_spec (Z.of_nat a) i), (Z.eqb_spec (Z.of_nat a) i),
            (Z.ltb_spec (Z.of_nat b) j), (Z.ltb_spec (Z.of_nat b) (j + 1));
            cbn [orb andb]; try reflexivity; lia.
        + f_equal. f_equal.
          destruct (Z.ltb_spec (Z.of_nat a) i), (Z.eqb_spec (Z.of_nat a) i),
            (Z.ltb_spec (Z.of_nat b) j), (Z.ltb_spec (Z.of_nat b) (j + 1));
            cbn [orb andb]; try reflexivity; lia.
        + f_equal. f_equal.
          destruct (Z.ltb_spec (Z.of_nat a) i), (Z.eqb_spec (Z.of_nat a) i),
            (Z.ltb_spec (Z.of_nat b) j), (Z.ltb_spec (Z.of_nat b) (j + 1));
            cbn [orb andb]; try reflexivity; lia. }
    destruct Hrow as (m' & Hrun & [Hshape' Hcells']).
    exists m'. split; [exact Hrun|]. split; [exact Hshape'|].
    intros a b Ha Hb. rewrite Hcells' by assumption. f_equal. f_equal.
    destruct (Z.ltb_spec (Z.of_nat a) i), (Z.eqb_spec (Z.of_nat a) i),
      (Z.ltb_spec (Z.of_nat b) (0 + Z.of_nat n)), (Z.ltb_spec (Z.of_nat a) (i + 1)),
      (Z.eqb_spec (Z.of_nat a) (i + 1)), (Z.ltb_spec (Z.of_nat b) 0);
      cbn [orb andb]; try reflexivity; fold n in Ha, Hb; lia.
Qed.

End TableFacts.

(** ** Four decimal places *)

Section FixedFacts.

Lemma zrange_In (count : nat) (start k : Z) :
  start <= k < start + Z.of_nat count -> In k (zrange start count).
Proof.
  revert start. induction count as [|count IH]; intros start Hk; [lia|].
  cbn [zrange]. destruct (Z.eq_dec start k) as [->|Hne]; [left; reflexivity|].
  right. apply IH. lia.
Qed.

(** A property of the counts 0 .. 36 that a computation decides. *)
Lemma for_counts (p : Z -> bool) :
  forallb p (zrange 0 37) = true -> forall count, 0 <= count <= 36 -> p count = true.
Proof.
  intros Hall count Hc. rewrite forallb_forall in Hall.
  apply Hall. apply zrange_In. lia.
Qed.

(** [(winCount / 36).toFixed(4)], computed on binary64 numbers, is the
    count divided by 36 and rounded to four decimal places. *)
Lemma toFixed_four_decimals (count : Z) :
  0 <= count <= 36 ->
  toFixed (PrimFloat.div (float_of_Z count) (float_of_Z 36)) 4 = four_decimals count.
Proof.
  intros Hc. apply String.eqb_eq.
  apply (for_counts (fun c => String.eqb
                                (toFixed (PrimFloat.div (float_of_Z c) (float_of_Z 36)) 4)
                                (four_decimals c))); [|exact Hc].
  vm_compute. reflexivity.
Qed.

(** The ten-thousandths are the nearest to [count / 36]. *)
Lemma ten_thousandths_nearest (count : Z) :
  Z.abs (36 * ten_thousandths count - 10000 * count) <= 18.
Proof.
  unfold ten_thousandths.
  pose proof (Z.div_mod (count * 10000 + 18) 36 ltac:(lia)) as Hdm.
  pose proof (Z.mod_pos_bound (count * 10000 + 18) 36 ltac:(lia)) as Hr.
  lia.
Qed.

Lemma four_decimals_truthy (count : Z) :
  0 <= count <= 36 -> ToBoolean (str (four_decimals count)) = true.
Proof.
  apply (for_counts (fun c => ToBoolean (str (four_decimals c)))).
  vm_compute. reflexivity.
Qed.

(** A table entry is greater than the initial [-1]. *)
Lemma four_decimals_above_initial (count : Z) :
  0 <= count <= 36 -> greater (str (four_decimals count)) (number (-1)) = true.
Proof.
  apply (for_counts (fun c => greater (str (four_decimals c)) (number (-1)))).
  vm_compute. reflexivity.
Qed.

(** Two table entries compare, as strings, the way their counts do. *)
Lemma four_decimals_order (u v : Z) :
  0 <= u <= 36 -> 0 <= v <= 36 ->
  greater (str (four_decimals u)) (str (four_decimals v)) = (u >? v).
Proof.
  intros Hu Hv.
  assert (H : forallb (fun a => forallb (fun b =>
                Bool.eqb (greater (str (four_decimals a)) (str (four_decimals b))) (a >? b))
                (zrange 0 37)) (zrange 0 37) = true) by (vm_compute; reflexivity).
  pose proof (for_counts _ H u Hu) as Hrow. cbv beta in Hrow.
  pose proof (for_counts _ Hrow v Hv) as Hcell. cbv beta in Hcell.
  apply Bool.eqb_prop in Hcell. exact Hcell.
Qed.

End FixedFacts.

(** ** The claim about the probability table *)

Section TableClaim.

(** The table of a set of constructed dice: the entries off the diagonal. *)
Lemma calculateProbabilities_cells (diceArray : list Dice.t) :
  Forall constructed diceArray ->
  exists probabilities,
    Probability.calculateProbabilities diceArray = Ok probabilities
    /\ forall i j di dj,
         nth_error diceArray i = Some di -> nth_error diceArray j = Some dj -> i <> j ->
         Probability.cell probabilities (Z.of_nat i) (Z.of_nat j)
           = str (four_decimals (win_count di dj)).
Proof.
  intros Hall.
  pose (wins := fun a b => win_count (nth a diceArray no_dice) (nth b diceArray no_dice)).
  assert (Hwins : forall a b, (a < List.length diceArray)%nat ->
            (b < List.length diceArray)%nat ->
            Probability.countWins diceArray (Z.of_nat a) (Z.of_nat b) = Ok (wins a b)).
  { intros a b Ha Hb. rewrite Forall_forall in Hall.
    apply countWins_win_count.
    - apply nth_error_nth'. exact Ha.
    - apply nth_error_nth'. exact Hb.
    - apply Hall. apply nth_In. exact Ha.
    - apply Hall. apply nth_In. exact Hb. }
  destruct (calculateProbabilities_filled diceArray wins Hwins)
    as (probabilities & Hrun & _ & Hcells).
  exists probabilities. split; [exact Hrun|].
  intros i j di dj Hi Hj Hij.
  assert (Hi' : (i < List.length diceArray)%nat) by (apply nth_error_Some; congruence).
  assert (Hj' : (j < List.length diceArray)%nat) by (apply nth_error_Some; congruence).
  rewrite cell_at, Hcells by assumption.
  destruct (Z.ltb_spec (Z.of_nat i) (Z.of_nat (List.length diceArray))) as [_|]; [|lia].
  destruct (Nat.eqb_spec i j) as [|_]; [contradiction|]. cbn [orb andb negb].
  unfold entry, wins.
  rewrite (nth_error_nth _ _ no_dice Hi), (nth_error_nth _ _ no_dice Hj).
  rewrite toFixed_four_decimals by apply win_count_bound. reflexivity.
Qed.

(** C8.  For a dice set and two different indices i and j, the entry of
    the table is the number of the 36 ordered pairs of face indices
    (x, y) with dice[i].face(x) > dice[j].face(y), divided by 36 and
    reported to four decimal places (the nearest ten-thousandth, printed
    with four decimals); pairs of equal faces are counted for neither
    dice. *)
Theorem calculateProbabilities_entries (diceArray : list Dice.t) :
  Forall constructed diceArray ->
  exists probabilities,
    Probability.calculateProbabilities diceArray = Ok probabilities
    /\ forall i j di dj,
         nth_error diceArray i = Some di -> nth_error diceArray j = Some dj -> i <> j ->
         Probability.cell probabilities (Z.of_nat i) (Z.of_nat j)
           = str (four_decimals (win_count di dj))
         /\ Z.abs (36 * ten_thousandths (win_count di dj) - 10000 * win_count di dj) <= 18
         /\ win_count di dj + win_count dj di + tie_count di dj = 36.
Proof.
  intros Hall.
  destruct (calculateProbabilities_cells diceArray Hall) as (probabilities & Hrun & Hcells).
  exists probabilities. split; [exact Hrun|].
  intros i j di dj Hi Hj Hij. split; [|split].
  - apply Hcells; assumption.
  - apply ten_thousandths_nearest.
  - apply wins_and_ties.
Qed.

End TableClaim.

(** Scenario A of the specification: a cycle with 20 wins in 36, 0.5556. *)
Example scenarioA_cycle :
  Game.constructor scenarioA = Ok (gameA None)
  /\ win_count diceA diceB = 20 /\ win_count diceB diceC = 20 /\ win_count diceC diceA = 20
  /\ exists probabilities,
       Probability.calculateProbabilities [diceA; diceB; diceC] = Ok probabilities
       /\ Probability.cell probabilities 0 1 = str "0.5556"
       /\ Probability.cell probabilities 1 2 = str "0.5556"
       /\ Probability.cell probabilities 2 0 = str "0.5556".
Proof.
  split; [reflexivity|]. split; [reflexivity|]. split; [reflexivity|]. split; [reflexivity|].
  eexists. split; [vm_compute; reflexivity|]. repeat split.
Qed.

(** ** The dice of a game *)

Section GameFacts.

Lemma map_new_Dice_ok (diceArgs : list string) (oid : nat) (dices : list Dice.t) :
  Game.map_new_Dice oid diceArgs = Ok dices ->
  List.length dices = List.length diceArgs
  /\ numbered oid dices /\ Forall constructed dices.
Proof.
  revert oid dices. induction diceArgs as [|arg diceArgs IH]; intros oid dices H.
  - injection H as <-. split; [reflexivity|]. split; [|constructor].
    intros [|k] d Hk; discriminate.
  - cbn [Game.map_new_Dice] in H.
    destruct (Dice.constructor oid _) as [dice|] eqn:Hdice; [|discriminate].
    destruct (Game.map_new_Dice (S oid) diceArgs) as [rest|] eqn:Hrest; [|discriminate].
    injection H as <-.
    destruct (IH _ _ Hrest) as (Hlen & Hnum & Hall).
    split; [cbn; rewrite Hlen; reflexivity|]. split.
    + intros [|k] d Hk.
      * injection Hk as <-. rewrite (proj1 (constructor_ok _ _ _ Hdice)). lia.
      * cbn in Hk. rewrite (Hnum _ _ Hk). lia.
    + constructor; [|exact Hall]. eexists. eexists. exact Hdice.
Qed.

(** What [new Game(diceArgs)] guarantees. *)
Lemma Game_constructor_ok (diceArgs : list string) (game : Game.t) :
  Game.constructor diceArgs = Ok game ->
  (3 <= List.length (Game.diceArray game))%nat
  /\ numbered 0 (Game.diceArray game)
  /\ Forall constructed (Game.diceArray game)
  /\ Game.difficulty game = None
  /\ Game.computerChoice game = None.
Proof.
  unfold Game.constructor, Game.validateArgs.
  destruct (List.length diceArgs <? 3)%nat eqn:Hlen; [discriminate|].
  destruct (negb (forallb Game.test_six_numerals diceArgs)); [discriminate|].
  destruct (Game.map_new_Dice 0 diceArgs) as [dices|] eqn:Hdices; [|discriminate].
  intros H. injection H as <-. cbn.
  destruct (map_new_Dice_ok _ _ _ Hdices) as (Hl & Hnum & Hall).
  apply Nat.ltb_ge in Hlen. repeat split; try assumption. lia.
Qed.

Lemma indexOf_from_numbered (l : list Dice.t) (base : nat) (index : Z)
    (e : nat) (d : Dice.t) :
  numbered base l -> nth_error l e = Some d ->
  Game.indexOf_from index l (Some d) = index + Z.of_nat e.
Proof.
  revert base index e. induction l as [|d0 l IH]; intros base index e Hnum He.
  - destruct e; discriminate.
  - cbn [Game.indexOf_from]. unfold Game.identical, Dice.same.
    pose proof (Hnum 0%nat d0 eq_refl) as H0. pose proof (Hnum e d He) as Hd.
    destruct e as [|e].
    + injection He as ->. rewrite Nat.eqb_refl. lia.
    + destruct (Nat.eqb_spec (Dice.oid d0) (Dice.oid d)) as [Heq|_]; [lia|].
      rewrite (IH (S base) (index + 1) e); [lia| |exact He].
      intros k d' Hk. rewrite (Hnum (S k) d' Hk). lia.
Qed.

Lemma indexOf_null (l : list Dice.t) (index : Z) : Game.indexOf_from index l None = -1.
Proof.
  revert index. induction l as [|d0 l IH]; intros index; [reflexivity|].
  cbn [Game.indexOf_from Game.identical]. apply IH.
Qed.

Lemma forEach_from_last {A S} (l : list A) (x : A) (index : Z)
    (body : A -> Z -> S -> S) (s : S) :
  forEach_from index (l ++ [x]) body s
  = body x (index + Z.of_nat (List.length l)) (forEach_from index l body s).
Proof.
  revert index s. induction l as [|a l IH]; intros index s.
  - cbn. rewrite Z.add_0_r. reflexivity.
  - cbn [app forEach_from List.length]. rewrite IH. f_equal. lia.
Qed.

End GameFacts.

(** ** The computer's choice of a dice *)

Section SelectionFacts.
Variable host : Host.

Lemma forEach_best_so_far (diceArray : list Dice.t) (probabilities : Probability.Table)
    (e : nat) (excluded : Dice.t) :
  nth_error diceArray e = Some excluded ->
  (forall i di, nth_error diceArray i = Some di -> i <> e ->
     Probability.cell probabilities (Z.of_nat i) (Z.of_nat e)
       = str (four_decimals (win_count di excluded))) ->
  forall prefix suffix, diceArray = prefix ++ suffix ->
    best_so_far diceArray e excluded (List.length prefix)
      (forEach prefix
         (fun dice index '(bestDice, bestProbability) =>
            if negb (index =? Z.of_nat e) then
              let winProbability :=
                or_else (Probability.cell probabilities index (Z.of_nat e)) (number 0) in
              if greater winProbability bestProbability
              then (Some dice, winProbability)
              else (bestDice, bestProbability)
            else (bestDice, bestProbability))
         (None, number (-1))).
Proof.
  intros He Hcells prefix.
  induction prefix as [|dice prefix IH] using rev_ind; intros suffix Hsplit.
  - left. split; [reflexivity|]. intros a Ha. cbn in Ha. lia.
  - unfold forEach in *. rewrite forEach_from_last. rewrite Z.add_0_l.
    specialize (IH ([dice] ++ suffix)). rewrite app_assoc in IH. specialize (IH Hsplit).
    set (k := List.length prefix) in *.
    assert (Hk : nth_error diceArray k = Some dice).
    { rewrite Hsplit, <- app_assoc. rewrite nth_error_app2 by (unfold k; lia).
      unfold k. rewrite Nat.sub_diag. reflexivity. }
    rewrite length_app. cbn [List.length]. fold k.
    match type of IH with best_so_far _ _ _ _ ?st =>
      destruct st as [bestDice bestProbability]
    end.
    cbv beta iota.
    destruct (Z.eqb_spec (Z.of_nat k) (Z.of_nat e)) as [Heq|Hne]; cbn [negb].
    + (* the excluded dice is skipped *)
      assert (k = e) by lia. subst e.
      destruct IH as [[Hst Hnone]|(b & best & Hb & Hbe & Hbest & Hst & Hmax)].
      * left. split; [exact Hst|]. intros a Ha.
        destruct (Nat.eq_dec a k) as [->|Hak]; [reflexivity|]. apply Hnone. lia.
      * right. exists b, best. split; [lia|]. split; [exact Hbe|].
        split; [exact Hbest|]. split; [exact Hst|].
        intros a d Ha Hae Hd. apply Hmax; [lia|exact Hae|exact Hd].
    + assert (Hke : k <> e) by lia.
      rewrite (Hcells k dice Hk Hke).
      pose proof (win_count_bound dice excluded) as Hbound.
      unfold or_else. rewrite four_decimals_truthy by exact Hbound.
      destruct IH as [[Hst Hnone]|(b & best & Hb & Hbe & Hbest & Hst & Hmax)].
      * (* the first candidate *)
        injection Hst as -> ->.
        rewrite four_decimals_above_initial by exact Hbound.
        right. exists k, dice. split; [lia|]. split; [exact Hke|].
        split; [exact Hk|]. split; [reflexivity|].
        intros a d Ha Hae Hd.
        destruct (Nat.eq_dec a k) as [->|Hak].
        -- assert (d = dice) by congruence. subst d. split; [lia|lia].
        -- exfalso. apply Hae. apply Hnone. lia.
      * injection Hst as -> ->.
        rewrite four_decimals_order by (exact Hbound || apply win_count_bound).
        destruct (Z.gtb_spec (win_count dice excluded) (win_count best excluded))
          as [Hgt|Hle].
        -- (* a strictly better candidate replaces the best *)
           right. exists k, dice. split; [lia|]. split; [exact Hke|].
           split; [exact Hk|]. split; [reflexivity|].
           intros a d Ha Hae Hd.
           destruct (Nat.eq_dec a k) as [->|Hak].
           ++ assert (d = dice) by congruence. subst d. split; [lia|lia].
           ++ destruct (Hmax a d ltac:(lia) Hae Hd) as [Hle' _]. split; [lia|lia].
        -- (* otherwise the earlier one stays *)
           right. exists b, best. split; [lia|]. split; [exact Hbe|].
           split; [exact Hbest|]. split; [reflexivity|].
           intros a d Ha Hae Hd.
           destruct (Nat.eq_dec a k) as [->|Hak].
           ++ assert (d = dice) by congruence. subst d. split; [lia|lia].
           ++ apply Hmax; [lia|exact Hae|exact Hd].
Qed.

End SelectionFacts.

Section SelectionClaims.
Variable host : Host.

(** The choice of [selectComputerDice] with difficulty Medium and a dice
    of the set excluded. *)
Lemma selectComputerDice_medium_best (game : Game.t) (e : nat) (excluded : Dice.t)
    (probabilities : Probability.Table) (w : World) :
  (2 <= List.length (Game.diceArray game))%nat ->
  numbered 0 (Game.diceArray game) ->
  Probability.calculateProbabilities (Game.diceArray game) = Ok probabilities ->
  (forall i j di dj,
     nth_error (Game.diceArray game) i = Some di ->
     nth_error (Game.diceArray game) j = Some dj -> i <> j ->
     Probability.cell probabilities (Z.of_nat i) (Z.of_nat j)
       = str (four_decimals (win_count di dj))) ->
  nth_error (Game.diceArray game) e = Some excluded ->
  exists b best,
    Game.selectComputerDice host (Game.set_difficulty game Game.medium) (Some excluded) w
      = (Ok (Some best), w)
    /\ nth_error (Game.diceArray game) b = Some best
    /\ b <> e
    /\ forall a d, nth_error (Game.diceArray game) a = Some d -> a <> e ->
         win_count d excluded <= win_count best excluded
         /\ ((a < b)%nat -> win_count d excluded < win_count best excluded).
Proof.
  intros Hlen Hnum Hrun Hcells He.
  unfold Game.selectComputerDice. cbn [Game.medium_difficulty Game.set_difficulty
    Game.difficulty Game.diceArray].
  rewrite Hrun. cbv zeta. unfold Game.indexOf.
  rewrite (indexOf_from_numbered _ 0 0 e excluded Hnum He), Z.add_0_l.
  pose proof (forEach_best_so_far (Game.diceArray game) probabilities e excluded He
                (fun i di Hi Hie => Hcells i e di excluded Hi He Hie)
                (Game.diceArray game) [] (eq_sym (app_nil_r _))) as Hbest.
  destruct Hbest as [[Hst Hnone]|(b & best & Hb & Hbe & Hbest & Hst & Hmax)].
  - exfalso.
    assert (H0 : 0%nat = e) by (apply Hnone; lia).
    assert (H1 : 1%nat = e) by (apply Hnone; lia). lia.
  - cbv zeta in Hst. rewrite Hst. exists b, best. split; [reflexivity|].
    split; [exact Hbest|]. split; [exact Hbe|].
    intros a d Ha Hae. apply Hmax; [|exact Hae|exact Ha].
    apply nth_error_Some. congruence.
Qed.

(** C6.  With difficulty Medium and the opponent's dice excluded,
    [selectComputerDice] returns a remaining dice whose entry
    P[d][excluded] of the probability table -- its number of wins in 36
    against the excluded dice, to four decimals -- is the greatest, and of
    several such dice the one with the lowest index in the dice set; it
    draws no random number. *)
Theorem selectComputerDice_medium_maximizes (diceArgs : list string) (game : Game.t)
    (e : nat) (excluded : Dice.t) (w : World) :
  Game.constructor diceArgs = Ok game ->
  nth_error (Game.diceArray game) e = Some excluded ->
  exists probabilities b best,
    Probability.calculateProbabilities (Game.diceArray game) = Ok probabilities
    /\ Game.selectComputerDice host (Game.set_difficulty game Game.medium) (Some excluded) w
       = (Ok (Some best), w)
    /\ nth_error (Game.diceArray game) b = Some best
    /\ b <> e
    /\ forall a d, nth_error (Game.diceArray game) a = Some d -> a <> e ->
         Probability.cell probabilities (Z.of_nat a) (Z.of_nat e)
           = str (four_decimals (win_count d excluded))
         /\ win_count d excluded <= win_count best excluded
         /\ ((a < b)%nat -> win_count d excluded < win_count best excluded).
Proof.
  intros Hgame He.
  destruct (Game_constructor_ok _ _ Hgame) as (Hlen & Hnum & Hall & _ & _).
  destruct (calculateProbabilities_cells (Game.diceArray game) Hall)
    as (probabilities & Hrun & Hcells).
  destruct (selectComputerDice_medium_best game e excluded probabilities w
              ltac:(lia) Hnum Hrun Hcells He)
    as (b & best & Hsel & Hb & Hbe & Hmax).
  exists probabilities, b, best.
  split; [exact Hrun|]. split; [exact Hsel|]. split; [exact Hb|]. split; [exact Hbe|].
  intros a d Ha Hae. split.
  - apply Hcells; assumption.
  - apply Hmax; assumption.
Qed.

Lemma cell_no_column (probabilities : Probability.Table) (index : Z) :
  Probability.cell probabilities index (-1) = undefined.
Proof.
  unfold Probability.cell. rewrite orb_true_r. reflexivity.
Qed.

Lemma forEach_no_exclusion_stays (probabilities : Probability.Table)
    (first : Dice.t) (l : list Dice.t) (index : Z) :
  0 <= index ->
  forEach_from index l
    (fun dice index '(bestDice, bestProbability) =>
       if negb (index =? -1) then
         if greater (or_else (Probability.cell probabilities index (-1)) (number 0))
              bestProbability
         then (Some dice, or_else (Probability.cell probabilities index (-1)) (number 0))
         else (bestDice, bestProbability)
       else (bestDice, bestProbability))
    (Some first, number 0)
  = (Some first, number 0).
Proof.
  revert index. induction l as [|dice l IH]; intros index Hindex; [reflexivity|].
  cbn [forEach_from].
  destruct (Z.eqb_spec index (-1)) as [|_]; [lia|]. cbn [negb].
  rewrite cell_no_column.
  change (greater (or_else undefined (number 0)) (number 0)) with false.
  cbv iota. apply IH. lia.
Qed.

(** With difficulty Medium and no dice excluded, [selectComputerDice]
    returns the first dice of the set and draws nothing. *)
Lemma selectComputerDice_medium_first (this : Game.t) (first : Dice.t)
    (rest : list Dice.t) (w : World) :
  Game.medium_difficulty this = true ->
  Game.diceArray this = first :: rest ->
  Forall constructed (Game.diceArray this) ->
  Game.selectComputerDice host this None w = (Ok (Some first), w).
Proof.
  intros Hmedium Harray Hall.
  destruct (calculateProbabilities_cells _ Hall) as (probabilities & Hrun & _).
  unfold Game.selectComputerDice. rewrite Hmedium, Hrun. cbv zeta.
  unfold Game.indexOf. rewrite indexOf_null. rewrite Harray.
  unfold forEach. cbn [forEach_from].
  change (0 =? -1) with false. cbn [negb].
  rewrite cell_no_column.
  change (greater (or_else undefined (number 0)) (number (-1))) with true.
  cbv iota. change (or_else undefined (number 0)) with (number 0).
  rewrite forEach_no_exclusion_stays by lia. reflexivity.
Qed.

(** C7, at the failing inputs.  With difficulty Medium and no dice
    excluded, on every host and in every world [selectComputerDice]
    returns the first dice of the set, without drawing a random number:
    the random fallback that follows the loop is never reached. *)
Theorem selectComputerDice_medium_unexcluded_is_first (diceArgs : list string)
    (game : Game.t) (w : World) :
  Game.constructor diceArgs = Ok game ->
  exists first,
    nth_error (Game.diceArray game) 0 = Some first
    /\ Game.selectComputerDice host (Game.set_difficulty game Game.medium) None w
       = (Ok (Some first), w).
Proof.
  intros Hgame.
  destruct (Game_constructor_ok _ _ Hgame) as (Hlen & _ & Hall & _ & _).
  destruct (Game.diceArray game) as [|first rest] eqn:Harray; [cbn in Hlen; lia|].
  exists first. split; [reflexivity|].
  apply (selectComputerDice_medium_first _ first rest); [reflexivity|exact Harray|].
  cbn [Game.set_difficulty Game.diceArray]. rewrite Harray. exact Hall.
Qed.

(** C4, at the failing inputs.  When the computer moves first (here with
    difficulty Medium, where it takes the first dice) and the user then
    answers '1', the prompt 'Select your dice (excluding computer's
    choice)' accepts the answer and the round is played with one and the
    same dice for both parties. *)
Theorem computerMoveFirst_same_dice (diceArgs : list string) (game : Game.t)
    (inputs : list string) (w : World) :
  Game.constructor diceArgs = Ok game ->
  exists first w',
    nth_error (Game.diceArray game) 0 = Some first
    /\ Game.computerMoveFirst host (Game.set_difficulty game Game.medium)
         ("1"%string :: inputs) w
       = Game.playTurns host (Some first) (Some first) inputs w'.
Proof.
  intros Hgame.
  destruct (Game_constructor_ok _ _ Hgame) as (Hlen & _ & Hall & _ & _).
  destruct (Game.diceArray game) as [|first rest] eqn:Harray; [cbn in Hlen; lia|].
  exists first. eexists. split; [reflexivity|].
  unfold Game.computerMoveFirst.
  rewrite (selectComputerDice_medium_first _ first rest);
    [|reflexivity|exact Harray|cbn [Game.set_difficulty Game.diceArray]; rewrite Harray; exact Hall].
  cbn [Game.selectDice]. 
  change (Game.test_positive_numeral "1") with true. cbn [negb orb].
  unfold Game.out_of_range, Game.chosen.
  change (Number "1") with (Some 1). cbn [Game.set_difficulty Game.diceArray].
  rewrite Harray. cbn [List.length].
  destruct (Z.gtb_spec 1 (Z.of_nat (S (List.length rest)))) as [Hgt|_]; [lia|].
  cbn [Z.ltb Z.compare orb Z.sub Z.add Z.opp Z.pos_sub Z.to_nat nth_error].
  reflexivity.
Qed.

End SelectionClaims.

(** ** The other order: the user picks first *)

Section UserFirstFacts.
Variable host : Host.

Lemma all_digits_value (s : string) (acc : Z) :
  Game.all_digits s = true -> exists n, digits_value acc s = Some n.
Proof.
  revert acc. induction s as [|c s IH]; intros acc H.
  - exists acc. reflexivity.
  - cbn [Game.all_digits] in H. apply andb_true_iff in H as [Hc Hs].
    cbn [digits_value]. rewrite Hc. apply IH. exact Hs.
Qed.

Lemma positive_numeral_number (choice : string) :
  Game.test_positive_numeral choice = true -> exists n, Number choice = Some n.
Proof.
  destruct choice as [|c s]; [discriminate|].
  cbn [Game.test_positive_numeral]. intros H.
  apply andb_true_iff in H as [Hc Hs]. apply andb_true_iff in Hc as [Hlo Hhi].
  unfold Number. cbn [digits_value].
  assert (Hd : is_digit c = true).
  { unfold is_digit. apply N.leb_le in Hlo. apply N.leb_le in Hhi.
    apply andb_true_iff. split; apply N.leb_le; lia. }
  rewrite Hd. apply all_digits_value. exact Hs.
Qed.

(** An answer that [selectDice] accepts returns the dice it names. *)
Lemma selectDice_accepts (this : Game.t) (promt : Line) (choice : string)
    (inputs : list string) (w : World) :
  Game.test_positive_numeral choice = true ->
  Game.out_of_range this choice = false ->
  exists n dice,
    Number choice = Some (Z.of_nat n + 1)
    /\ nth_error (Game.diceArray this) n = Some dice
    /\ Game.selectDice this promt (choice :: inputs) w
       = (Returned (Some dice), inputs,
          answered PromptDiceChoice choice (Game.listing this (log promt w))).
Proof.
  intros Htest Hrange.
  destruct (positive_numeral_number choice Htest) as (n & Hn).
  unfold Game.out_of_range in Hrange. rewrite Hn in Hrange.
  apply orb_false_iff in Hrange as [Hlo Hhi].
  apply Z.ltb_ge in Hlo.
  destruct (Z.gtb_spec n (Z.of_nat (List.length (Game.diceArray this)))) as [|Hle];
    [discriminate|].
  assert (Hlt : (Z.to_nat (n - 1) < List.length (Game.diceArray this))%nat) by lia.
  destruct (nth_error (Game.diceArray this) (Z.to_nat (n - 1))) as [dice|] eqn:Hdice;
    [|apply nth_error_None in Hdice; lia].
  exists (Z.to_nat (n - 1)), dice.
  split; [rewrite Hn; f_equal; lia|]. split; [exact Hdice|].
  cbn [Game.selectDice]. rewrite Htest. cbn [negb orb].
  unfold Game.out_of_range, Game.chosen. rewrite Hn.
  destruct (Z.ltb_spec n 1) as [|_]; [lia|].
  destruct (Z.gtb_spec n (Z.of_nat (List.length (Game.diceArray this)))) as [|_]; [lia|].
  cbn [orb]. destruct (Z.ltb_spec (n - 1) 0) as [|_]; [lia|].
  rewrite Hdice. reflexivity.
Qed.

(** A random choice among the dice other than an excluded dice of the
    set returns a dice of the set that is not the excluded object. *)
Lemma randomAvailable_other (this : Game.t) (e : nat) (excluded : Dice.t) (w : World) :
  (2 <= List.length (Game.diceArray this))%nat ->
  nth_error (Game.diceArray this) e = Some excluded ->
  numbered 0 (Game.diceArray this) ->
  exists dice w',
    Game.randomAvailable host this (Some excluded) w = (Ok (Some dice), w')
    /\ In dice (Game.diceArray this)
    /\ Dice.same dice excluded = false.
Proof.
  intros Hlen He Hnum. unfold Game.randomAvailable.
  set (availableDice := filter (fun dice => negb (Game.identical dice (Some excluded)))
                          (Game.diceArray this)).
  assert (Hsome : (0 < List.length availableDice)%nat).
  { (* a dice at another index is available *)
    pose (o := if (e =? 0)%nat then 1%nat else 0%nat).
    assert (Ho : (o < List.length (Game.diceArray this))%nat)
      by (unfold o; destruct (e =? 0)%nat; lia).
    assert (Hoe : o <> e) by (unfold o; destruct (Nat.eqb_spec e 0); lia).
    destruct (nth_error (Game.diceArray this) o) as [other|] eqn:Hother;
      [|apply nth_error_None in Hother; lia].
    assert (Hin : In other availableDice).
    { apply filter_In. split; [eapply nth_error_In; exact Hother|].
      unfold Game.identical, Dice.same.
      rewrite (Hnum _ _ Hother), (Hnum _ _ He).
      destruct (Nat.eqb_spec (0 + o) (0 + e)); [lia|reflexivity]. }
    destruct availableDice; [contradiction|cbn; lia]. }
  destruct (generateRandomInteger_run host (Z.of_nat (List.length availableDice)) w
              ltac:(lia)) as (rv & bytes & Hrv & Hrun).
  pose proof (Z.mod_pos_bound rv (Z.of_nat (List.length availableDice)) ltac:(lia)) as Hk.
  rewrite (bind_ok _ _ _ _ _ Hrun). unfold ret.
  destruct (nth_error availableDice
              (Z.to_nat (rv mod Z.of_nat (List.length availableDice)))) as [dice|] eqn:Hdice;
    [|apply nth_error_None in Hdice; lia].
  exists dice. eexists. split; [reflexivity|].
  apply nth_error_In in Hdice. apply filter_In in Hdice as [Hin Hother].
  split; [exact Hin|].
  unfold Game.identical in Hother. apply negb_true_iff in Hother. exact Hother.
Qed.

(** When the user picks first, the computer's dice is another object of
    the dice set, with either difficulty. *)
Lemma userMoveFirst_distinct_dice (diceArgs : list string) (game : Game.t)
    (d : Game.Difficulty) (choice : string) (inputs : list string) (w : World) :
  Game.constructor diceArgs = Ok game ->
  Game.test_positive_numeral choice = true ->
  Game.out_of_range game choice = false ->
  exists userDice computerDice w',
    Game.userMoveFirst host (Game.set_difficulty game d) (choice :: inputs) w
      = Game.playTurns host (Some userDice) (Some computerDice) inputs w'
    /\ In userDice (Game.diceArray game)
    /\ In computerDice (Game.diceArray game)
    /\ Dice.same computerDice userDice = false.
Proof.
  intros Hgame Htest Hrange.
  destruct (Game_constructor_ok _ _ Hgame) as (Hlen & Hnum & Hall & _ & _).
  destruct (selectDice_accepts (Game.set_difficulty game d) (SelectPrompt false)
              choice inputs w Htest Hrange) as (n & userDice & _ & Huser & Hsel).
  cbn [Game.set_difficulty Game.diceArray] in Huser.
  unfold Game.userMoveFirst. rewrite Hsel.
  assert (Hcomputer : exists computerDice w1,
            Game.selectComputerDice host (Game.set_difficulty game d) (Some userDice)
              (answered PromptDiceChoice choice
                 (Game.listing (Game.set_difficulty game d) (log (SelectPrompt false) w)))
              = (Ok (Some computerDice), w1)
            /\ In computerDice (Game.diceArray game)
            /\ Dice.same computerDice userDice = false).
  { destruct d.
    - (* Easy: a random dice among the others *)
      unfold Game.selectComputerDice. cbn [Game.medium_difficulty Game.set_difficulty
        Game.difficulty].
      apply (randomAvailable_other (Game.set_difficulty game Game.easy) n userDice);
        cbn [Game.set_difficulty Game.diceArray]; [lia|exact Huser|exact Hnum].
    - (* Medium: the best of the others *)
      destruct (calculateProbabilities_cells (Game.diceArray game) Hall)
        as (probabilities & Hrun & Hcells).
      destruct (selectComputerDice_medium_best host game n userDice probabilities
                  (answered PromptDiceChoice choice
                     (Game.listing (Game.set_difficulty game Game.medium)
                        (log (SelectPrompt false) w)))
                  ltac:(lia) Hnum Hrun Hcells Huser)
        as (b & best & Hbest & Hb & Hbn & _).
      exists best. eexists. split; [exact Hbest|]. split.
      + eapply nth_error_In. exact Hb.
      + unfold Dice.same. rewrite (Hnum _ _ Hb), (Hnum _ _ Huser).
        destruct (Nat.eqb_spec (0 + b) (0 + n)); [lia|reflexivity]. }
  destruct Hcomputer as (computerDice & w1 & Hc & Hin & Hdiff).
  rewrite Hc. cbn [Game.values_of].
  exists userDice, computerDice. eexists. split; [reflexivity|].
  split; [eapply nth_error_In; exact Huser|]. split; [exact Hin|exact Hdiff].
Qed.

End UserFirstFacts.

(** ** Who moves first *)

Section FirstMoveClaims.
Variable host : Host.

(** The commitment of [startGame]: a key, a value in 0..1, its keyed
    hash and the line that publishes it. *)
Lemma firstMoveCommit_run (w : World) :
  exists key computerChoice keyBytes choiceBytes,
    0 <= computerChoice < 2 /\
    (key <- SecureRandom.generateKey host 32 ;;
     computerChoice <- SecureRandom.generateRandomInteger host 2 ;;
     hmac <- SecureRandom.calculateHMAC host key computerChoice ;;
     console_log (ComputerCommitted hmac) ;;;
     ret (key, computerChoice)) w =
      (Ok (key, computerChoice),
       advance w 36
         [RandomBytes keyBytes; RandomBytes choiceBytes;
          CreateHmac key (Number_toString computerChoice)
            (hmacSha3_256 host key (Number_toString computerChoice));
          ConsoleLog (ComputerCommitted
                        (hmacSha3_256 host key (Number_toString computerChoice)))]).
Proof.
  pose (kb := map (fun k => randomSource host (drawn w + k)%nat) (seq 0 32)).
  pose (w1 := {| drawn := (drawn w + 32)%nat; trace := trace w ++ [RandomBytes kb] |}).
  destruct (generateRandomInteger_run host 2 w1 ltac:(lia)) as (rv & ib & Hrv & Hrun).
  exists (toString_hex kb), (rv mod 2), kb, ib. split.
  { apply Z.mod_pos_bound. lia. }
  rewrite (bind_ok _ _ w w1 (toString_hex kb)) by reflexivity.
  rewrite (bind_ok _ _ _ _ _ Hrun).
  cbv [bind SecureRandom.calculateHMAC emit console_log ret w1 advance].
  cbn [drawn trace]. rewrite <- !app_assoc. cbn [app].
  replace (drawn w + 32 + 4)%nat with (drawn w + 36)%nat by lia. reflexivity.
Qed.

(** [Number(userGuess) === this.computerChoice] is false in every game:
    no statement assigns [this.computerChoice]. *)
Lemma guess_is_never_choice (this : Game.t) (userGuess : string) :
  Game.computerChoice this = None -> Game.guess_is_choice this userGuess = false.
Proof.
  intros H. unfold Game.guess_is_choice. rewrite H.
  destruct (Number userGuess); reflexivity.
Qed.

(** C2, at the failing inputs.  Whatever value in 0..1 the computer
    commits to and whichever of '0' and '1' the user guesses -- the
    committed value included -- [startGame] prints 'You guessed wrong'
    and continues with [computerMoveFirst]: the comparison reads
    [this.computerChoice], which is never assigned, and not the committed
    [computerChoice]. *)
Theorem startGame_computer_always_first (diceArgs : list string) (game : Game.t)
    (difficulty userGuess : string) (inputs : list string) (w : World) :
  Game.constructor diceArgs = Ok game ->
  includes ["0"; "1"]%string userGuess = true ->
  exists key computerChoice w1,
    0 <= computerChoice < 2
    /\ Game.startGame host game (difficulty :: userGuess :: inputs) w =
       (let this := Game.set_difficulty game
                      (if String.eqb difficulty "2" then Game.medium else Game.easy) in
        let '(r, inputs', w') :=
          Game.computerMoveFirst host this inputs
            (log (GuessedWrong key computerChoice) w1) in
        (r, this, inputs', w')).
Proof.
  intros Hgame Hguess.
  destruct (Game_constructor_ok _ _ Hgame) as (_ & _ & _ & _ & Hchoice).
  remember (userGuess :: inputs) as inputs1 eqn:Hinputs.
  cbn [Game.startGame].
  match goal with
  | |- context [bind (SecureRandom.generateKey host 32) _ ?w0] =>
      destruct (firstMoveCommit_run w0) as (key & choice & kb & cb & Hc & Hrun)
  end.
  exists key, choice. eexists. split; [exact Hc|].
  rewrite Hrun. subst inputs1. rewrite Hguess. cbn [negb].
  rewrite guess_is_never_choice by exact Hchoice.
  reflexivity.
Qed.

End FirstMoveClaims.

(** An instance: the computer commits to 0, the user guesses 0, and the
    program answers 'You guessed wrong. Computer makes the first move.' *)
Example correct_guess_is_called_wrong :
  exists key,
    In (GuessedWrong key 0)
       (shown (trace (snd (Game.startGame example_host (gameA None)
                             ["2"; "0"]%string fresh)))).
Proof.
  eexists. vm_compute. do 2 right. left. reflexivity.
Qed.

(** ** The theorems at concrete inputs *)

Lemma diceA_constructed :
  Dice.constructor 0 [Some 2; Some 2; Some 4; Some 4; Some 9; Some 9] = Ok diceA.
Proof. reflexivity. Defined.

Lemma diceB_constructed :
  Dice.constructor 1 [Some 6; Some 8; Some 1; Some 1; Some 8; Some 6] = Ok diceB.
Proof. reflexivity. Defined.

Lemma diceC_constructed :
  Dice.constructor 2 [Some 7; Some 5; Some 3; Some 7; Some 5; Some 3] = Ok diceC.
Proof. reflexivity. Defined.

Lemma scenarioA_constructed : Game.constructor scenarioA = Ok (gameA None).
Proof. reflexivity. Defined.

Lemma scenarioA_dice_constructed : Forall constructed [diceA; diceB; diceC].
Proof.
  repeat constructor.
  - exists 0%nat. eexists. exact diceA_constructed.
  - exists 1%nat. eexists. exact diceB_constructed.
  - exists 2%nat. eexists. exact diceC_constructed.
Defined.


(** A round of dice A against dice B, answered with '3' and '4'. *)
Lemma throw_index_in_range_witness :
  Dice.constructor 0 [Some 2; Some 2; Some 4; Some 4; Some 9; Some 9] = Ok diceA
  /\ Dice.constructor 1 [Some 6; Some 8; Some 1; Some 1; Some 8; Some 6] = Ok diceB
  /\ includes Game.accepted_throws "3" = true
  /\ includes Game.accepted_throws "4" = true
  /\ ((exists u1 u2 key1 c1 keyBytes1 indexBytes1 key2 c2 keyBytes2 indexBytes2,
         Number "3" = Some u1 /\ 0 <= u1 < 6
         /\ Number "4" = Some u2 /\ 0 <= u2 < 6 /\
         let result1 := (u1 + c1) mod 6 in
         let result2 := (u2 + c2) mod 6 in
         let computerRoll := face diceB result1 in
         let userDiceRoll := face diceA result2 in
         let throw1 :=
           ConsoleLog TimeForMyThrow
           :: commit_events example_host key1 c1 keyBytes1 indexBytes1
           ++ Question PromptThrow "3"
              :: reveal_events key1 c1 "3" result1 ComputerRolled computerRoll in
         let throw2 :=
           ConsoleLog NowYourTurn
           :: commit_events example_host key2 c2 keyBytes2 indexBytes2
           ++ Question PromptThrow "4"
              :: reveal_events key2 c2 "4" result2 YouRolled userDiceRoll in
         SecureRandom.generateRandomInteger example_host 6
           (advance fresh 32 [ConsoleLog TimeForMyThrow; RandomBytes keyBytes1])
         = (Ok c1,
            advance fresh 36 [ConsoleLog TimeForMyThrow; RandomBytes keyBytes1;
                              RandomBytes indexBytes1])
         /\ 0 <= c1 < 6
         /\ SecureRandom.generateRandomInteger example_host 6
              (advance fresh 68 (throw1 ++ [ConsoleLog NowYourTurn; RandomBytes keyBytes2]))
            = (Ok c2,
               advance fresh 72
                 (throw1 ++ [ConsoleLog NowYourTurn; RandomBytes keyBytes2;
                             RandomBytes indexBytes2]))
         /\ 0 <= c2 < 6
         /\ Game.combine "3" c1 = Some result1 /\ 0 <= result1 < 6
         /\ Game.combine "4" c2 = Some result2 /\ 0 <= result2 < 6
         /\ Dice.roll diceB result1 = Ok computerRoll
         /\ In computerRoll (Dice.values diceB)
         /\ Dice.roll diceA result2 = Ok userDiceRoll
         /\ In userDiceRoll (Dice.values diceA)
         /\ Game.playTurns example_host (Some diceA) (Some diceB)
              ("3"%string :: "4"%string :: []) fresh
            = (Returned tt, [],
               advance fresh 72
                 (throw1 ++ throw2
                  ++ [ConsoleLog (if userDiceRoll >? computerRoll
                                  then YouWin else ComputerWins)])))
      /\ (forall inputs w0, exists rest' w',
            Game.playTurns example_host (Some diceA) (Some diceB) inputs w0
              = (Returned tt, rest', w')
            \/ Game.playTurns example_host (Some diceA) (Some diceB) inputs w0
              = (Pending, rest', w'))).
Proof.
  split; [exact diceA_constructed|]. split; [exact diceB_constructed|].
  split; [reflexivity|]. split; [reflexivity|].
  apply (throw_index_in_range example_host 0 1 _ _ diceA diceB "3" "4" [] fresh
           diceA_constructed diceB_constructed); reflexivity.
Defined.

(** A round of dice A against dice B, answered with '0' and '0'. *)
Lemma verdict_of_round_witness :
  Dice.constructor 0 [Some 2; Some 2; Some 4; Some 4; Some 9; Some 9] = Ok diceA
  /\ Dice.constructor 1 [Some 6; Some 8; Some 1; Some 1; Some 8; Some 6] = Ok diceB
  /\ includes Game.accepted_throws "0" = true
  /\ exists computerRoll userDiceRoll verdict events w',
       Game.playTurns example_host (Some diceA) (Some diceB) ["0"; "0"]%string fresh
         = (Returned tt, [], w')
       /\ trace w' = trace fresh ++ events
       /\ In computerRoll (Dice.values diceB)
       /\ In userDiceRoll (Dice.values diceA)
       /\ faces_and_verdict events = [Face computerRoll; Face userDiceRoll; verdict]
       /\ (verdict = YouWin <-> computerRoll < userDiceRoll)
       /\ (verdict = ComputerWins <-> userDiceRoll <= computerRoll).
Proof.
  split; [exact diceA_constructed|]. split; [exact diceB_constructed|].
  split; [reflexivity|].
  apply (verdict_of_round example_host 0 1 _ _ diceA diceB "0" "0" [] fresh
           diceA_constructed diceB_constructed); reflexivity.
Defined.

Lemma reveal_is_not_verified_witness :
  Dice.constructor 0 [Some 2; Some 2; Some 4; Some 4; Some 9; Some 9] = Ok diceA
  /\ Dice.constructor 1 [Some 6; Some 8; Some 1; Some 1; Some 8; Some 6] = Ok diceB
  /\ includes Game.accepted_throws "0" = true
  /\ exists key1 index1 keyBytes1 indexBytes1 result1 face1
            key2 index2 keyBytes2 indexBytes2 result2 face2 verdict events,
       Game.playTurns example_host (Some diceA) (Some diceB) ["0"; "0"]%string fresh
         = (Returned tt, [], advance fresh 72 events)
       /\ events =
            ConsoleLog TimeForMyThrow
            :: commit_events example_host key1 index1 keyBytes1 indexBytes1
            ++ Question PromptThrow "0"
               :: reveal_events key1 index1 "0" result1 ComputerRolled face1
            ++ ConsoleLog NowYourTurn
               :: commit_events example_host key2 index2 keyBytes2 indexBytes2
            ++ Question PromptThrow "0"
               :: reveal_events key2 index2 "0" result2 YouRolled face2
            ++ [ConsoleLog verdict]
       /\ (verdict = YouWin \/ verdict = ComputerWins)
       /\ reveals_verified events = false.
Proof.
  split; [exact diceA_constructed|]. split; [exact diceB_constructed|].
  split; [reflexivity|].
  apply (reveal_is_not_verified example_host 0 1 _ _ diceA diceB "0" "0" [] fresh
           diceA_constructed diceB_constructed); reflexivity.
Defined.

Lemma calculateProbabilities_entries_witness :
  Forall constructed [diceA; diceB; diceC]
  /\ exists probabilities,
       Probability.calculateProbabilities [diceA; diceB; diceC] = Ok probabilities
       /\ forall i j di dj,
            nth_error [diceA; diceB; diceC] i = Some di ->
            nth_error [diceA; diceB; diceC] j = Some dj -> i <> j ->
            Probability.cell probabilities (Z.of_nat i) (Z.of_nat j)
              = str (four_decimals (win_count di dj))
            /\ Z.abs (36 * ten_thousandths (win_count di dj) - 10000 * win_count di dj) <= 18
            /\ win_count di dj + win_count dj di + tie_count di dj = 36.
Proof.
  split; [exact scenarioA_dice_constructed|].
  apply (calculateProbabilities_entries [diceA; diceB; diceC] scenarioA_dice_constructed).
Defined.

(** Scenario A with dice A excluded. *)
Lemma selectComputerDice_medium_maximizes_witness :
  Game.constructor scenarioA = Ok (gameA None)
  /\ nth_error (Game.diceArray (gameA None)) 0 = Some diceA
  /\ exists probabilities b best,
       Probability.calculateProbabilities (Game.diceArray (gameA None)) = Ok probabilities
       /\ Game.selectComputerDice example_host (Game.set_difficulty (gameA None) Game.medium)
            (Some diceA) fresh = (Ok (Some best), fresh)
       /\ nth_error (Game.diceArray (gameA None)) b = Some best
       /\ b <> 0%nat
       /\ forall a d, nth_error (Game.diceArray (gameA None)) a = Some d -> a <> 0%nat ->
            Probability.cell probabilities (Z.of_nat a) (Z.of_nat 0)
              = str (four_decimals (win_count d diceA))
            /\ win_count d diceA <= win_count best diceA
            /\ ((a < b)%nat -> win_count d diceA < win_count best diceA).
Proof.
  split; [exact scenarioA_constructed|]. split; [reflexivity|].
  apply (selectComputerDice_medium_maximizes example_host scenarioA (gameA None)
           0 diceA fresh scenarioA_constructed).
  reflexivity.
Defined.

Lemma selectComputerDice_medium_unexcluded_is_first_witness :
  Game.constructor scenarioA = Ok (gameA None)
  /\ exists first,
       nth_error (Game.diceArray (gameA None)) 0 = Some first
       /\ Game.selectComputerDice example_host (Game.set_difficulty (gameA None) Game.medium)
            None fresh = (Ok (Some first), fresh).
Proof.
  split; [exact scenarioA_constructed|].
  apply (selectComputerDice_medium_unexcluded_is_first example_host scenarioA (gameA None)
           fresh scenarioA_constructed).
Defined.

Lemma computerMoveFirst_same_dice_witness :
  Game.constructor scenarioA = Ok (gameA None)
  /\ exists first w',
       nth_error (Game.diceArray (gameA None)) 0 = Some first
       /\ Game.computerMoveFirst example_host (Game.set_difficulty (gameA None) Game.medium)
            ["1"; "0"; "0"]%string fresh
          = Game.playTurns example_host (Some first) (Some first) ["0"; "0"]%string w'.
Proof.
  split; [exact scenarioA_constructed|].
  apply (computerMoveFirst_same_dice example_host scenarioA (gameA None)
           ["0"; "0"]%string fresh scenarioA_constructed).
Defined.

Lemma startGame_computer_always_first_witness :
  Game.constructor scenarioA = Ok (gameA None)
  /\ includes ["0"; "1"]%string "0" = true
  /\ exists key computerChoice w1,
       0 <= computerChoice < 2
       /\ Game.startGame example_host (gameA None) ["2"; "0"; "1"; "0"; "0"]%string fresh =
          (let this := Game.set_difficulty (gameA None)
                         (if String.eqb "2" "2" then Game.medium else Game.easy) in
           let '(r, inputs', w') :=
             Game.computerMoveFirst example_host this ["1"; "0"; "0"]%string
               (log (GuessedWrong key computerChoice) w1) in
           (r, this, inputs', w')).
Proof.
  split; [exact scenarioA_constructed|]. split; [reflexivity|].
  apply (startGame_computer_always_first example_host scenarioA (gameA None)
           "2" "0" ["1"; "0"; "0"]%string fresh scenarioA_constructed).
  reflexivity.
Defined.

(** * More of the program *)

(** ** Keys *)

Section KeyFacts.

Lemma byte_hex_unhex (b : byte) : unhex (byte_hex b) = [Byte.to_N b].
Proof. destruct b; reflexivity. Qed.

Lemma byte_hex_lower (b : byte) : all_lower_hex (byte_hex b) = true.
Proof. destruct b; reflexivity. Qed.

Lemma append_empty (s : string) : (s ++ EmptyString)%string = s.
Proof. induction s as [|c s IH]; [reflexivity|]. cbn. rewrite IH. reflexivity. Qed.

Lemma toString_hex_cons (b : byte) (buffer : list byte) :
  toString_hex (b :: buffer) = (byte_hex b ++ toString_hex buffer)%string.
Proof.
  unfold toString_hex. cbn [map String.concat].
  destruct (map byte_hex buffer) as [|h t] eqn:E.
  - cbn [String.concat]. rewrite append_empty. reflexivity.
  - reflexivity.
Qed.

Lemma byte_hex_two (b : byte) : exists hi lo, byte_hex b = String hi (String lo EmptyString).
Proof. unfold byte_hex. eexists. eexists. reflexivity. Qed.

Lemma toString_hex_length (buffer : list byte) :
  String.length (toString_hex buffer) = (2 * List.length buffer)%nat.
Proof.
  induction buffer as [|b buffer IH]; [reflexivity|].
  rewrite toString_hex_cons. destruct (byte_hex_two b) as (hi & lo & ->).
  cbn [String.append String.length List.length]. rewrite IH. lia.
Qed.

Lemma toString_hex_lower (buffer : list byte) :
  all_lower_hex (toString_hex buffer) = true.
Proof.
  induction buffer as [|b buffer IH]; [reflexivity|].
  rewrite toString_hex_cons. pose proof (byte_hex_lower b) as Hb.
  destruct (byte_hex_two b) as (hi & lo & E). rewrite E in Hb |- *.
  cbn [String.append all_lower_hex] in Hb |- *.
  apply andb_true_iff in Hb as [Hhi Hlo]. apply andb_true_iff in Hlo as [Hlo _].
  rewrite Hhi, Hlo, IH. reflexivity.
Qed.

Lemma unhex_pair (hi lo : ascii) (s : string) :
  unhex (String hi (String lo s)) = (16 * hex_value hi + hex_value lo)%N :: unhex s.
Proof. reflexivity. Qed.

Lemma toString_hex_unhex (buffer : list byte) :
  unhex (toString_hex buffer) = map Byte.to_N buffer.
Proof.
  induction buffer as [|b buffer IH]; [reflexivity|].
  rewrite toString_hex_cons. pose proof (byte_hex_unhex b) as Hb.
  destruct (byte_hex_two b) as (hi & lo & E). rewrite E in Hb |- *.
  change (String hi (String lo EmptyString) ++ toString_hex buffer)%string
    with (String hi (String lo (toString_hex buffer))).
  rewrite unhex_pair in Hb |- *. rewrite IH.
  cbn [map]. f_equal. congruence.
Qed.

Lemma to_N_injective (a b : byte) : Byte.to_N a = Byte.to_N b -> a = b.
Proof.
  intros H. apply (f_equal Byte.of_N) in H. rewrite !Byte.of_to_N in H.
  injection H as H. exact H.
Qed.

Lemma map_to_N_injective (l1 l2 : list byte) :
  map Byte.to_N l1 = map Byte.to_N l2 -> l1 = l2.
Proof.
  revert l2. induction l1 as [|a l1 IH]; intros [|b l2] H; try discriminate.
  - reflexivity.
  - cbn in H. injection H as Hab Hl. f_equal; [apply to_N_injective; exact Hab|].
    apply IH. exact Hl.
Qed.

(** X1.  [generateKey(length)] takes [length] bytes from the random
    source and returns them as 2 * length lowercase hexadecimal digits
    (64 for the default 32); reading the digits back in pairs gives the
    bytes, so different bytes never give the same key. *)
Theorem generateKey_is_hex_of_the_bytes (host : Host) (length : nat) (w : World) :
  exists bytes,
    SecureRandom.generateKey host length w
      = (Ok (toString_hex bytes),
         {| drawn := (drawn w + length)%nat; trace := trace w ++ [RandomBytes bytes] |})
    /\ List.length bytes = length
    /\ String.length (toString_hex bytes) = (2 * length)%nat
    /\ all_lower_hex (toString_hex bytes) = true
    /\ unhex (toString_hex bytes) = map Byte.to_N bytes
    /\ forall bytes', toString_hex bytes' = toString_hex bytes -> bytes' = bytes.
Proof.
  exists (map (fun k => randomSource host (drawn w + k)%nat) (seq 0 length)).
  split; [reflexivity|]. split; [rewrite length_map, length_seq; reflexivity|].
  split; [rewrite toString_hex_length, length_map, length_seq; reflexivity|].
  split; [apply toString_hex_lower|]. split; [apply toString_hex_unhex|].
  intros bytes' H. apply map_to_N_injective.
  rewrite <- !toString_hex_unhex, H. reflexivity.
Qed.

End KeyFacts.

(** ** The construction of a Dice and its roll *)

Section DiceContract.

Lemma integers_some (values : list (option Z)) (ints : list Z) :
  Dice.integers values = Some ints <-> values = map Some ints.
Proof.
  revert ints. induction values as [|v values IH]; intros ints.
  - cbn. split.
    + intros H. injection H as <-. reflexivity.
    + intros H. destruct ints; [reflexivity|discriminate].
  - cbn [Dice.integers]. destruct v as [z|].
    + destruct (Dice.integers values) as [zs|] eqn:E.
      * split.
        -- intros H. injection H as <-. cbn. f_equal. apply IH. reflexivity.
        -- intros H. destruct ints as [|z' ints]; [discriminate|].
           cbn in H. injection H as -> H. apply IH in H. congruence.
      * split; [discriminate|].
        intros H. destruct ints as [|z' ints]; [discriminate|].
        cbn in H. injection H as -> H. apply IH in H. discriminate.
    + split; [discriminate|]. intros H. destruct ints; discriminate.
Qed.

Lemma integers_none (values : list (option Z)) :
  Dice.integers values = None <-> In None values.
Proof.
  induction values as [|v values IH].
  - cbn. split; [discriminate|contradiction].
  - cbn [Dice.integers In]. destruct v as [z|].
    + destruct (Dice.integers values) as [zs|] eqn:E.
      * split; [discriminate|]. intros [H|H]; [discriminate|].
        apply IH in H. discriminate.
      * split; [|reflexivity]. intros _. right. apply IH. reflexivity.
    + split; [|reflexivity]. intros _. left. reflexivity.
Qed.

(** X2.  [new Dice(values)] succeeds exactly on six integers none of
    which is negative, and then holds those values unchanged; a value that
    is no integer or a length other than six throws 'Each dice must have
    exactly six integer values.', and six integers with a negative one
    throw 'Dice values must be non-negative integers.'. *)
Theorem Dice_constructor_contract (oid : nat) (values : list (option Z)) :
  (forall dice,
     Dice.constructor oid values = Ok dice
     <-> (values = map Some (Dice.values dice) /\ Dice.oid dice = oid
          /\ List.length values = 6%nat /\ Forall (fun value => 0 <= value) (Dice.values dice)))
  /\ (Dice.constructor oid values = Throw "Each dice must have exactly six integer values."
      <-> (In None values \/ List.length values <> 6%nat))
  /\ (Dice.constructor oid values = Throw "Dice values must be non-negative integers."
      <-> (List.length values = 6%nat
           /\ exists ints, values = map Some ints /\ Exists (fun value => value < 0) ints)).
Proof.
  unfold Dice.constructor.
  destruct (Dice.integers values) as [ints|] eqn:Hints.
  - pose proof (proj1 (integers_some values ints) Hints) as Hvalues.
    assert (Hlen : List.length values = List.length ints)
      by (rewrite Hvalues, length_map; reflexivity).
    assert (Hnone : ~ In None values).
    { intros H. apply integers_none in H. congruence. }
    destruct (Nat.eqb_spec (List.length ints) 6) as [H6|H6]; cbn [negb].
    + destruct (existsb (fun value => value <? 0) ints) eqn:Hneg.
      * apply existsb_exists in Hneg as (v & Hv & Hv0). apply Z.ltb_lt in Hv0.
        split; [|split].
        -- intros dice. split; [discriminate|].
           intros (Hd & _ & _ & Hall). exfalso.
           rewrite Hvalues in Hd. apply (f_equal Dice.integers) in Hd.
           rewrite (proj2 (integers_some _ _) eq_refl) in Hd.
           rewrite (proj2 (integers_some _ _) eq_refl) in Hd.
           injection Hd as Hd. rewrite <- Hd in Hall.
           rewrite Forall_forall in Hall. specialize (Hall v Hv). lia.
        -- split; [discriminate|]. intros [H|H]; [contradiction|lia].
        -- split; [|reflexivity]. intros _. split; [lia|].
           exists ints. split; [exact Hvalues|]. apply Exists_exists. exists v. split; assumption.
      * assert (Hall : Forall (fun value => 0 <= value) ints).
        { apply Forall_forall. intros v Hv.
          destruct (Z.ltb_spec v 0) as [Hlt|Hge]; [|exact Hge]. exfalso.
          assert (existsb (fun value => value <? 0) ints = true).
          { apply existsb_exists. exists v. split; [exact Hv|]. apply Z.ltb_lt. exact Hlt. }
          congruence. }
        split; [|split].
        -- intros dice. split.
           ++ intros H. injection H as <-. cbn. repeat split; try assumption. lia.
           ++ intros (Hd & Ho & _ & _). destruct dice as [o vs]. cbn in Hd, Ho. subst o.
              f_equal. f_equal. rewrite Hvalues in Hd.
              apply (f_equal Dice.integers) in Hd.
              rewrite !(proj2 (integers_some _ _) eq_refl) in Hd. congruence.
        -- split; [discriminate|]. intros [H|H]; [contradiction|lia].
        -- split; [discriminate|]. intros (_ & ints' & Hv' & Hex). exfalso.
           rewrite Hvalues in Hv'. apply (f_equal Dice.integers) in Hv'.
           rewrite !(proj2 (integers_some _ _) eq_refl) in Hv'. injection Hv' as <-.
           apply Exists_exists in Hex as (v & Hv & Hv0).
           rewrite Forall_forall in Hall. specialize (Hall v Hv). lia.
    + split; [|split].
      * intros dice. split; [discriminate|]. intros (_ & _ & H & _). lia.
      * split; [|reflexivity]. intros _. right. lia.
      * split; [discriminate|]. intros (H & _). lia.
  - apply integers_none in Hints. split; [|split].
    + intros dice. split; [discriminate|]. intros (Hd & _). exfalso.
      rewrite Hd in Hints. apply in_map_iff in Hints as (z & Hz & _). discriminate.
    + split; [|reflexivity]. intros _. left. exact Hints.
    + split; [discriminate|]. intros (_ & ints & Hv & _). exfalso.
      rewrite Hv in Hints. apply in_map_iff in Hints as (z & Hz & _). discriminate.
Qed.

(** X3.  On a constructed dice, [roll(index)] returns the face at the
    index, a non-negative value of the dice, exactly for the indices
    0 .. 5 and throws 'Roll index must be between 0 and 5.' for every
    other index; [graphicalRoll] prints that face once and returns it, and
    prints nothing when [roll] throws. *)
Theorem roll_contract (oid : nat) (values : list (option Z)) (dice : Dice.t)
    (index : Z) (w : World) :
  Dice.constructor oid values = Ok dice ->
  Dice.roll dice index
    = (if (0 <=? index) && (index <? 6) then Ok (face dice index)
       else Throw "Roll index must be between 0 and 5.")
  /\ Dice.graphicalRoll dice index w
     = (if (0 <=? index) && (index <? 6)
        then (Ok (face dice index), log (Face (face dice index)) w)
        else (Throw "Roll index must be between 0 and 5.", w))
  /\ (0 <= index < 6 -> In (face dice index) (Dice.values dice) /\ 0 <= face dice index).
Proof.
  intros Hdice. destruct (constructor_ok _ _ _ Hdice) as (_ & _ & Hlen & Hall).
  assert (Hroll : Dice.roll dice index
            = (if (0 <=? index) && (index <? 6) then Ok (face dice index)
               else Throw "Roll index must be between 0 and 5.")).
  { destruct (Z.leb_spec 0 index) as [H0|H0]; destruct (Z.ltb_spec index 6) as [H6|H6];
      cbn [andb]; try (apply roll_in_range; [exact Hlen|lia]);
      unfold Dice.roll; rewrite Hlen;
      [destruct (Z.ltb_spec index 0); [lia|];
       destruct (Z.geb_spec index (Z.of_nat 6)); [reflexivity|lia]
      |destruct (Z.ltb_spec index 0); [reflexivity|lia]
      |destruct (Z.ltb_spec index 0); [reflexivity|lia]]. }
  split; [exact Hroll|]. split.
  - unfold Dice.graphicalRoll. rewrite Hroll.
    destruct ((0 <=? index) && (index <? 6)); reflexivity.
  - intros Hi. pose proof (face_in_values dice index Hlen Hi) as Hin.
    split; [exact Hin|]. rewrite Forall_forall in Hall. apply Hall. exact Hin.
Qed.

End DiceContract.

(** ** The combination of the two contributions *)

Section CombineFacts.

(** X4.  For every value the computer commits to, the six accepted
    answers of the user lead to the six face indices, each exactly once;
    and for every accepted answer, the six values of the computer lead to
    the six face indices, each exactly once. *)
Theorem combine_is_a_bijection (computerRollIndex : Z) :
  0 <= computerRollIndex < 6 ->
  (forall result, 0 <= result < 6 ->
     exists userThrow,
       In userThrow Game.accepted_throws
       /\ Game.combine userThrow computerRollIndex = Some result
       /\ forall other, In other Game.accepted_throws ->
            Game.combine other computerRollIndex = Some result -> other = userThrow)
  /\ (forall userThrow result, In userThrow Game.accepted_throws -> 0 <= result < 6 ->
        exists index,
          0 <= index < 6
          /\ Game.combine userThrow index = Some result
          /\ forall other, 0 <= other < 6 ->
               Game.combine userThrow other = Some result -> other = index).
Proof.
  intros Hc. split.
  - intros result Hr.
    exists (Number_toString ((result - computerRollIndex) mod 6)).
    assert (C : computerRollIndex = 0 \/ computerRollIndex = 1 \/ computerRollIndex = 2
                \/ computerRollIndex = 3 \/ computerRollIndex = 4 \/ computerRollIndex = 5)
      by lia.
    assert (R : result = 0 \/ result = 1 \/ result = 2 \/ result = 3 \/ result = 4
                \/ result = 5) by lia.
    destruct C as [->|[->|[->|[->|[->| ->]]]]];
      destruct R as [->|[->|[->|[->|[->| ->]]]]];
      (split; [vm_compute; tauto|]); (split; [reflexivity|]);
      intros other Hother;
      cbn [Game.accepted_throws In] in Hother;
      destruct Hother as [<-|[<-|[<-|[<-|[<-|[<-|[]]]]]]];
      vm_compute; intros H; (reflexivity || discriminate).
  - intros userThrow result Hu Hr.
    exists (match Number userThrow with
            | Some u => (result - u) mod 6
            | None => 0
            end).
    cbn [Game.accepted_throws In] in Hu.
    assert (R : result = 0 \/ result = 1 \/ result = 2 \/ result = 3 \/ result = 4
                \/ result = 5) by lia.
    destruct Hu as [<-|[<-|[<-|[<-|[<-|[<-|[]]]]]]];
      destruct R as [->|[->|[->|[->|[->| ->]]]]];
      (split; [vm_compute; split; [discriminate|reflexivity]|]);
      (split; [reflexivity|]);
      intros other Hother;
      assert (O : other = 0 \/ other = 1 \/ other = 2 \/ other = 3 \/ other = 4
                  \/ other = 5) by lia;
      destruct O as [->|[->|[->|[->|[->| ->]]]]];
      vm_compute; intros H; (reflexivity || discriminate).
Qed.

End CombineFacts.

(** ** The table as a whole and its display *)

Section TableWhole.

(** The table of a set of constructed dice, with its shape and cells. *)
Lemma calculateProbabilities_table (diceArray : list Dice.t) :
  Forall constructed diceArray ->
  exists probabilities,
    Probability.calculateProbabilities diceArray = Ok probabilities
    /\ shape (List.length diceArray) probabilities
    /\ forall a b, (a < List.length diceArray)%nat -> (b < List.length diceArray)%nat ->
         at_ probabilities a b
         = if (a =? b)%nat then number 0
           else str (four_decimals (win_count (nth a diceArray no_dice)
                                              (nth b diceArray no_dice))).
Proof.
  intros Hall.
  pose (wins := fun a b => win_count (nth a diceArray no_dice) (nth b diceArray no_dice)).
  assert (Hwins : forall a b, (a < List.length diceArray)%nat ->
            (b < List.length diceArray)%nat ->
            Probability.countWins diceArray (Z.of_nat a) (Z.of_nat b) = Ok (wins a b)).
  { intros a b Ha Hb. rewrite Forall_forall in Hall.
    apply countWins_win_count.
    - apply nth_error_nth'. exact Ha.
    - apply nth_error_nth'. exact Hb.
    - apply Hall. apply nth_In. exact Ha.
    - apply Hall. apply nth_In. exact Hb. }
  destruct (calculateProbabilities_filled diceArray wins Hwins)
    as (probabilities & Hrun & Hshape & Hcells).
  exists probabilities. split; [exact Hrun|]. split; [exact Hshape|].
  intros a b Ha Hb. rewrite Hcells by assumption.
  destruct (Z.ltb_spec (Z.of_nat a) (Z.of_nat (List.length diceArray))) as [_|]; [|lia].
  cbn [orb andb]. destruct (a =? b)%nat; cbn [negb]; [reflexivity|].
  unfold entry, wins. rewrite toFixed_four_decimals by apply win_count_bound. reflexivity.
Qed.

(** X5.  The table of n constructed dice has n rows of n cells; a cell
    of the diagonal is the number 0 with which the table was filled, never
    a string, and a read in a row of the table at a column outside it
    (such as column -1) gives [undefined]. *)
Theorem table_is_square_with_zero_diagonal (diceArray : list Dice.t) :
  Forall constructed diceArray ->
  exists probabilities,
    Probability.calculateProbabilities diceArray = Ok probabilities
    /\ List.length probabilities = List.length diceArray
    /\ (forall row, In row probabilities -> List.length row = List.length diceArray)
    /\ (forall i, (i < List.length diceArray)%nat ->
          Probability.cell probabilities (Z.of_nat i) (Z.of_nat i) = number 0)
    /\ (forall i j,
          0 <= i < Z.of_nat (List.length diceArray) ->
          j < 0 \/ Z.of_nat (List.length diceArray) <= j ->
          Probability.cell probabilities i j = undefined).
Proof.
  intros Hall.
  destruct (calculateProbabilities_table diceArray Hall)
    as (probabilities & Hrun & [Hlen Hrows] & Hcells).
  exists probabilities. split; [exact Hrun|]. split; [exact Hlen|]. split; [|split].
  - intros row Hrow. apply In_nth_error in Hrow as (a & Ha).
    assert (Hlt : (a < List.length diceArray)%nat)
      by (rewrite <- Hlen; apply nth_error_Some; congruence).
    rewrite <- (Hrows a Hlt). f_equal. symmetry. apply nth_error_nth. exact Ha.
  - intros i Hi. rewrite cell_at, Hcells by assumption.
    rewrite Nat.eqb_refl. reflexivity.
  - intros i j Hin Hout. unfold Probability.cell.
    destruct (Z.ltb_spec i 0) as [|Hi]; [lia|].
    destruct (Z.ltb_spec j 0) as [|Hj]; [reflexivity|]. cbn [orb].
    apply nth_overflow. rewrite Hrows by lia. lia.
Qed.

(** X6.  Two entries of the table compare, as the strings they are, the
    way the numbers of wins they report compare, and they are the same
    string exactly when the numbers of wins are the same: four decimals
    lose nothing of the order of the 37 possible values. *)
Theorem table_entries_compare_as_counts (diceArray : list Dice.t) :
  Forall constructed diceArray ->
  exists probabilities,
    Probability.calculateProbabilities diceArray = Ok probabilities
    /\ forall i j k l di dj dk dl,
         nth_error diceArray i = Some di -> nth_error diceArray j = Some dj -> i <> j ->
         nth_error diceArray k = Some dk -> nth_error diceArray l = Some dl -> k <> l ->
         greater (Probability.cell probabilities (Z.of_nat i) (Z.of_nat j))
                 (Probability.cell probabilities (Z.of_nat k) (Z.of_nat l))
           = (win_count di dj >? win_count dk dl)
         /\ (Probability.cell probabilities (Z.of_nat i) (Z.of_nat j)
             = Probability.cell probabilities (Z.of_nat k) (Z.of_nat l)
             <-> win_count di dj = win_count dk dl).
Proof.
  intros Hall.
  destruct (calculateProbabilities_cells diceArray Hall) as (probabilities & Hrun & Hcells).
  exists probabilities. split; [exact Hrun|].
  intros i j k l di dj dk dl Hi Hj Hij Hk Hl Hkl.
  rewrite (Hcells i j di dj Hi Hj Hij), (Hcells k l dk dl Hk Hl Hkl).
  pose proof (win_count_bound di dj) as Hb1. pose proof (win_count_bound dk dl) as Hb2.
  split; [apply four_decimals_order; assumption|].
  split.
  - intros Heq. injection Heq as Heq.
    pose proof (four_decimals_order _ _ Hb1 Hb2) as H1.
    pose proof (four_decimals_order _ _ Hb2 Hb1) as H2.
    pose proof (four_decimals_order _ _ Hb2 Hb2) as H3.
    rewrite Heq in H1, H2. rewrite H3 in H1, H2.
    destruct (Z.gtb_spec (win_count dk dl) (win_count dk dl)); [lia|].
    destruct (Z.gtb_spec (win_count di dj) (win_count dk dl)); [discriminate|].
    destruct (Z.gtb_spec (win_count dk dl) (win_count di dj)); [discriminate|]. lia.
  - intros ->. reflexivity.
Qed.

Lemma mapi_from_length {A B} (f : A -> Z -> B) (l : list A) (index : Z) :
  List.length (mapi_from index f l) = List.length l.
Proof.
  revert index. induction l as [|a l IH]; intros index; [reflexivity|].
  cbn. rewrite IH. reflexivity.
Qed.

Lemma mapi_from_nth_error {A B} (f : A -> Z -> B) (l : list A) (index : Z) (k : nat) :
  nth_error (mapi_from index f l) k
  = option_map (fun a => f a (index + Z.of_nat k)) (nth_error l k).
Proof.
  revert index k. induction l as [|a l IH]; intros index k.
  - destruct k; reflexivity.
  - destruct k as [|k]; cbn [mapi_from nth_error option_map].
    + rewrite Z.add_0_r. reflexivity.
    + rewrite IH. destruct (nth_error l k); cbn [option_map]; [|reflexivity].
      f_equal. f_equal. lia.
Qed.

(** X7.  [ProbabilityTable.display] prints the heading and one table:
    its head is the empty corner and 'Dice 1' .. 'Dice n', its widths are
    15 and n times 12, and row i is 'Dice i+1' followed by n cells, a
    dash on the diagonal -- the 0 of the table is never shown -- and
    elsewhere the entry to four decimals. *)
Theorem display_shows_the_table (diceArray : list Dice.t) (s : Session) :
  Forall constructed diceArray ->
  exists probabilities table,
    Probability.calculateProbabilities diceArray = Ok probabilities
    /\ ProbabilityTable.display diceArray probabilities s
       = {| taken := taken s;
            history := history s ++ [MenuLog ProbabilityOfWinning; MenuLog (TableText table)] |}
    /\ table_head table
       = EmptyString :: map (fun i => ProbabilityTable.label i) (zrange 0 (List.length diceArray))
    /\ table_colWidths table = 15 :: repeat 12 (List.length diceArray)
    /\ List.length (table_rows table) = List.length diceArray
    /\ forall i di, nth_error diceArray i = Some di ->
         exists cells,
           nth_error (table_rows table) i
             = Some (str (ProbabilityTable.label (Z.of_nat i)) :: cells)
           /\ List.length cells = List.length diceArray
           /\ nth_error cells i = Some (str "-")
           /\ forall j dj, nth_error diceArray j = Some dj -> i <> j ->
                nth_error cells j = Some (str (four_decimals (win_count di dj))).
Proof.
  intros Hall.
  destruct (calculateProbabilities_table diceArray Hall)
    as (probabilities & Hrun & [Hlen Hrows] & Hcells).
  exists probabilities, (ProbabilityTable.table_of diceArray probabilities).
  split; [exact Hrun|]. split.
  { unfold ProbabilityTable.display, say. cbn [taken history].
    rewrite <- app_assoc. reflexivity. }
  split.
  { cbn [ProbabilityTable.table_of table_head]. f_equal. unfold mapi.
    clear. generalize 0. induction diceArray as [|d l IH]; intros start; [reflexivity|].
    cbn [mapi_from List.length zrange map]. f_equal. apply IH. }
  split; [reflexivity|]. split.
  { cbn [ProbabilityTable.table_of table_rows]. unfold mapi.
    rewrite mapi_from_length. exact Hlen. }
  intros i di Hi.
  assert (Hlt : (i < List.length diceArray)%nat) by (apply nth_error_Some; congruence).
  assert (Hrow : nth_error probabilities i = Some (nth i probabilities [])).
  { apply nth_error_nth'. lia. }
  eexists. split.
  { cbn [ProbabilityTable.table_of table_rows]. unfold mapi.
    rewrite mapi_from_nth_error, Hrow. cbn [option_map]. rewrite Z.add_0_l. reflexivity. }
  split; [unfold mapi; rewrite mapi_from_length; apply Hrows; exact Hlt|]. split.
  - unfold mapi. rewrite mapi_from_nth_error.
    rewrite (nth_error_nth' (nth i probabilities []) undefined)
      by (rewrite Hrows by exact Hlt; exact Hlt).
    cbn [option_map]. rewrite Z.add_0_l, Z.eqb_refl. reflexivity.
  - intros j dj Hj Hij.
    assert (Hjlt : (j < List.length diceArray)%nat) by (apply nth_error_Some; congruence).
    unfold mapi. rewrite mapi_from_nth_error.
    rewrite (nth_error_nth' (nth i probabilities []) undefined)
      by (rewrite Hrows by exact Hlt; exact Hjlt).
    cbn [option_map]. rewrite Z.add_0_l.
    destruct (Z.eqb_spec (Z.of_nat i) (Z.of_nat j)) as [|_]; [lia|].
    fold (at_ probabilities i j). rewrite Hcells by assumption.
    destruct (Nat.eqb_spec i j) as [|_]; [contradiction|].
    rewrite (nth_error_nth _ _ no_dice Hi), (nth_error_nth _ _ no_dice Hj). reflexivity.
Qed.

End TableWhole.

(** ** The properties above at the dice of the example *)

Lemma roll_contract_witness :
  Dice.constructor 0 (map Some [2; 2; 4; 4; 9; 9]) = Ok diceA
  /\ Dice.roll diceA 4
     = (if (0 <=? 4) && (4 <? 6) then Ok (face diceA 4)
        else Throw "Roll index must be between 0 and 5.")
  /\ Dice.graphicalRoll diceA 4 fresh
     = (if (0 <=? 4) && (4 <? 6)
        then (Ok (face diceA 4), log (Face (face diceA 4)) fresh)
        else (Throw "Roll index must be between 0 and 5.", fresh))
  /\ (0 <= 4 < 6 -> In (face diceA 4) (Dice.values diceA) /\ 0 <= face diceA 4).
Proof.
  split; [reflexivity|].
  apply (roll_contract 0 (map Some [2; 2; 4; 4; 9; 9]) diceA 4 fresh). reflexivity.
Defined.

Lemma combine_is_a_bijection_witness :
  0 <= 4 < 6
  /\ (forall result, 0 <= result < 6 ->
        exists userThrow,
          In userThrow Game.accepted_throws
          /\ Game.combine userThrow 4 = Some result
          /\ forall other, In other Game.accepted_throws ->
               Game.combine other 4 = Some result -> other = userThrow)
  /\ (forall userThrow result, In userThrow Game.accepted_throws -> 0 <= result < 6 ->
        exists index,
          0 <= index < 6
          /\ Game.combine userThrow index = Some result
          /\ forall other, 0 <= other < 6 ->
               Game.combine userThrow other = Some result -> other = index).
Proof.
  split; [lia|]. apply (combine_is_a_bijection 4). lia.
Defined.

Lemma table_is_square_with_zero_diagonal_witness :
  Forall constructed [diceA; diceB; diceC]
  /\ exists probabilities,
       Probability.calculateProbabilities [diceA; diceB; diceC] = Ok probabilities
       /\ List.length probabilities = List.length [diceA; diceB; diceC]
       /\ (forall row, In row probabilities ->
             List.length row = List.length [diceA; diceB; diceC])
       /\ (forall i, (i < List.length [diceA; diceB; diceC])%nat ->
             Probability.cell probabilities (Z.of_nat i) (Z.of_nat i) = number 0)
       /\ (forall i j,
             0 <= i < Z.of_nat (List.length [diceA; diceB; diceC]) ->
             j < 0 \/ Z.of_nat (List.length [diceA; diceB; diceC]) <= j ->
             Probability.cell probabilities i j = undefined).
Proof.
  split; [exact scenarioA_dice_constructed|].
  apply (table_is_square_with_zero_diagonal [diceA; diceB; diceC] scenarioA_dice_constructed).
Defined.

Lemma table_entries_compare_as_counts_witness :
  Forall constructed [diceA; diceB; diceC]
  /\ exists probabilities,
       Probability.calculateProbabilities [diceA; diceB; diceC] = Ok probabilities
       /\ forall i j k l di dj dk dl,
            nth_error [diceA; diceB; diceC] i = Some di ->
            nth_error [diceA; diceB; diceC] j = Some dj -> i <> j ->
            nth_error [diceA; diceB; diceC] k = Some dk ->
            nth_error [diceA; diceB; diceC] l = Some dl -> k <> l ->
            greater (Probability.cell probabilities (Z.of_nat i) (Z.of_nat j))
                    (Probability.cell probabilities (Z.of_nat k) (Z.of_nat l))
              = (win_count di dj >? win_count dk dl)
            /\ (Probability.cell probabilities (Z.of_nat i) (Z.of_nat j)
                = Probability.cell probabilities (Z.of_nat k) (Z.of_nat l)
                <-> win_count di dj = win_count dk dl).
Proof.
  split; [exact scenarioA_dice_constructed|].
  apply (table_entries_compare_as_counts [diceA; diceB; diceC] scenarioA_dice_constructed).
Defined.

Lemma display_shows_the_table_witness :
  Forall constructed [diceA; diceB; diceC]
  /\ exists probabilities table,
       Probability.calculateProbabilities [diceA; diceB; diceC] = Ok probabilities
       /\ ProbabilityTable.display [diceA; diceB; diceC] probabilities opening
          = {| taken := taken opening;
               history := history opening
                          ++ [MenuLog ProbabilityOfWinning; MenuLog (TableText table)] |}
       /\ table_head table
          = EmptyString :: map (fun i => ProbabilityTable.label i)
                               (zrange 0 (List.length [diceA; diceB; diceC]))
       /\ table_colWidths table = 15 :: repeat 12 (List.length [diceA; diceB; diceC])
       /\ List.length (table_rows table) = List.length [diceA; diceB; diceC]
       /\ forall i di, nth_error [diceA; diceB; diceC] i = Some di ->
            exists cells,
              nth_error (table_rows table) i
                = Some (str (ProbabilityTable.label (Z.of_nat i)) :: cells)
              /\ List.length cells = List.length [diceA; diceB; diceC]
              /\ nth_error cells i = Some (str "-")
              /\ forall j dj, nth_error [diceA; diceB; diceC] j = Some dj -> i <> j ->
                   nth_error cells j = Some (str (four_decimals (win_count di dj))).
Proof.
  split; [exact scenarioA_dice_constructed|].
  apply (display_shows_the_table [diceA; diceB; diceC] opening scenarioA_dice_constructed).
Defined.

(** ** The construction of a game *)

Section GameConstruction.

Lemma digits_value_nonneg (s : string) (acc : Z) :
  Game.all_digits s = true -> 0 <= acc ->
  exists n, digits_value acc s = Some n /\ 0 <= n.
Proof.
  revert acc. induction s as [|c s IH]; intros acc H Hacc.
  - exists acc. split; [reflexivity|exact Hacc].
  - cbn [Game.all_digits] in H. apply andb_true_iff in H as [Hc Hs].
    cbn [digits_value]. rewrite Hc. apply IH; [exact Hs|].
    unfold is_digit in Hc. apply andb_true_iff in Hc as [Hlo _].
    apply N.leb_le in Hlo. unfold digit_value. lia.
Qed.

Lemma numerals_values (parts : list string) :
  forallb Game.numeral parts = true ->
  exists ints, map Number parts = map Some ints
               /\ Forall (fun value => 0 <= value) ints.
Proof.
  induction parts as [|part parts IH]; intros H.
  - exists []. split; [reflexivity|constructor].
  - cbn [forallb] in H. apply andb_true_iff in H as [Hpart Hparts].
    destruct (IH Hparts) as (ints & Hints & Hall).
    unfold Game.numeral in Hpart. apply andb_true_iff in Hpart as [_ Hdigits].
    destruct (digits_value_nonneg part 0 Hdigits ltac:(lia)) as (n & Hn & Hn0).
    exists (n :: ints). split.
    + cbn [map]. unfold Number at 1. rewrite Hn, Hints. reflexivity.
    + constructor; assumption.
Qed.

Lemma integers_map_Some (ints : list Z) : Dice.integers (map Some ints) = Some ints.
Proof.
  induction ints as [|z ints IH]; [reflexivity|]. cbn. rewrite IH. reflexivity.
Qed.

(** An argument that passes the test of [validateArgs] makes a dice. *)
Lemma six_numerals_dice (oid : nat) (arg : string) :
  Game.test_six_numerals arg = true ->
  exists ints,
    map Number (Game.split_comma arg) = map Some ints
    /\ Dice.constructor oid (map Number (Game.split_comma arg))
       = Ok {| Dice.oid := oid; Dice.values := ints |}.
Proof.
  unfold Game.test_six_numerals. intros H. apply andb_true_iff in H as [Hlen Hall].
  destruct (numerals_values _ Hall) as (ints & Hints & Hpos).
  exists ints. split; [exact Hints|].
  unfold Dice.constructor. rewrite Hints, integers_map_Some.
  assert (Hsix : List.length ints = 6%nat).
  { apply Nat.eqb_eq in Hlen. rewrite <- Hlen.
    rewrite <- (length_map Number), Hints, length_map. reflexivity. }
  rewrite Hsix. cbn [Nat.eqb negb].
  destruct (existsb (fun value => value <? 0) ints) eqn:Hneg; [|reflexivity].
  apply existsb_exists in Hneg as (v & Hv & Hv0). apply Z.ltb_lt in Hv0.
  rewrite Forall_forall in Hpos. specialize (Hpos v Hv). lia.
Qed.

Lemma map_new_Dice_valid (diceArgs : list string) (oid : nat) :
  forallb Game.test_six_numerals diceArgs = true ->
  exists dices,
    Game.map_new_Dice oid diceArgs = Ok dices
    /\ forall i arg, nth_error diceArgs i = Some arg ->
         exists dice, nth_error dices i = Some dice
                      /\ map Some (Dice.values dice) = map Number (Game.split_comma arg).
Proof.
  revert oid. induction diceArgs as [|arg0 diceArgs IH]; intros oid H.
  - exists []. split; [reflexivity|]. intros [|i] arg Hi; discriminate.
  - cbn [forallb] in H. apply andb_true_iff in H as [Harg Hargs].
    destruct (six_numerals_dice oid arg0 Harg) as (ints & Hints & Hdice).
    destruct (IH (S oid) Hargs) as (dices & Hdices & Hnth).
    exists ({| Dice.oid := oid; Dice.values := ints |} :: dices). split.
    + cbn [Game.map_new_Dice]. rewrite Hdice, Hdices. reflexivity.
    + intros [|i] arg Hi.
      * injection Hi as <-. eexists. split; [reflexivity|]. symmetry. exact Hints.
      * apply Hnth. exact Hi.
Qed.

Lemma constructor_well_formed (diceArgs : list string) (game : Game.t) :
  Game.constructor diceArgs = Ok game ->
  well_formed game /\ forall d, well_formed (Game.set_difficulty game d).
Proof.
  intros Hgame.
  destruct (Game_constructor_ok _ _ Hgame) as (Hlen & Hnum & Hall & _ & Hchoice).
  split; [|intros d]; repeat split; assumption.
Qed.

(** X8.  [new Game(diceArgs)]: fewer than three arguments throw 'You
    must specify at least 3 dice configurations.'; three or more with one
    that is not six numerals separated by commas throw 'Each dice must be
    a comma-separated list of six integers.'; otherwise (the numerals
    being short enough to be read exactly) the game is built, with one
    dice for each argument, in order, holding the six numbers of the
    argument -- the two errors of the Dice constructor cannot occur. *)
Theorem Game_constructor_contract (diceArgs : list string) :
  ((List.length diceArgs < 3)%nat ->
     Game.constructor diceArgs = Throw "You must specify at least 3 dice configurations.")
  /\ ((3 <= List.length diceArgs)%nat ->
      forallb Game.test_six_numerals diceArgs = false ->
      Game.constructor diceArgs
        = Throw "Each dice must be a comma-separated list of six integers.")
  /\ ((3 <= List.length diceArgs)%nat ->
      forallb Game.test_six_numerals diceArgs = true ->
      forallb exact_numerals diceArgs = true ->
      exists game,
        Game.constructor diceArgs = Ok game
        /\ well_formed game
        /\ Game.difficulty game = None
        /\ List.length (Game.diceArray game) = List.length diceArgs
        /\ forall i arg, nth_error diceArgs i = Some arg ->
             exists dice,
               nth_error (Game.diceArray game) i = Some dice
               /\ Dice.oid dice = i
               /\ map Some (Dice.values dice) = map Number (Game.split_comma arg)).
Proof.
  unfold Game.constructor, Game.validateArgs. split; [|split].
  - intros Hlen. apply Nat.ltb_lt in Hlen. rewrite Hlen. reflexivity.
  - intros Hlen Hbad. apply Nat.ltb_ge in Hlen. rewrite Hlen, Hbad. reflexivity.
  - intros Hlen Hgood _. pose proof Hlen as Hlen'. apply Nat.ltb_ge in Hlen'.
    rewrite Hlen', Hgood. cbn [negb].
    destruct (map_new_Dice_valid diceArgs 0 Hgood) as (dices & Hdices & Hnth).
    rewrite Hdices. eexists. split; [reflexivity|].
    destruct (map_new_Dice_ok _ _ _ Hdices) as (Hl & Hnum & Hall).
    cbn [Game.diceArray Game.difficulty].
    split; [|split; [reflexivity|split; [exact Hl|]]].
    + unfold well_formed. cbn [Game.diceArray Game.computerChoice].
      split; [lia|]. split; [exact Hnum|]. split; [exact Hall|reflexivity].
    + intros i arg Hi. destruct (Hnth i arg Hi) as (dice & Hdice & Hvalues).
      exists dice. split; [exact Hdice|]. split; [|exact Hvalues].
      rewrite (Hnum _ _ Hdice). reflexivity.
Qed.

End GameConstruction.

(** ** The selection of the dice *)

Section DiceSelection.
Variable host : Host.

Lemma forEach_from_listing (l : list Dice.t) (index : Z) (w : World) :
  forEach_from index l
    (fun dice index w => log (DiceListing (index + 1) (Dice.values dice)) w) w
  = advance w 0
      (mapi_from index
         (fun dice index => ConsoleLog (DiceListing (index + 1) (Dice.values dice))) l).
Proof.
  revert index w. induction l as [|d l IH]; intros index w.
  - unfold advance. cbn. rewrite app_nil_r, Nat.add_0_r. destruct w; reflexivity.
  - cbn [forEach_from mapi_from]. rewrite IH, log_advance, advance_advance. reflexivity.
Qed.

Lemma listing_asking (this : Game.t) (promt : Line) (w : World) :
  Game.listing this (log promt w) = advance w 0 (asking this promt).
Proof.
  unfold Game.listing, forEach, asking, mapi.
  rewrite forEach_from_listing, log_advance, advance_advance. reflexivity.
Qed.

Lemma selectDice_step (this : Game.t) (promt : Line) (choice : string)
    (inputs : list string) (w : World) :
  Game.selectDice this promt (choice :: inputs) w
  = let w := answered PromptDiceChoice choice (Game.listing this (log promt w)) in
    if negb (Game.test_positive_numeral choice) || Game.out_of_range this choice
    then Game.selectDice this promt inputs (log InvalidSelection w)
    else (Returned (Game.chosen this choice), inputs, w).
Proof. destruct inputs; reflexivity. Qed.

Lemma selectDice_rejects (this : Game.t) (promt : Line) (choice : string)
    (inputs : list string) (w : World) :
  accepted_choice this choice = false ->
  Game.selectDice this promt (choice :: inputs) w
  = Game.selectDice this promt inputs (advance w 0 (rejected_choice this promt choice)).
Proof.
  intros Hno. unfold accepted_choice in Hno.
  assert (Hcond : negb (Game.test_positive_numeral choice) || Game.out_of_range this choice
                  = true).
  { destruct (Game.test_positive_numeral choice); [|reflexivity].
    destruct (Game.out_of_range this choice); [reflexivity|discriminate]. }
  rewrite selectDice_step. cbv zeta. rewrite Hcond. f_equal.
  rewrite listing_asking, answered_advance, log_advance, !advance_advance.
  unfold rejected_choice. reflexivity.
Qed.

Lemma selectDice_rejected_prefix (this : Game.t) (promt : Line) (rejected : list string)
    (inputs : list string) (w : World) :
  Forall (fun answer => accepted_choice this answer = false) rejected ->
  Game.selectDice this promt (rejected ++ inputs) w
  = Game.selectDice this promt inputs
      (advance w 0 (List.concat (map (rejected_choice this promt) rejected))).
Proof.
  intros Hall. revert w. induction Hall as [|answer rejected Hanswer _ IH]; intros w.
  - cbn [app map List.concat]. unfold advance. rewrite app_nil_r, Nat.add_0_r.
    destruct w; reflexivity.
  - cbn [app map List.concat]. rewrite (selectDice_rejects _ _ _ _ _ Hanswer), IH.
    rewrite advance_advance. reflexivity.
Qed.

(** X9.  [selectDice] returns the dice named by the first answer that
    passes its test: every rejected answer before it costs one 'Invalid
    selection' line and a new listing of the dice, no randomness is drawn,
    the result is a dice of the set (never [undefined]), and the answers
    after it are left for the round.  With rejected answers only, it goes
    on waiting. *)
Theorem selectDice_first_accepted_answer (this : Game.t) (promt : Line)
    (rejected : list string) (w : World) :
  Forall (fun answer => accepted_choice this answer = false) rejected ->
  Game.selectDice this promt rejected w
    = (Pending, [],
       advance w 0 (List.concat (map (rejected_choice this promt) rejected) ++ asking this promt))
  /\ forall choice inputs,
       accepted_choice this choice = true ->
       exists n dice,
         Number choice = Some (Z.of_nat n + 1)
         /\ nth_error (Game.diceArray this) n = Some dice
         /\ Game.selectDice this promt (rejected ++ choice :: inputs) w
            = (Returned (Some dice), inputs,
               advance w 0
                 (List.concat (map (rejected_choice this promt) rejected)
                  ++ asking this promt ++ [Question PromptDiceChoice choice])).
Proof.
  intros Hall. split.
  - rewrite <- (app_nil_r rejected) at 1.
    rewrite (selectDice_rejected_prefix _ _ _ _ _ Hall).
    cbn [Game.selectDice]. rewrite listing_asking, advance_advance. reflexivity.
  - intros choice inputs Hyes. unfold accepted_choice in Hyes.
    apply andb_true_iff in Hyes as [Htest Hrange]. apply negb_true_iff in Hrange.
    rewrite (selectDice_rejected_prefix _ _ _ _ _ Hall).
    destruct (selectDice_accepts this promt choice inputs
                (advance w 0 (List.concat (map (rejected_choice this promt) rejected)))
                Htest Hrange) as (n & dice & Hn & Hdice & Hrun).
    exists n, dice. split; [exact Hn|]. split; [exact Hdice|].
    rewrite Hrun, listing_asking, answered_advance, !advance_advance.
    rewrite <- ?app_assoc. reflexivity.
Qed.

Lemma generateRandomInteger_bytes (range : Z) (w : World) :
  0 < range ->
  exists randomValue,
    readUInt32BE (map (fun k => randomSource host (drawn w + k)%nat) (seq 0 4)) 0
      = Ok randomValue
    /\ 0 <= randomValue < 2 ^ 32
    /\ SecureRandom.generateRandomInteger host range w
       = (Ok (randomValue mod range),
          advance w 4 [RandomBytes (map (fun k => randomSource host (drawn w + k)%nat)
                                        (seq 0 4))]).
Proof.
  intros Hrange. unfold SecureRandom.generateRandomInteger.
  destruct (range <=? 0) eqn:Hle; [apply Z.leb_le in Hle; lia|].
  unfold bind, SecureRandom.randomBytes. cbn [seq map].
  match goal with
  | |- context [readUInt32BE (?a :: ?b :: ?c :: ?d :: ?l) 0] =>
      destruct (readUInt32BE_bound a b c d l) as (v & Hv & Hb)
  end.
  exists v. split; [exact Hv|]. split; [exact Hb|].
  rewrite Hv. unfold ret. rewrite Z.rem_mod_nonneg by lia. reflexivity.
Qed.

Lemma filter_keeps_all (l : list Dice.t) (excluded : Dice.t) :
  (forall d, In d l -> Dice.oid d <> Dice.oid excluded) ->
  filter (fun dice => negb (Game.identical dice (Some excluded))) l = l.
Proof.
  induction l as [|d l IH]; intros H; [reflexivity|].
  cbn [filter].
  change (Game.identical d (Some excluded)) with (Dice.oid d =? Dice.oid excluded)%nat.
  destruct (Nat.eqb_spec (Dice.oid d) (Dice.oid excluded)) as [Heq|_].
  - exfalso. apply (H d); [left; reflexivity|exact Heq].
  - cbn [negb]. f_equal. apply IH. intros d' Hd'. apply H. right. exact Hd'.
Qed.

(** The dice other than the one at position [e], in their order. *)
Lemma filter_skipping (l : list Dice.t) (base e : nat) (excluded : Dice.t) (k : nat) :
  numbered base l -> nth_error l e = Some excluded ->
  nth_error (filter (fun dice => negb (Game.identical dice (Some excluded))) l) k
  = nth_error l (skipping e k).
Proof.
  revert base e k. induction l as [|d l IH]; intros base e k Hnum He.
  - destruct e; discriminate.
  - assert (Htail : numbered (S base) l).
    { intros i d' Hi. rewrite (Hnum (S i) d' Hi). lia. }
    pose proof (Hnum 0%nat d eq_refl) as Hd. pose proof (Hnum e excluded He) as Hex.
    cbn [filter].
    change (Game.identical d (Some excluded)) with (Dice.oid d =? Dice.oid excluded)%nat.
    destruct e as [|e].
    + injection He as ->. rewrite Nat.eqb_refl. cbn [negb].
      rewrite filter_keeps_all.
      * unfold skipping. destruct (Nat.ltb_spec k 0); [lia|]. reflexivity.
      * intros d' Hd'. apply In_nth_error in Hd' as (i & Hi).
        rewrite (Htail _ _ Hi). lia.
    + destruct (Nat.eqb_spec (Dice.oid d) (Dice.oid excluded)) as [Heq|_]; [lia|].
      cbn [negb]. cbn [nth_error] in He. destruct k as [|k].
      * reflexivity.
      * cbn [nth_error]. rewrite (IH (S base) e k Htail He). unfold skipping.
        change (S k <? S e)%nat with (k <? e)%nat.
        destruct (k <? e)%nat; reflexivity.
Qed.

Lemma filter_skipping_length (l : list Dice.t) (base e : nat) (excluded : Dice.t) :
  numbered base l -> nth_error l e = Some excluded ->
  S (List.length (filter (fun dice => negb (Game.identical dice (Some excluded))) l))
  = List.length l.
Proof.
  revert base e. induction l as [|d l IH]; intros base e Hnum He.
  - destruct e; discriminate.
  - assert (Htail : numbered (S base) l).
    { intros i d' Hi. rewrite (Hnum (S i) d' Hi). lia. }
    pose proof (Hnum 0%nat d eq_refl) as Hd. pose proof (Hnum e excluded He) as Hex.
    cbn [filter].
    change (Game.identical d (Some excluded)) with (Dice.oid d =? Dice.oid excluded)%nat.
    destruct e as [|e].
    + injection He as ->. rewrite Nat.eqb_refl. cbn [negb].
      rewrite filter_keeps_all; [reflexivity|].
      intros d' Hd'. apply In_nth_error in Hd' as (i & Hi). rewrite (Htail _ _ Hi). lia.
    + destruct (Nat.eqb_spec (Dice.oid d) (Dice.oid excluded)) as [Heq|_]; [lia|].
      cbn [negb List.length]. f_equal. apply (IH (S base) e Htail He).
Qed.

Lemma filter_no_exclusion (l : list Dice.t) :
  filter (fun dice => negb (Game.identical dice None)) l = l.
Proof.
  induction l as [|d l IH]; [reflexivity|]. cbn [filter Game.identical negb].
  f_equal. exact IH.
Qed.

Lemma randomAvailable_unexcluded (this : Game.t) (w : World) :
  (0 < List.length (Game.diceArray this))%nat ->
  let n := Z.of_nat (List.length (Game.diceArray this)) in
  let bytes := map (fun k => randomSource host (drawn w + k)%nat) (seq 0 4) in
  exists randomValue dice,
    readUInt32BE bytes 0 = Ok randomValue
    /\ 0 <= randomValue < 2 ^ 32
    /\ Game.randomAvailable host this None w
       = (Ok (Some dice), advance w 4 [RandomBytes bytes])
    /\ nth_error (Game.diceArray this) (Z.to_nat (randomValue mod n)) = Some dice.
Proof.
  intros Hlen n bytes.
  destruct (generateRandomInteger_bytes n w ltac:(unfold n; lia)) as (rv & Hread & Hrv & Hrun).
  unfold Game.randomAvailable. rewrite filter_no_exclusion. fold n.
  rewrite (bind_ok _ _ _ _ _ Hrun). unfold ret.
  pose proof (Z.mod_pos_bound rv n ltac:(unfold n; lia)) as Hk.
  destruct (nth_error (Game.diceArray this) (Z.to_nat (rv mod n))) as [dice|] eqn:Hdice;
    [|apply nth_error_None in Hdice; unfold n in *; lia].
  exists rv, dice. split; [exact Hread|]. split; [exact Hrv|].
  split; [reflexivity|exact Hdice].
Qed.

Lemma randomAvailable_excluded (this : Game.t) (w : World) (e : nat) (excluded : Dice.t) :
  (2 <= List.length (Game.diceArray this))%nat ->
  numbered 0 (Game.diceArray this) ->
  nth_error (Game.diceArray this) e = Some excluded ->
  let n := Z.of_nat (List.length (Game.diceArray this)) in
  let bytes := map (fun k => randomSource host (drawn w + k)%nat) (seq 0 4) in
  exists randomValue dice,
    readUInt32BE bytes 0 = Ok randomValue
    /\ 0 <= randomValue < 2 ^ 32
    /\ Game.randomAvailable host this (Some excluded) w
       = (Ok (Some dice), advance w 4 [RandomBytes bytes])
    /\ nth_error (Game.diceArray this)
         (skipping e (Z.to_nat (randomValue mod (n - 1)))) = Some dice
    /\ Dice.same dice excluded = false.
Proof.
  intros Hlen Hnum He n bytes.
  pose proof (filter_skipping_length _ 0 e excluded Hnum He) as Hothers.
  destruct (generateRandomInteger_bytes (n - 1) w ltac:(unfold n; lia))
    as (rv & Hread & Hrv & Hrun).
  unfold Game.randomAvailable.
  replace (Z.of_nat (List.length
             (filter (fun dice => negb (Game.identical dice (Some excluded)))
                (Game.diceArray this)))) with (n - 1) by (unfold n; lia).
  rewrite (bind_ok _ _ _ _ _ Hrun). unfold ret.
  rewrite (filter_skipping _ 0 e excluded _ Hnum He).
  pose proof (Z.mod_pos_bound rv (n - 1) ltac:(unfold n; lia)) as Hk.
  set (k := Z.to_nat (rv mod (n - 1))) in *.
  assert (Hkn : (skipping e k < List.length (Game.diceArray this))%nat).
  { unfold skipping. destruct (k <? e)%nat; unfold k, n in *; lia. }
  destruct (nth_error (Game.diceArray this) (skipping e k)) as [dice|] eqn:Hdice;
    [|apply nth_error_None in Hdice; lia].
  exists rv, dice. split; [exact Hread|]. split; [exact Hrv|].
  split; [reflexivity|]. split; [exact Hdice|].
  unfold Dice.same. rewrite (Hnum _ _ Hdice), (Hnum _ _ He).
  apply Nat.eqb_neq. unfold skipping. destruct (Nat.ltb_spec k e); lia.
Qed.

(** X10.  With a difficulty other than Medium, [selectComputerDice]
    takes the next four bytes of the random source once and picks by
    their 32-bit value r: with no dice excluded the dice at position
    r mod n, and with the dice at position e excluded the (r mod (n-1))-th
    of the other dice -- always a dice of the set, and never the excluded
    one. *)
Theorem selectComputerDice_easy_pick (this : Game.t) (w : World) :
  well_formed this ->
  Game.medium_difficulty this = false ->
  let n := Z.of_nat (List.length (Game.diceArray this)) in
  let bytes := map (fun k => randomSource host (drawn w + k)%nat) (seq 0 4) in
  exists randomValue,
    readUInt32BE bytes 0 = Ok randomValue
    /\ 0 <= randomValue < 2 ^ 32
    /\ (exists dice,
          Game.selectComputerDice host this None w
            = (Ok (Some dice), advance w 4 [RandomBytes bytes])
          /\ nth_error (Game.diceArray this) (Z.to_nat (randomValue mod n)) = Some dice)
    /\ (forall e excluded,
          nth_error (Game.diceArray this) e = Some excluded ->
          exists dice,
            Game.selectComputerDice host this (Some excluded) w
              = (Ok (Some dice), advance w 4 [RandomBytes bytes])
            /\ nth_error (Game.diceArray this)
                 (skipping e (Z.to_nat (randomValue mod (n - 1)))) = Some dice
            /\ Dice.same dice excluded = false).
Proof.
  intros (Hlen & Hnum & _ & _) Heasy n bytes.
  destruct (randomAvailable_unexcluded this w ltac:(lia))
    as (rv & dice & Hread & Hrv & Hrun & Hdice).
  exists rv. split; [exact Hread|]. split; [exact Hrv|]. split.
  - exists dice. unfold Game.selectComputerDice. rewrite Heasy. split; assumption.
  - intros e excluded He.
    destruct (randomAvailable_excluded this w e excluded ltac:(lia) Hnum He)
      as (rv' & dice' & Hread' & _ & Hrun' & Hdice' & Hother).
    assert (rv' = rv) by (fold bytes in Hread, Hread'; congruence). subst rv'.
    exists dice'. unfold Game.selectComputerDice. rewrite Heasy.
    split; [exact Hrun'|]. split; assumption.
Qed.

End DiceSelection.

(** ** A round that starts over *)

Section RoundRestart.
Variable host : Host.


End RoundRestart.

(** ** A session as a whole *)

Section SessionFacts.
Variable host : Host.

Lemma well_formed_six (this : Game.t) (dice : Dice.t) :
  well_formed this -> In dice (Game.diceArray this) ->
  List.length (Dice.values dice) = 6%nat.
Proof.
  intros (_ & _ & Hall & _) Hin. rewrite Forall_forall in Hall.
  destruct (Hall dice Hin) as (oid & values & H).
  exact (proj1 (proj2 (proj2 (constructor_ok _ _ _ H)))).
Qed.

Lemma set_difficulty_well_formed (this : Game.t) (d : Game.Difficulty) :
  well_formed this -> well_formed (Game.set_difficulty this d).
Proof. intros H. exact H. Qed.

(** A round ends with a verdict, having used up answers, or waits when
    the answers have run out. *)
Lemma playTurns_ends (ud cd : Dice.t) (inputs : list string) (w : World) :
  List.length (Dice.values ud) = 6%nat -> List.length (Dice.values cd) = 6%nat ->
  exists r rest w',
    Game.playTurns host (Some ud) (Some cd) inputs w = (r, rest, w')
    /\ ((r = Returned tt /\ (List.length rest < List.length inputs)%nat)
        \/ (r = Pending /\ rest = [])).
Proof.
  intros Hud Hcd.
  remember (List.length inputs) as n eqn:Hn.
  revert inputs w Hn.
  induction n as [n IH] using lt_wf_ind. intros inputs w Hn.
  destruct inputs as [|u1 inputs].
  - destruct (playTurns_no_answer host (Some ud) (Some cd) w) as (w' & H).
    exists Pending, [], w'. split; [exact H|]. right. split; reflexivity.
  - destruct (includes Game.accepted_throws u1) eqn:Hu1.
    + destruct inputs as [|u2 inputs].
      * destruct (playTurns_one_answer host ud cd u1 w Hcd Hu1) as (w' & H).
        exists Pending, [], w'. split; [exact H|]. right. split; reflexivity.
      * destruct (includes Game.accepted_throws u2) eqn:Hu2.
        -- destruct (playTurns_round host ud cd u1 u2 inputs w Hud Hcd Hu1 Hu2)
             as (n1 & n2 & k1 & i1 & kb1 & ib1 & k2 & i2 & kb2 & ib2 & H).
           destruct H as (_ & _ & _ & _ & _ & _ & H). cbv zeta in H.
           eexists. eexists. eexists. split; [exact H|]. left.
           split; [reflexivity|cbn [List.length] in *; lia].
        -- destruct (playTurns_invalid_second host ud cd u1 u2 inputs w Hcd Hu1 Hu2)
             as (events & H).
           rewrite H.
           destruct (IH (List.length inputs) ltac:(cbn in Hn; lia) inputs
                       (advance w 72 events) eq_refl) as (r & rest & w' & Hrun & Hend).
           exists r, rest, w'. split; [exact Hrun|].
           destruct Hend as [[Hr Hlen]|Hp]; [left|right; exact Hp].
           split; [exact Hr|cbn [List.length] in *; lia].
    + destruct (playTurns_invalid_first host (Some ud) (Some cd) u1 inputs w Hu1)
        as (k & i & kb & ib & H).
      rewrite H.
      match goal with |- context [Game.playTurns host _ _ inputs ?w1] =>
        destruct (IH (List.length inputs) ltac:(cbn in Hn; lia) inputs w1 eq_refl)
          as (r & rest & w' & Hrun & Hend)
      end.
      exists r, rest, w'. split; [exact Hrun|].
      destruct Hend as [[Hr Hlen]|Hp]; [left|right; exact Hp].
      split; [exact Hr|cbn [List.length] in *; lia].
Qed.

(** [selectDice] returns a dice of the set, having used up answers, or
    waits when the answers have run out. *)
Lemma selectDice_ends (this : Game.t) (promt : Line) (inputs : list string) (w : World) :
  exists r rest w',
    Game.selectDice this promt inputs w = (r, rest, w')
    /\ ((exists dice, r = Returned (Some dice) /\ In dice (Game.diceArray this)
                      /\ (List.length rest < List.length inputs)%nat)
        \/ (r = Pending /\ rest = [])).
Proof.
  revert w. induction inputs as [|choice inputs IH]; intros w.
  - eexists. eexists. eexists. split; [reflexivity|]. right. split; reflexivity.
  - destruct (accepted_choice this choice) eqn:Hchoice.
    + unfold accepted_choice in Hchoice. apply andb_true_iff in Hchoice as [Htest Hrange].
      apply negb_true_iff in Hrange.
      destruct (selectDice_accepts this promt choice inputs w Htest Hrange)
        as (n & dice & _ & Hdice & Hrun).
      eexists. eexists. eexists. split; [exact Hrun|]. left.
      exists dice. split; [reflexivity|]. split; [|cbn; lia].
      eapply nth_error_In. exact Hdice.
    + rewrite (selectDice_rejects _ _ _ _ _ Hchoice).
      match goal with |- context [Game.selectDice this promt inputs ?w1] =>
        destruct (IH w1) as (r & rest & w' & Hrun & Hend)
      end.
      exists r, rest, w'. split; [exact Hrun|].
      destruct Hend as [(dice & Hr & Hin & Hlen)|Hp]; [left|right; exact Hp].
      exists dice. split; [exact Hr|]. split; [exact Hin|cbn; lia].
Qed.

(** In a well-formed game [selectComputerDice] returns a dice of the
    set, whatever the difficulty and whether or not a dice of the set is
    excluded: never null, never undefined, never an exception. *)
Lemma selectComputerDice_picks (this : Game.t) (excludeDice : option Dice.t) (w : World) :
  well_formed this ->
  match excludeDice with
  | Some excluded => In excluded (Game.diceArray this)
  | None => True
  end ->
  exists dice w',
    Game.selectComputerDice host this excludeDice w = (Ok (Some dice), w')
    /\ In dice (Game.diceArray this).
Proof.
  intros (Hlen & Hnum & Hall & Hchoice) Hex.
  destruct (Game.medium_difficulty this) eqn:Hmedium.
  - destruct excludeDice as [excluded|].
    + apply In_nth_error in Hex as (e & He).
      destruct (calculateProbabilities_cells (Game.diceArray this) Hall)
        as (probabilities & Hrun & Hcells).
      destruct this as [dices diff choice]. cbn [Game.diceArray] in *.
      unfold Game.medium_difficulty in Hmedium. cbn [Game.difficulty] in Hmedium.
      destruct diff as [[|]|]; try discriminate.
      destruct (selectComputerDice_medium_best host
                  {| Game.diceArray := dices; Game.difficulty := None;
                     Game.computerChoice := choice |} e excluded probabilities w
                  ltac:(cbn; lia) Hnum Hrun Hcells He)
        as (b & best & Hbest & Hb & _).
      exists best, w. split; [exact Hbest|]. eapply nth_error_In. exact Hb.
    + destruct (Game.diceArray this) as [|first rest] eqn:Harray; [cbn in Hlen; lia|].
      exists first, w. split; [|left; reflexivity].
      apply (selectComputerDice_medium_first host this first rest w Hmedium Harray).
      rewrite Harray. exact Hall.
  - unfold Game.selectComputerDice. rewrite Hmedium.
    destruct excludeDice as [excluded|].
    + apply In_nth_error in Hex as (e & He).
      destruct (randomAvailable_excluded host this w e excluded ltac:(lia) Hnum He)
        as (rv & dice & _ & _ & Hrun & Hdice & _).
      exists dice. eexists. split; [exact Hrun|]. eapply nth_error_In. exact Hdice.
    + destruct (randomAvailable_unexcluded host this w ltac:(lia))
        as (rv & dice & _ & _ & Hrun & Hdice).
      exists dice. eexists. split; [exact Hrun|]. eapply nth_error_In. exact Hdice.
Qed.

Lemma computerMoveFirst_ends (this : Game.t) (inputs : list string) (w : World) :
  well_formed this ->
  exists r rest w',
    Game.computerMoveFirst host this inputs w = (r, rest, w')
    /\ ((r = Returned tt /\ (List.length rest < List.length inputs)%nat)
        \/ (r = Pending /\ rest = [])).
Proof.
  intros Hthis. unfold Game.computerMoveFirst.
  destruct (selectComputerDice_picks this None w Hthis I) as (cd & w1 & Hcd & Hcdin).
  rewrite Hcd.
  match goal with |- context [Game.selectDice this ?p inputs ?w2] =>
    destruct (selectDice_ends this p inputs w2) as (r & rest & w3 & Hsel & Hend)
  end.
  rewrite Hsel. destruct Hend as [(ud & -> & Hudin & Hlen)|[-> ->]].
  - destruct (playTurns_ends ud cd rest w3 (well_formed_six _ _ Hthis Hudin)
                (well_formed_six _ _ Hthis Hcdin)) as (r & rest' & w' & Hrun & Hend).
    exists r, rest', w'. split; [exact Hrun|].
    destruct Hend as [[Hr Hlen']|Hp]; [left|right; exact Hp].
    split; [exact Hr|lia].
  - eexists. eexists. eexists. split; [reflexivity|]. right. split; reflexivity.
Qed.

Lemma userMoveFirst_ends (this : Game.t) (inputs : list string) (w : World) :
  well_formed this ->
  exists r rest w',
    Game.userMoveFirst host this inputs w = (r, rest, w')
    /\ ((r = Returned tt /\ (List.length rest < List.length inputs)%nat)
        \/ (r = Pending /\ rest = [])).
Proof.
  intros Hthis. unfold Game.userMoveFirst.
  destruct (selectDice_ends this (SelectPrompt false) inputs w)
    as (r & rest & w1 & Hsel & Hend).
  rewrite Hsel. destruct Hend as [(ud & -> & Hudin & Hlen)|[-> ->]].
  - destruct (selectComputerDice_picks this (Some ud) w1 Hthis Hudin)
      as (cd & w2 & Hcd & Hcdin).
    rewrite Hcd. cbn [Game.values_of].
    match goal with |- context [Game.playTurns host _ _ rest ?w3] =>
      destruct (playTurns_ends ud cd rest w3 (well_formed_six _ _ Hthis Hudin)
                  (well_formed_six _ _ Hthis Hcdin)) as (r & rest' & w' & Hrun & Hend)
    end.
    exists r, rest', w'. split; [exact Hrun|].
    destruct Hend as [[Hr Hlen']|Hp]; [left|right; exact Hp].
    split; [exact Hr|lia].
  - eexists. eexists. eexists. split; [reflexivity|]. right. split; reflexivity.
Qed.

(** One pass of [startGame] with two answers: the menu, the difficulty,
    the commitment, and what the guess leads to. *)
Lemma startGame_step (this : Game.t) (difficulty userGuess : string)
    (inputs : list string) (w : World) :
  exists key computerChoice keyBytes choiceBytes,
    0 <= computerChoice < 2 /\
    let this' := Game.set_difficulty this
                   (if String.eqb difficulty "2" then Game.medium else Game.easy) in
    let w1 :=
      advance w 36
        (ConsoleLog SelectDifficultyMenu :: Question PromptDifficulty difficulty
         :: (if negb (includes ["1"; "2"]%string difficulty)
             then [ConsoleLog InvalidDifficulty] else [])
         ++ [RandomBytes keyBytes; RandomBytes choiceBytes;
             CreateHmac key (Number_toString computerChoice)
               (hmacSha3_256 host key (Number_toString computerChoice));
             ConsoleLog (ComputerCommitted
                           (hmacSha3_256 host key (Number_toString computerChoice)));
             Question PromptGuess userGuess]) in
    Game.startGame host this (difficulty :: userGuess :: inputs) w =
      if negb (includes ["0"; "1"]%string userGuess) then
        Game.startGame host this' inputs (log InvalidGuess w1)
      else if Game.guess_is_choice this' userGuess then
        let '(r, inputs, w) :=
          Game.userMoveFirst host this' inputs (log (GuessedCorrectly key computerChoice) w1) in
        (r, this', inputs, w)
      else
        let '(r, inputs, w) :=
          Game.computerMoveFirst host this' inputs (log (GuessedWrong key computerChoice) w1) in
        (r, this', inputs, w).
Proof.
  remember (userGuess :: inputs) as inputs1 eqn:Hinputs.
  cbn [Game.startGame].
  match goal with
  | |- context [bind (SecureRandom.generateKey host 32) _ ?w0] =>
      destruct (firstMoveCommit_run host w0) as (key & choice & kb & cb & Hc & Hrun)
  end.
  exists key, choice, kb, cb. split; [exact Hc|]. cbv zeta.
  rewrite Hrun. subst inputs1.
  assert (Hw : forall w0 events,
            w0 = advance w 0 events ->
            answered PromptGuess userGuess
              (advance w0 36
                 [RandomBytes kb; RandomBytes cb;
                  CreateHmac key (Number_toString choice)
                    (hmacSha3_256 host key (Number_toString choice));
                  ConsoleLog (ComputerCommitted
                                (hmacSha3_256 host key (Number_toString choice)))])
            = advance w 36
                (events
                 ++ [RandomBytes kb; RandomBytes cb;
                     CreateHmac key (Number_toString choice)
                       (hmacSha3_256 host key (Number_toString choice));
                     ConsoleLog (ComputerCommitted
                                   (hmacSha3_256 host key (Number_toString choice)));
                     Question PromptGuess userGuess])).
  { intros w0 events ->. rewrite answered_advance, !advance_advance.
    rewrite <- ?app_assoc. reflexivity. }
  match goal with
  | |- context [answered PromptGuess userGuess (advance ?w0 36 ?c)] =>
      rewrite (Hw w0
                 (ConsoleLog SelectDifficultyMenu :: Question PromptDifficulty difficulty
                  :: (if negb (includes ["1"; "2"]%string difficulty)
                      then [ConsoleLog InvalidDifficulty] else [])))
  end.
  - reflexivity.
  - destruct (negb (includes ["1"; "2"]%string difficulty));
      rewrite ?log_advance, answered_advance, ?log_advance, !advance_advance; reflexivity.
Qed.

Lemma startGame_no_answer (this : Game.t) (w : World) :
  Game.startGame host this [] w = (Pending, this, [], log SelectDifficultyMenu w).
Proof. reflexivity. Qed.

Lemma startGame_one_answer (this : Game.t) (difficulty : string) (w : World) :
  exists w',
    Game.startGame host this [difficulty] w
    = (Pending,
       Game.set_difficulty this (if String.eqb difficulty "2" then Game.medium else Game.easy),
       [], w').
Proof.
  cbn [Game.startGame].
  match goal with
  | |- context [bind (SecureRandom.generateKey host 32) _ ?w0] =>
      destruct (firstMoveCommit_run host w0) as (key & choice & kb & cb & Hc & Hrun)
  end.
  rewrite Hrun. eexists. reflexivity.
Qed.

(** [startGame] ends with the game's dice unchanged, having used up
    answers, or waits when the answers have run out. *)
Lemma startGame_ends (this : Game.t) (inputs : list string) (w : World) :
  well_formed this ->
  exists r this' rest w',
    Game.startGame host this inputs w = (r, this', rest, w')
    /\ well_formed this'
    /\ Game.diceArray this' = Game.diceArray this
    /\ ((r = Returned tt /\ (List.length rest < List.length inputs)%nat)
        \/ (r = Pending /\ rest = [])).
Proof.
  remember (List.length inputs) as n eqn:Hn.
  revert this inputs w Hn.
  induction n as [n IH] using lt_wf_ind. intros this inputs w Hn Hthis.
  destruct inputs as [|difficulty [|userGuess inputs]].
  - rewrite startGame_no_answer. eexists. eexists. eexists. eexists.
    split; [reflexivity|]. split; [exact Hthis|]. split; [reflexivity|].
    right. split; reflexivity.
  - destruct (startGame_one_answer this difficulty w) as (w' & Hrun).
    rewrite Hrun. eexists. eexists. eexists. eexists.
    split; [reflexivity|]. split; [exact Hthis|]. split; [reflexivity|].
    right. split; reflexivity.
  - destruct (startGame_step this difficulty userGuess inputs w)
      as (key & choice & kb & cb & _ & Hrun).
    cbv zeta in Hrun. rewrite Hrun. clear Hrun.
    set (this' := Game.set_difficulty this
                    (if String.eqb difficulty "2" then Game.medium else Game.easy)).
    assert (Hthis' : well_formed this') by exact Hthis.
    destruct (negb (includes ["0"; "1"]%string userGuess)).
    + match goal with |- context [Game.startGame host this' inputs ?w1] =>
        destruct (IH (List.length inputs) ltac:(cbn [List.length] in *; lia)
                    this' inputs w1 eq_refl Hthis')
          as (r & this'' & rest & w' & Hrun & Hwf & Harray & Hend)
      end.
      exists r, this'', rest, w'. split; [exact Hrun|]. split; [exact Hwf|].
      split; [exact Harray|].
      destruct Hend as [[Hr Hlen]|Hp]; [left|right; exact Hp].
      split; [exact Hr|cbn [List.length] in *; lia].
    + rewrite guess_is_never_choice by (destruct Hthis' as (_ & _ & _ & H); exact H).
      match goal with |- context [Game.computerMoveFirst host this' inputs ?w1] =>
        destruct (computerMoveFirst_ends this' inputs w1 Hthis')
          as (r & rest & w' & Hrun & Hend)
      end.
      rewrite Hrun. exists r, this', rest, w'.
      split; [reflexivity|]. split; [exact Hthis'|]. split; [reflexivity|].
      destruct Hend as [[Hr Hlen]|Hp]; [left|right; exact Hp].
      split; [exact Hr|cbn [List.length] in *; lia].
Qed.

(** The loop of [play] with more fuel than answers: it ends with
    'Goodbye!' or waits when the answers have run out. *)
Lemma play_loop_ends (probabilities : Probability.Table) (fuel : nat) :
  forall (this : Game.t) (inputs : list string) (s : Session),
    well_formed this -> (List.length inputs < fuel)%nat ->
    exists r this' rest s',
      GamePlay.play_loop host fuel this probabilities inputs s = Some (r, this', rest, s')
      /\ Game.diceArray this' = Game.diceArray this
      /\ ((r = Returned tt /\ exists before, history s' = before ++ [MenuLog Goodbye])
          \/ (r = Pending /\ rest = [])).
Proof.
  induction fuel as [|fuel IH]; intros this inputs s Hthis Hfuel; [lia|].
  destruct inputs as [|choice inputs].
  - eexists. eexists. eexists. eexists. split; [reflexivity|].
    split; [reflexivity|]. right. split; reflexivity.
  - cbn [GamePlay.play_loop]. cbn [List.length] in Hfuel.
    destruct (String.eqb choice "1").
    + unfold in_game.
      match goal with |- context [Game.startGame host this inputs ?w0] =>
        destruct (startGame_ends this inputs w0 Hthis)
          as (r & this' & rest & w' & Hrun & Hwf & Harray & Hend)
      end.
      rewrite Hrun. destruct Hend as [[-> Hlen]|[-> ->]].
      * match goal with |- context [GamePlay.play_loop host fuel this' probabilities rest ?s1] =>
          destruct (IH this' rest s1 Hwf ltac:(lia))
            as (r & this'' & rest' & s' & Hloop & Harray' & Hend)
        end.
        exists r, this'', rest', s'. split; [exact Hloop|].
        split; [congruence|exact Hend].
      * eexists. eexists. eexists. eexists. split; [reflexivity|].
        split; [exact Harray|]. right. split; reflexivity.
    + destruct (String.eqb choice "2"); [apply IH; [exact Hthis|lia]|].
      destruct (String.eqb choice "3"); [|apply IH; [exact Hthis|lia]].
      eexists. eexists. eexists. eexists. split; [reflexivity|].
      split; [reflexivity|]. left. split; [reflexivity|].
      eexists. reflexivity.
Qed.

(** X12.  A session with a game the constructor has built never throws
    and never exits with an error, whatever the host's random source and
    whatever the user answers: the loop of [play] comes to an end on every
    finite sequence of answers, either returning after 'Goodbye!' or
    waiting for an answer when all the answers given have been used up.
    The dice of the game are the same afterwards. *)
Theorem play_ends_with_goodbye_or_waits (diceArgs : list string) (game : Game.t)
    (inputs : list string) (s : Session) :
  Game.constructor diceArgs = Ok game ->
  exists r game' rest s',
    GamePlay.play host game inputs s = Some (r, game', rest, s')
    /\ Game.diceArray game' = Game.diceArray game
    /\ ((r = Returned tt /\ exists before, history s' = before ++ [MenuLog Goodbye])
        \/ (r = Pending /\ rest = [])).
Proof.
  intros Hgame. destruct (constructor_well_formed _ _ Hgame) as [Hwf _].
  pose proof Hwf as (_ & _ & Hall & _).
  destruct (calculateProbabilities_cells _ Hall) as (probabilities & Hrun & _).
  unfold GamePlay.play. rewrite Hrun.
  apply play_loop_ends; [exact Hwf|lia].
Qed.

Lemma play_loop_menu (probabilities : Probability.Table) (this : Game.t)
    (answers rest : list string) :
  Forall (fun answer => answer <> "1"%string /\ answer <> "3"%string) answers ->
  forall (fuel : nat) (s : Session),
    (List.length answers < fuel)%nat ->
    GamePlay.play_loop host fuel this probabilities (answers ++ "3"%string :: rest) s
    = Some (Returned tt, this, rest,
            {| taken := taken s;
               history :=
                 history s
                 ++ List.concat
                      (map (menu_turn (ProbabilityTable.table_of (Game.diceArray this)
                                         probabilities)) answers)
                 ++ [MenuLog MainMenu; OptionChosen "3"; MenuLog Goodbye] |}).
Proof.
  intros Hall. induction Hall as [|answer answers [H1 H3] _ IH]; intros fuel s Hfuel.
  - destruct fuel as [|fuel]; [cbn in Hfuel; lia|].
    cbn [app GamePlay.play_loop map List.concat].
    change (String.eqb "3" "1") with false. change (String.eqb "3" "2") with false.
    change (String.eqb "3" "3") with true. cbv iota.
    unfold say, chose. cbn [taken history]. rewrite <- !app_assoc. reflexivity.
  - destruct fuel as [|fuel]; [cbn in Hfuel; lia|].
    cbn [List.length] in Hfuel.
    cbn [app GamePlay.play_loop map List.concat].
    destruct (String.eqb_spec answer "1") as [|_]; [contradiction|].
    destruct (String.eqb_spec answer "3") as [|_]; [contradiction|].
    unfold menu_turn at 1.
    destruct (String.eqb answer "2"); rewrite IH by lia;
      unfold ProbabilityTable.display, say, chose; cbn [taken history];
      rewrite <- !app_assoc; reflexivity.
Qed.

(** X13.  Answers at the main menu other than '1' draw no randomness
    and start no round: '2' prints the heading and the table computed
    once at the start -- the same table every time -- and any other
    answer prints 'Invalid option'; the menu is shown again after each,
    and '3' ends the session with 'Goodbye!', leaving the answers after
    it unread. *)
Theorem menu_answers_draw_nothing (diceArgs : list string) (game : Game.t)
    (answers rest : list string) (s : Session) :
  Game.constructor diceArgs = Ok game ->
  Forall (fun answer => answer <> "1"%string /\ answer <> "3"%string) answers ->
  exists probabilities,
    Probability.calculateProbabilities (Game.diceArray game) = Ok probabilities
    /\ GamePlay.play host game (answers ++ "3"%string :: rest) s
       = Some (Returned tt, game, rest,
               {| taken := taken s;
                  history :=
                    history s
                    ++ MenuLog Welcome
                       :: List.concat
                            (map (menu_turn (ProbabilityTable.table_of (Game.diceArray game)
                                               probabilities)) answers)
                    ++ [MenuLog MainMenu; OptionChosen "3"; MenuLog Goodbye] |}).
Proof.
  intros Hgame Hall.
  destruct (Game_constructor_ok _ _ Hgame) as (_ & _ & Hdice & _ & _).
  destruct (calculateProbabilities_cells _ Hdice) as (probabilities & Hrun & _).
  exists probabilities. split; [exact Hrun|].
  unfold GamePlay.play. rewrite Hrun.
  rewrite (play_loop_menu probabilities game answers rest Hall)
    by (rewrite length_app; cbn [List.length]; lia).
  unfold say. cbn [taken history]. rewrite <- app_assoc. reflexivity.
Qed.

(** X14.  The script.  With fewer than three arguments it prints the
    two lines of its own check and exits with code 1.  With three or more
    of which one is not six numerals separated by commas, the constructor's
    error is caught and printed as 'Error: Each dice must be a
    comma-separated list of six integers.', and the script ends normally,
    without an exit code of its own.  Otherwise the game is built and the
    program ends as [play] ends: after 'Goodbye!', or waiting for an
    answer. *)
Theorem main_outcomes (args inputs : list string) (s : Session) :
  ((List.length args < 3)%nat ->
     GamePlay.main host args inputs s
     = Some (Exited 1,
             {| taken := taken s;
                history := history s ++ [MenuError TooFewDice; MenuError UsageExample] |}))
  /\ ((3 <= List.length args)%nat ->
      forallb Game.test_six_numerals args = false ->
      GamePlay.main host args inputs s
      = Some (Returned tt,
              {| taken := taken s;
                 history :=
                   history s
                   ++ [MenuError (ErrorMessage
                         "Each dice must be a comma-separated list of six integers.")] |}))
  /\ ((3 <= List.length args)%nat ->
      forallb Game.test_six_numerals args = true ->
      forallb exact_numerals args = true ->
      exists game r s',
        Game.constructor args = Ok game
        /\ GamePlay.main host args inputs s = Some (r, s')
        /\ ((r = Returned tt /\ exists before, history s' = before ++ [MenuLog Goodbye])
            \/ r = Pending)).
Proof.
  unfold GamePlay.main. split; [|split].
  - intros Hlen. apply Nat.ltb_lt in Hlen. rewrite Hlen.
    unfold say_error. cbn [taken history]. rewrite <- app_assoc. reflexivity.
  - intros Hlen Hbad. pose proof Hlen as Hlen'. apply Nat.ltb_ge in Hlen'. rewrite Hlen'.
    unfold Game.constructor, Game.validateArgs. rewrite Hlen', Hbad. reflexivity.
  - intros Hlen Hgood _. pose proof Hlen as Hlen'. apply Nat.ltb_ge in Hlen'. rewrite Hlen'.
    destruct (Game.constructor args) as [game|message] eqn:Hgame.
    + destruct (constructor_well_formed _ _ Hgame) as [Hwf _].
      pose proof Hwf as (_ & _ & Hall & _).
      destruct (calculateProbabilities_cells _ Hall) as (probabilities & Hrun & _).
      destruct (play_loop_ends probabilities (S (List.length inputs)) game inputs
                  (say Welcome s) Hwf ltac:(lia))
        as (r & game' & rest & s' & Hloop & _ & Hend).
      exists game, r, s'. split; [reflexivity|]. split.
      * unfold GamePlay.play. rewrite Hrun, Hloop. reflexivity.
      * destruct Hend as [Hr|[Hp _]]; [left; exact Hr|right; exact Hp].
    + exfalso. unfold Game.constructor, Game.validateArgs in Hgame.
      rewrite Hlen', Hgood in Hgame. cbn [negb] in Hgame.
      destruct (map_new_Dice_valid args 0 Hgood) as (dices & Hdices & _).
      rewrite Hdices in Hgame. discriminate.
Qed.

End SessionFacts.

(** ** A game without a rejected answer *)

Section CleanGame.
Variable host : Host.

Lemma drawn_advance (w : World) (n : nat) (events : list Event) :
  drawn (advance w n events) = (drawn w + n)%nat.
Proof. reflexivity. Qed.

Lemma computerMoveFirst_clean (this : Game.t) (choice u1 u2 : string)
    (rest : list string) (w : World) :
  well_formed this ->
  accepted_choice this choice = true ->
  includes Game.accepted_throws u1 = true ->
  includes Game.accepted_throws u2 = true ->
  exists w',
    Game.computerMoveFirst host this (choice :: u1 :: u2 :: rest) w = (Returned tt, rest, w')
    /\ drawn w' = (drawn w + (if Game.medium_difficulty this then 72 else 76))%nat.
Proof.
  intros Hthis Hchoice Hu1 Hu2.
  unfold accepted_choice in Hchoice. apply andb_true_iff in Hchoice as [Htest Hrange].
  apply negb_true_iff in Hrange.
  assert (Hcd : exists cd w1,
            Game.selectComputerDice host this None w = (Ok (Some cd), w1)
            /\ In cd (Game.diceArray this)
            /\ drawn w1 = (drawn w + (if Game.medium_difficulty this then 0 else 4))%nat).
  { pose proof Hthis as (Hlen & Hnum & Hall & _).
    destruct (Game.medium_difficulty this) eqn:Hmedium.
    - destruct (Game.diceArray this) as [|first others] eqn:Harray; [cbn in Hlen; lia|].
      exists first, w. split; [|split; [left; reflexivity|lia]].
      apply (selectComputerDice_medium_first host this first others w Hmedium Harray).
      rewrite Harray. exact Hall.
    - destruct (randomAvailable_unexcluded host this w ltac:(lia))
        as (rv & dice & _ & _ & Hrun & Hdice).
      exists dice. eexists. unfold Game.selectComputerDice. rewrite Hmedium.
      split; [exact Hrun|]. split; [eapply nth_error_In; exact Hdice|reflexivity]. }
  destruct Hcd as (cd & w1 & Hcd & Hcdin & Hw1).
  unfold Game.computerMoveFirst. rewrite Hcd.
  match goal with |- context [Game.selectDice this ?p _ ?w2] =>
    destruct (selectDice_accepts this p choice (u1 :: u2 :: rest) w2 Htest Hrange)
      as (n & ud & _ & Hud & Hsel)
  end.
  rewrite Hsel.
  assert (Hudin : In ud (Game.diceArray this)) by (eapply nth_error_In; exact Hud).
  match goal with |- context [Game.playTurns host _ _ _ ?w3] =>
    destruct (playTurns_round host ud cd u1 u2 rest w3
                (well_formed_six _ _ Hthis Hudin) (well_formed_six _ _ Hthis Hcdin) Hu1 Hu2)
      as (n1 & n2 & k1 & i1 & kb1 & ib1 & k2 & i2 & kb2 & ib2 & H)
  end.
  destruct H as (_ & _ & _ & _ & _ & _ & H). cbv zeta in H. rewrite H.
  eexists. split; [reflexivity|].
  rewrite listing_asking, answered_advance, log_advance, !advance_advance, drawn_advance.
  rewrite Hw1. destruct (Game.medium_difficulty this); lia.
Qed.

(** X15.  A game in which no answer is rejected takes exactly five
    answers -- the difficulty, the guess, the dice and two throws -- and
    returns with the difficulty set as answered ('2' is Medium, anything
    else Easy).  It takes 108 bytes from the random source with Medium
    (three keys of 32 bytes and three four-byte integers) and 112 with
    Easy, where the computer's dice costs one more integer. *)
Theorem clean_game_takes_five_answers (diceArgs : list string) (game : Game.t)
    (difficulty userGuess choice u1 u2 : string) (rest : list string) (w : World) :
  Game.constructor diceArgs = Ok game ->
  includes ["0"; "1"]%string userGuess = true ->
  accepted_choice game choice = true ->
  includes Game.accepted_throws u1 = true ->
  includes Game.accepted_throws u2 = true ->
  exists w',
    Game.startGame host game (difficulty :: userGuess :: choice :: u1 :: u2 :: rest) w
    = (Returned tt,
       Game.set_difficulty game (if String.eqb difficulty "2" then Game.medium else Game.easy),
       rest, w')
    /\ drawn w' = (drawn w + (if String.eqb difficulty "2" then 108 else 112))%nat.
Proof.
  intros Hgame Hguess Hchoice Hu1 Hu2.
  destruct (constructor_well_formed _ _ Hgame) as [Hwf Hset].
  destruct (startGame_step host game difficulty userGuess (choice :: u1 :: u2 :: rest) w)
    as (key & c & kb & cb & _ & Hrun).
  cbv zeta in Hrun. rewrite Hrun. clear Hrun. rewrite Hguess. cbn [negb].
  rewrite guess_is_never_choice by (destruct Hwf as (_ & _ & _ & H); exact H).
  match goal with |- context [Game.computerMoveFirst host ?this _ ?w1] =>
    destruct (computerMoveFirst_clean this choice u1 u2 rest w1 (Hset _) Hchoice Hu1 Hu2)
      as (w' & Hmove & Hdrawn)
  end.
  rewrite Hmove. exists w'. split; [reflexivity|].
  rewrite Hdrawn, log_advance, advance_advance, drawn_advance.
  destruct (String.eqb difficulty "2"); cbn [Game.medium_difficulty Game.set_difficulty
    Game.difficulty]; lia.
Qed.

End CleanGame.

(** ** The numbers under which the dice are listed *)

Section ListedNumbers.

Lemma digits_value_of_uint_acc (d : Decimal.uint) (acc : positive) :
  digits_value (Z.pos acc) (NilEmpty.string_of_uint d)
  = Some (Z.pos (Pos.of_uint_acc d acc)).
Proof.
  revert acc. induction d as [|d IH|d IH|d IH|d IH|d IH|d IH|d IH|d IH|d IH|d IH];
    intros acc; [reflexivity|..];
    cbn [NilEmpty.string_of_uint digits_value Pos.of_uint_acc];
    match goal with |- context [is_digit ?c] => change (is_digit c) with true end;
    cbv iota; rewrite <- IH; f_equal; vm_compute (digit_value _); lia.
Qed.

Lemma digits_value_of_uint (d : Decimal.uint) :
  digits_value 0 (NilEmpty.string_of_uint d) = Some (Z.of_N (Pos.of_uint d)).
Proof.
  induction d as [|d IH|d IH|d IH|d IH|d IH|d IH|d IH|d IH|d IH|d IH];
    [reflexivity|exact IH|..];
    cbn [NilEmpty.string_of_uint digits_value Pos.of_uint];
    match goal with |- context [is_digit ?c] => change (is_digit c) with true end;
    cbv iota;
    match goal with |- digits_value ?a _ = _ =>
      let v := eval vm_compute in a in change a with v
    end;
    rewrite digits_value_of_uint_acc; reflexivity.
Qed.

Lemma all_digits_of_uint (d : Decimal.uint) :
  Game.all_digits (NilEmpty.string_of_uint d) = true.
Proof.
  induction d; [reflexivity|..]; cbn [NilEmpty.string_of_uint Game.all_digits];
    rewrite IHd; reflexivity.
Qed.

Lemma nzhead_no_leading_zero (d l : Decimal.uint) : Decimal.nzhead d <> Decimal.D0 l.
Proof.
  induction d; cbn [Decimal.nzhead]; try discriminate. exact IHd.
Qed.

Lemma to_uint_no_leading_zero (p : positive) (l : Decimal.uint) :
  Pos.to_uint p <> Decimal.D0 l.
Proof.
  intros H.
  pose proof (DecimalPos.Unsigned.to_of (Pos.to_uint p)) as Hnorm.
  rewrite DecimalPos.Unsigned.of_to in Hnorm. cbn [N.to_uint] in Hnorm.
  unfold Decimal.unorm in Hnorm.
  destruct (Decimal.nzhead (Pos.to_uint p)) eqn:Hhead.
  - apply (DecimalPos.Unsigned.to_uint_nonzero p). exact Hnorm.
  - apply (nzhead_no_leading_zero (Pos.to_uint p) u). exact Hhead.
  - rewrite H in Hnorm. discriminate.
  - rewrite H in Hnorm. discriminate.
  - rewrite H in Hnorm. discriminate.
  - rewrite H in Hnorm. discriminate.
  - rewrite H in Hnorm. discriminate.
  - rewrite H in Hnorm. discriminate.
  - rewrite H in Hnorm. discriminate.
  - rewrite H in Hnorm. discriminate.
  - rewrite H in Hnorm. discriminate.
Qed.

(** The decimal numeral of a positive integer reads back as the integer
    and passes the test of [selectDice]. *)
Lemma positive_toString (p : positive) :
  Number (Number_toString (Z.pos p)) = Some (Z.pos p)
  /\ Game.test_positive_numeral (Number_toString (Z.pos p)) = true.
Proof.
  unfold Number_toString, Number. cbn [Z.to_int NilZero.string_of_int].
  pose proof (DecimalPos.Unsigned.to_uint_nonnil p) as Hnil.
  pose proof (to_uint_no_leading_zero p) as Hzero.
  pose proof (DecimalPos.Unsigned.of_to p) as Hback.
  assert (Hstring : NilZero.string_of_uint (Pos.to_uint p)
                    = NilEmpty.string_of_uint (Pos.to_uint p)).
  { unfold NilZero.string_of_uint. destruct (Pos.to_uint p); [contradiction|..]; reflexivity. }
  rewrite Hstring. split.
  - rewrite digits_value_of_uint, Hback. reflexivity.
  - destruct (Pos.to_uint p) as [|l|l|l|l|l|l|l|l|l|l];
      [contradiction|exfalso; apply (Hzero l); reflexivity|..];
      cbn [NilEmpty.string_of_uint Game.test_positive_numeral];
      rewrite all_digits_of_uint; reflexivity.
Qed.

(** X16.  The number under which [selectDice] lists a dice is the
    answer that selects it: the dice at position k is printed as
    'k+1: [values]', and the answer 'k+1' (the decimal numeral) is
    accepted and returns that very dice. *)
Theorem listed_number_selects_the_dice (this : Game.t) (promt : Line) (k : nat)
    (dice : Dice.t) (inputs : list string) (w : World) :
  nth_error (Game.diceArray this) k = Some dice ->
  let number := Z.of_nat k + 1 in
  nth_error (asking this promt) (S k)
    = Some (ConsoleLog (DiceListing number (Dice.values dice)))
  /\ accepted_choice this (Number_toString number) = true
  /\ Game.selectDice this promt (Number_toString number :: inputs) w
     = (Returned (Some dice), inputs,
        advance w 0 (asking this promt ++ [Question PromptDiceChoice (Number_toString number)])).
Proof.
  intros Hdice number.
  assert (Hk : (k < List.length (Game.diceArray this))%nat)
    by (apply nth_error_Some; congruence).
  assert (Hnumber : number = Z.pos (Pos.of_succ_nat k)) by (unfold number; lia).
  destruct (positive_toString (Pos.of_succ_nat k)) as [Hread Htest].
  rewrite <- Hnumber in Hread, Htest.
  assert (Hrange : Game.out_of_range this (Number_toString number) = false).
  { unfold Game.out_of_range. rewrite Hread.
    destruct (Z.ltb_spec number 1); [unfold number in *; lia|].
    destruct (Z.gtb_spec number (Z.of_nat (List.length (Game.diceArray this))));
      [unfold number in *; lia|reflexivity]. }
  split; [|split].
  - unfold asking, mapi. cbn [nth_error]. rewrite mapi_from_nth_error, Hdice.
    cbn [option_map]. rewrite Z.add_0_l. reflexivity.
  - unfold accepted_choice. rewrite Htest, Hrange. reflexivity.
  - destruct (selectDice_accepts this promt (Number_toString number) inputs w Htest Hrange)
      as (n & dice' & Hn & Hdice' & Hrun).
    rewrite Hread in Hn. injection Hn as Hn.
    assert (n = k) by (unfold number in Hn; lia). subst n.
    rewrite Hdice in Hdice'. injection Hdice' as <-.
    rewrite Hrun, listing_asking, answered_advance, advance_advance. reflexivity.
Qed.

End ListedNumbers.

(** ** The properties of the game and the session at the example *)

Lemma Game_constructor_contract_witness :
  (3 <= List.length scenarioA)%nat
  /\ forallb Game.test_six_numerals scenarioA = true
  /\ forallb exact_numerals scenarioA = true
  /\ exists game,
       Game.constructor scenarioA = Ok game
       /\ well_formed game
       /\ Game.difficulty game = None
       /\ List.length (Game.diceArray game) = List.length scenarioA
       /\ forall i arg, nth_error scenarioA i = Some arg ->
            exists dice,
              nth_error (Game.diceArray game) i = Some dice
              /\ Dice.oid dice = i
              /\ map Some (Dice.values dice) = map Number (Game.split_comma arg).
Proof.
  split; [cbn; lia|]. split; [reflexivity|]. split; [reflexivity|].
  apply (proj2 (proj2 (Game_constructor_contract scenarioA)));
    [cbn; lia|reflexivity|reflexivity].
Defined.

Lemma selectDice_first_accepted_answer_witness :
  Forall (fun answer => accepted_choice (gameA None) answer = false) ["0"; "x"; "4"]%string
  /\ Game.selectDice (gameA None) (SelectPrompt false) ["0"; "x"; "4"]%string fresh
     = (Pending, [],
        advance fresh 0
          (List.concat (map (rejected_choice (gameA None) (SelectPrompt false))
                          ["0"; "x"; "4"]%string)
           ++ asking (gameA None) (SelectPrompt false)))
  /\ forall choice inputs,
       accepted_choice (gameA None) choice = true ->
       exists n dice,
         Number choice = Some (Z.of_nat n + 1)
         /\ nth_error (Game.diceArray (gameA None)) n = Some dice
         /\ Game.selectDice (gameA None) (SelectPrompt false)
              (["0"; "x"; "4"]%string ++ choice :: inputs) fresh
            = (Returned (Some dice), inputs,
               advance fresh 0
                 (List.concat (map (rejected_choice (gameA None) (SelectPrompt false))
                                 ["0"; "x"; "4"]%string)
                  ++ asking (gameA None) (SelectPrompt false)
                  ++ [Question PromptDiceChoice choice])).
Proof.
  assert (H : Forall (fun answer => accepted_choice (gameA None) answer = false)
                ["0"; "x"; "4"]%string) by (repeat constructor).
  split; [exact H|].
  apply (selectDice_first_accepted_answer (gameA None) (SelectPrompt false)
           ["0"; "x"; "4"]%string fresh H).
Defined.

Lemma gameA_well_formed (d : option Game.Difficulty) : well_formed (gameA d).
Proof.
  destruct (constructor_well_formed _ _ scenarioA_constructed) as [(H3 & Hnum & Hall & Hc) _].
  repeat split; assumption.
Defined.

Lemma selectComputerDice_easy_pick_witness :
  well_formed (gameA (Some Game.easy))
  /\ Game.medium_difficulty (gameA (Some Game.easy)) = false
  /\ (let n := Z.of_nat (List.length (Game.diceArray (gameA (Some Game.easy)))) in
      let bytes := map (fun k => randomSource example_host (drawn fresh + k)%nat) (seq 0 4) in
      exists randomValue,
        readUInt32BE bytes 0 = Ok randomValue
        /\ 0 <= randomValue < 2 ^ 32
        /\ (exists dice,
              Game.selectComputerDice example_host (gameA (Some Game.easy)) None fresh
                = (Ok (Some dice), advance fresh 4 [RandomBytes bytes])
              /\ nth_error (Game.diceArray (gameA (Some Game.easy)))
                   (Z.to_nat (randomValue mod n)) = Some dice)
        /\ (forall e excluded,
              nth_error (Game.diceArray (gameA (Some Game.easy))) e = Some excluded ->
              exists dice,
                Game.selectComputerDice example_host (gameA (Some Game.easy))
                  (Some excluded) fresh
                  = (Ok (Some dice), advance fresh 4 [RandomBytes bytes])
                /\ nth_error (Game.diceArray (gameA (Some Game.easy)))
                     (skipping e (Z.to_nat (randomValue mod (n - 1)))) = Some dice
                /\ Dice.same dice excluded = false)).
Proof.
  split; [apply gameA_well_formed|]. split; [reflexivity|].
  apply (selectComputerDice_easy_pick example_host (gameA (Some Game.easy)) fresh
           (gameA_well_formed (Some Game.easy)) eq_refl).
Defined.


Lemma play_ends_with_goodbye_or_waits_witness :
  Game.constructor scenarioA = Ok (gameA None)
  /\ exists r game' rest s',
       GamePlay.play example_host (gameA None)
         ["2"; "1"; "2"; "0"; "1"; "0"; "0"; "3"]%string opening
         = Some (r, game', rest, s')
       /\ Game.diceArray game' = Game.diceArray (gameA None)
       /\ ((r = Returned tt /\ exists before, history s' = before ++ [MenuLog Goodbye])
           \/ (r = Pending /\ rest = [])).
Proof.
  split; [exact scenarioA_constructed|].
  apply (play_ends_with_goodbye_or_waits example_host scenarioA (gameA None)
           ["2"; "1"; "2"; "0"; "1"; "0"; "0"; "3"]%string opening scenarioA_constructed).
Defined.

Lemma menu_answers_draw_nothing_witness :
  Game.constructor scenarioA = Ok (gameA None)
  /\ Forall (fun answer => answer <> "1"%string /\ answer <> "3"%string) ["2"; "x"]%string
  /\ exists probabilities,
       Probability.calculateProbabilities (Game.diceArray (gameA None)) = Ok probabilities
       /\ GamePlay.play example_host (gameA None)
            (["2"; "x"]%string ++ "3"%string :: ["1"]%string) opening
          = Some (Returned tt, gameA None, ["1"]%string,
                  {| taken := taken opening;
                     history :=
                       history opening
                       ++ MenuLog Welcome
                          :: List.concat
                               (map (menu_turn
                                       (ProbabilityTable.table_of
                                          (Game.diceArray (gameA None)) probabilities))
                                  ["2"; "x"]%string)
                       ++ [MenuLog MainMenu; OptionChosen "3"; MenuLog Goodbye] |}).
Proof.
  assert (H : Forall (fun answer => answer <> "1"%string /\ answer <> "3"%string)
                ["2"; "x"]%string) by (repeat constructor; discriminate).
  split; [exact scenarioA_constructed|]. split; [exact H|].
  apply (menu_answers_draw_nothing example_host scenarioA (gameA None)
           ["2"; "x"]%string ["1"]%string opening scenarioA_constructed H).
Defined.

Lemma main_outcomes_witness :
  (3 <= List.length scenarioA)%nat
  /\ forallb Game.test_six_numerals scenarioA = true
  /\ forallb exact_numerals scenarioA = true
  /\ exists game r s',
       Game.constructor scenarioA = Ok game
       /\ GamePlay.main example_host scenarioA ["2"; "3"]%string opening = Some (r, s')
       /\ ((r = Returned tt /\ exists before, history s' = before ++ [MenuLog Goodbye])
           \/ r = Pending).
Proof.
  split; [cbn; lia|]. split; [reflexivity|]. split; [reflexivity|].
  apply (proj2 (proj2 (main_outcomes example_host scenarioA ["2"; "3"]%string opening)));
    [cbn; lia|reflexivity|reflexivity].
Defined.

Lemma clean_game_takes_five_answers_witness :
  Game.constructor scenarioA = Ok (gameA None)
  /\ includes ["0"; "1"]%string "0" = true
  /\ accepted_choice (gameA None) "2" = true
  /\ includes Game.accepted_throws "3" = true
  /\ includes Game.accepted_throws "4" = true
  /\ exists w',
       Game.startGame example_host (gameA None)
         ("2"%string :: "0"%string :: "2"%string :: "3"%string :: "4"%string
          :: ["3"]%string) fresh
       = (Returned tt,
          Game.set_difficulty (gameA None)
            (if String.eqb "2" "2" then Game.medium else Game.easy),
          ["3"]%string, w')
       /\ drawn w' = (drawn fresh + (if String.eqb "2" "2" then 108 else 112))%nat.
Proof.
  split; [exact scenarioA_constructed|]. do 4 (split; [reflexivity|]).
  apply (clean_game_takes_five_answers example_host scenarioA (gameA None)
           "2" "0" "2" "3" "4" ["3"]%string fresh scenarioA_constructed);
    reflexivity.
Defined.

Lemma listed_number_selects_the_dice_witness :
  nth_error (Game.diceArray (gameA None)) 1 = Some diceB
  /\ (let number := Z.of_nat 1 + 1 in
      nth_error (asking (gameA None) (SelectPrompt false)) 2
        = Some (ConsoleLog (DiceListing number (Dice.values diceB)))
      /\ accepted_choice (gameA None) (Number_toString number) = true
      /\ Game.selectDice (gameA None) (SelectPrompt false)
           (Number_toString number :: ["0"]%string) fresh
         = (Returned (Some diceB), ["0"]%string,
            advance fresh 0
              (asking (gameA None) (SelectPrompt false)
               ++ [Question PromptDiceChoice (Number_toString number)]))).
Proof.
  split; [reflexivity|].
  apply (listed_number_selects_the_dice (gameA None) (SelectPrompt false) 1%nat diceB
           ["0"]%string fresh). reflexivity.
Defined.

(** ** The user picks first *)

Section UserFirst.
Variable host : Host.

(** With a dice of the set excluded, [selectComputerDice] returns
    another dice of the set, with either difficulty. *)
Lemma selectComputerDice_other (this : Game.t) (e : nat) (excluded : Dice.t) (w : World) :
  well_formed this ->
  nth_error (Game.diceArray this) e = Some excluded ->
  exists b dice w',
    Game.selectComputerDice host this (Some excluded) w = (Ok (Some dice), w')
    /\ nth_error (Game.diceArray this) b = Some dice
    /\ b <> e
    /\ drawn w' = (drawn w + (if Game.medium_difficulty this then 0 else 4))%nat.
Proof.
  intros (Hlen & Hnum & Hall & Hchoice) He.
  destruct (Game.medium_difficulty this) eqn:Hmedium.
  - destruct (calculateProbabilities_cells (Game.diceArray this) Hall)
      as (probabilities & Hrun & Hcells).
    destruct this as [dices diff choice]. cbn [Game.diceArray] in *.
    unfold Game.medium_difficulty in Hmedium. cbn [Game.difficulty] in Hmedium.
    destruct diff as [[|]|]; try discriminate.
    destruct (selectComputerDice_medium_best host
                {| Game.diceArray := dices; Game.difficulty := None;
                   Game.computerChoice := choice |} e excluded probabilities w
                ltac:(cbn; lia) Hnum Hrun Hcells He)
      as (b & best & Hbest & Hb & Hbe & _).
    exists b, best, w. split; [exact Hbest|]. split; [exact Hb|]. split; [exact Hbe|lia].
  - unfold Game.selectComputerDice. rewrite Hmedium.
    destruct (randomAvailable_excluded host this w e excluded ltac:(lia) Hnum He)
      as (rv & dice & _ & _ & Hrun & Hdice & Hother).
    eexists. exists dice. eexists. split; [exact Hrun|]. split; [exact Hdice|].
    split; [|reflexivity].
    unfold skipping. destruct (Nat.ltb_spec (Z.to_nat
      (rv mod (Z.of_nat (List.length (Game.diceArray this)) - 1))) e); lia.
Qed.

(** X17.  [userMoveFirst]: once the user's answer is accepted, the
    user holds the dice the answer names, the computer takes another dice
    of the set -- never the user's -- and announces its values, and the
    round is played between the two with the answers that are left.  The
    computer's choice costs four random bytes with a difficulty other
    than Medium and none with Medium. *)
Theorem userMoveFirst_plays_two_dice (this : Game.t) (choice : string)
    (inputs : list string) (w : World) :
  well_formed this ->
  accepted_choice this choice = true ->
  exists n c userDice computerDice w',
    Number choice = Some (Z.of_nat n + 1)
    /\ nth_error (Game.diceArray this) n = Some userDice
    /\ nth_error (Game.diceArray this) c = Some computerDice
    /\ c <> n
    /\ Dice.same computerDice userDice = false
    /\ Game.userMoveFirst host this (choice :: inputs) w
       = Game.playTurns host (Some userDice) (Some computerDice) inputs
           (log (ComputerSelectedDice (Dice.values computerDice)) w')
    /\ drawn w' = (drawn w + (if Game.medium_difficulty this then 0 else 4))%nat.
Proof.
  intros Hthis Hchoice.
  unfold accepted_choice in Hchoice. apply andb_true_iff in Hchoice as [Htest Hrange].
  apply negb_true_iff in Hrange.
  destruct (selectDice_accepts this (SelectPrompt false) choice inputs w Htest Hrange)
    as (n & userDice & Hn & Huser & Hsel).
  match type of Hsel with _ = (_, _, ?w1) =>
    destruct (selectComputerDice_other this n userDice w1 Hthis Huser)
      as (c & computerDice & w' & Hcomputer & Hc & Hcn & Hdrawn)
  end.
  exists n, c, userDice, computerDice, w'.
  split; [exact Hn|]. split; [exact Huser|]. split; [exact Hc|]. split; [exact Hcn|].
  split; [|split].
  - destruct Hthis as (_ & Hnum & _ & _).
    unfold Dice.same. rewrite (Hnum _ _ Hc), (Hnum _ _ Huser).
    apply Nat.eqb_neq. lia.
  - unfold Game.userMoveFirst. rewrite Hsel, Hcomputer. reflexivity.
  - rewrite Hdrawn, listing_asking, answered_advance, advance_advance, drawn_advance. lia.
Qed.

End UserFirst.

Lemma userMoveFirst_plays_two_dice_witness :
  well_formed (gameA (Some Game.medium))
  /\ accepted_choice (gameA (Some Game.medium)) "3" = true
  /\ exists n c userDice computerDice w',
       Number "3" = Some (Z.of_nat n + 1)
       /\ nth_error (Game.diceArray (gameA (Some Game.medium))) n = Some userDice
       /\ nth_error (Game.diceArray (gameA (Some Game.medium))) c = Some computerDice
       /\ c <> n
       /\ Dice.same computerDice userDice = false
       /\ Game.userMoveFirst example_host (gameA (Some Game.medium))
            ("3"%string :: ["1"; "2"]%string) fresh
          = Game.playTurns example_host (Some userDice) (Some computerDice) ["1"; "2"]%string
              (log (ComputerSelectedDice (Dice.values computerDice)) w')
       /\ drawn w'
          = (drawn fresh + (if Game.medium_difficulty (gameA (Some Game.medium))
                            then 0 else 4))%nat.
Proof.
  split; [apply gameA_well_formed|]. split; [reflexivity|].
  apply (userMoveFirst_plays_two_dice example_host (gameA (Some Game.medium)) "3"
           ["1"; "2"]%string fresh (gameA_well_formed (Some Game.medium)) eq_refl).
Defined.
